(** * SysML v2 front end: scope engine, validator and parser utilities

    A shallow embedding of the TypeScript sources
    - [src/validation/helpers/multiplicity-checker]
    - [src/validation/helpers/duplicate-checker]
    - [src/validation/helpers/specialization-checker]
    - [src/validation/validator.ts]
    - [src/utils/parser-utils.ts]
    - [src/language/scope-computation.ts], [src/language/scope-provider.ts]
    - [src/utils/element-utils], [src/utils/ast-serializer]
    - [src/cli/utils/diagnostic-utils], [src/cli/reporters],
      [src/cli/commands/validate]
    together with the properties the specification states about them and
    further properties of the code.

    Conventions.  A JavaScript string is a [string]: each [ascii] stands for
    one UTF-16 code unit below 256.  A JavaScript number that the code obtains
    from [parseInt] is an integer, modelled by [Z]; the model agrees with the
    IEEE doubles of the source for magnitudes up to 2^53 ([Js.safeInteger]).
    [undefined]/[null] are [None]. *)

From Stdlib Require Import ZArith List String Ascii Bool Lia DecimalString.
From Stdlib Require DecimalZ.
From Stdlib Require Import Sorted Permutation.
Import ListNotations.

Local Open Scope string_scope.
Local Open Scope bool_scope.
Local Open Scope nat_scope.

(* ===================================================================== *)
(** ** JavaScript string and number primitives used by the sources        *)
(* ===================================================================== *)

Module Js.

(** [s.length] *)
Definition length (s : string) : nat := String.length s.

(** [s.startsWith(p)] *)
Fixpoint startsWith (p s : string) : bool :=
  match p with
  | EmptyString => true
  | String a p' =>
      match s with
      | EmptyString => false
      | String b s' => Ascii.eqb a b && startsWith p' s'
      end
  end.

(** [s.substring(n)] for [0 <= n]: the string without its first [n] units. *)
Fixpoint substring (n : nat) (s : string) : string :=
  match n with
  | O => s
  | S n' => match s with
            | EmptyString => EmptyString
            | String _ s' => substring n' s'
            end
  end.

(** [s.slice(0, n)] for [0 <= n]: the first [n] units. *)
Fixpoint slice0 (n : nat) (s : string) : string :=
  match n with
  | O => EmptyString
  | S n' => match s with
            | EmptyString => EmptyString
            | String c s' => String c (slice0 n' s')
            end
  end.

(** [s.includes(sub)] *)
Fixpoint includes (sub s : string) : bool :=
  startsWith sub s ||
  match s with
  | EmptyString => false
  | String _ s' => includes sub s'
  end.

(** [parts.join(sep)] *)
Definition join (sep : string) (parts : list string) : string :=
  String.concat sep parts.

(** White space of [parseInt], [trim] and the regular-expression class
    [\s], restricted to code units below 256: TAB, LF, VT, FF, CR, SP,
    NBSP. *)
Definition isWhiteSpace (c : ascii) : bool :=
  let n := nat_of_ascii c in
  ((9 <=? n) && (n <=? 13)) || (n =? 32) || (n =? 160).

Fixpoint trimStart (s : string) : string :=
  match s with
  | EmptyString => EmptyString
  | String c s' => if isWhiteSpace c then trimStart s' else s
  end.

(** [trimEnd], written as a right-to-left pass: a unit is dropped when it is
    white space and everything after it has been dropped too. *)
Fixpoint trimEnd (s : string) : string :=
  match s with
  | EmptyString => EmptyString
  | String c s' =>
      match trimEnd s' with
      | EmptyString => if isWhiteSpace c then EmptyString
                       else String c EmptyString
      | t => String c t
      end
  end.

(** [s.trim()] *)
Definition trim (s : string) : string := trimEnd (trimStart s).

(** [c.toLowerCase()] on one code unit below 256 (ASCII and Latin-1
    capitals; the multiplication sign 215 is not a letter). *)
Definition lowerChar (c : ascii) : ascii :=
  let n := nat_of_ascii c in
  if ((65 <=? n) && (n <=? 90))
     || ((192 <=? n) && (n <=? 222) && negb (n =? 215))
  then ascii_of_nat (n + 32) else c.

(** [s.toLowerCase()] *)
Fixpoint toLowerCase (s : string) : string :=
  match s with
  | EmptyString => EmptyString
  | String c s' => String (lowerChar c) (toLowerCase s')
  end.

(** Truthiness of an optional string: [undefined] and the empty string are
    falsy. *)
Definition truthy (o : option string) : bool :=
  match o with
  | Some (String _ _) => true
  | _ => false
  end.

(** Value of a code unit as a digit in some radix up to 36. *)
Definition digitValue (c : ascii) : option Z :=
  let n := nat_of_ascii c in
  if (48 <=? n) && (n <=? 57) then Some (Z.of_nat (n - 48))
  else if (97 <=? n) && (n <=? 122) then Some (Z.of_nat (n - 87))
  else if (65 <=? n) && (n <=? 90) then Some (Z.of_nat (n - 55))
  else None.

(** The longest prefix of [s] made of radix-[R] digits, as digit values. *)
Fixpoint radixDigits (R : Z) (s : string) : list Z :=
  match s with
  | EmptyString => []
  | String c s' =>
      match digitValue c with
      | Some d => if (d <? R)%Z then d :: radixDigits R s' else []
      | None => []
      end
  end.

Definition mathInt (R : Z) (ds : list Z) : Z :=
  fold_left (fun acc d => (acc * R + d)%Z) ds 0%Z.

(** [parseInt(s, radix)] following ECMA-262: leading white space, an
    optional sign, the [0x] prefix when the radix is 16 (or 0), then the
    longest run of digits; [None] is [NaN]. *)
Definition parseInt (s : string) (radix : Z) : option Z :=
  let S0 := trimStart s in
  let '(sign, S1) :=
    match S0 with
    | String "-" r => ((-1)%Z, r)
    | String "+" r => (1%Z, r)
    | _ => (1%Z, S0)
    end in
  if (negb (radix =? 0)%Z) && ((radix <? 2)%Z || (36 <? radix)%Z) then None
  else
    let stripPrefix := (radix =? 0)%Z || (radix =? 16)%Z in
    let R0 := if (radix =? 0)%Z then 10%Z else radix in
    let '(R, S2) :=
      if stripPrefix && (startsWith "0x" S1 || startsWith "0X" S1)
      then (16%Z, substring 2 S1) else (R0, S1) in
    match radixDigits R S2 with
    | [] => None
    | ds => Some (sign * mathInt R ds)%Z
    end.

(** Template-literal conversion of an integer-valued number. *)
Definition numberToString (z : Z) : string :=
  NilZero.string_of_int (Z.to_int z).

(** The integers every IEEE double represents exactly. *)
Definition safeInteger (z : Z) : Prop := (Z.abs z <= 2 ^ 53)%Z.

End Js.

(* ===================================================================== *)
(** ** Diagnostics handed to the validation acceptor                       *)
(* ===================================================================== *)

(** What [accept] receives: severity, message, node and property. *)
Inductive Severity := error_ | warning_ | info_ | hint_.

Record Diagnostic (N : Type) := mkDiag {
  severity : Severity;
  message : string;
  node : N;
  property : option string
}.
Arguments mkDiag {N}.
Arguments severity {N}.
Arguments message {N}.
Arguments node {N}.
Arguments property {N}.

(* ===================================================================== *)
(** ** validation/helpers/multiplicity-checker                            *)
(* ===================================================================== *)

Module Multiplicity.

(** Sentinel value representing an unbounded upper multiplicity. *)
Definition UNBOUNDED : Z := (-1)%Z.

Definition parseMultiplicityBound (bound : string) : option Z :=
  if String.eqb bound "*" then Some UNBOUNDED
  else
    let lowerBound := Js.toLowerCase bound in
    if Js.startsWith "0x" lowerBound then Js.parseInt (Js.substring 2 bound) 16
    else if Js.startsWith "0b" lowerBound then Js.parseInt (Js.substring 2 bound) 2
    else if Js.startsWith "0o" lowerBound then Js.parseInt (Js.substring 2 bound) 8
    else Js.parseInt bound 10.

Definition isUnbounded (value : Z) : bool := (value =? UNBOUNDED)%Z.

Record MultiplicityValidationResult := mkResult {
  isValid : bool;
  error : option string;
  errorProperty : option string
}.

(** [lowerBound ? parseMultiplicityBound(lowerBound) : 0] *)
Definition lowerValue (lowerBound : option string) : option Z :=
  match lowerBound with
  | Some (String c r) => parseMultiplicityBound (String c r)
  | _ => Some 0%Z
  end.

Definition validateMultiplicityBounds
    (lowerBound : option string) (upperBound : string)
  : MultiplicityValidationResult :=
  let lowerVal := lowerValue lowerBound in
  let upperVal := parseMultiplicityBound upperBound in
  (* Check for invalid lower bound *)
  if match lowerVal with
     | Some l => (l <? 0)%Z && negb (isUnbounded l)
     | None => false
     end
  then mkResult false (Some "Lower bound cannot be negative")
                (Some "lowerBound")
  else
    (* Check bounds order (only if both are valid numbers and upper is not
       unbounded) *)
    match lowerVal, upperVal with
    | Some l, Some u =>
        if negb (isUnbounded u) && (l >? u)%Z then
          mkResult false
            (Some ("Lower bound (" ++ Js.numberToString l
                   ++ ") cannot be greater than upper bound ("
                   ++ Js.numberToString u ++ ")"))
            None
        else mkResult true None None
    | _, _ => mkResult true None None
    end.

(** The [MultiplicityBounds] node: bounds kept as lexemes. *)
Record MultiplicityBounds := mkBounds {
  lowerBound : option string;
  upperBound : string
}.

(** [SysMLValidator.checkMultiplicity]: the diagnostics passed to
    [accept], in order. *)
Definition checkMultiplicity (mult : MultiplicityBounds)
  : list (Diagnostic MultiplicityBounds) :=
  let result := validateMultiplicityBounds (lowerBound mult) (upperBound mult) in
  if negb (isValid result) && Js.truthy (error result)
  then [mkDiag error_
               (match error result with Some e => e | None => "" end)
               mult (errorProperty result)]
  else [].

End Multiplicity.

(* ===================================================================== *)
(** ** The abstract syntax tree                                           *)
(* ===================================================================== *)

Module Ast.

(** [QualifiedName(names)]: a sequence of name parts. *)
Record QualifiedName := mkQualifiedName {
  names : option (list string)
}.

(** An AST node as the sources see it: a JavaScript object with a [$type]
    tag and the optional properties that the scope engine and the validator
    read.  A property a node does not have is [None] ([false] for flags). *)
#[local] Unset Elimination Schemes.
Inductive AstNode := mkNode {
  type_ : string;                              (* $type *)
  name : option string;
  visibility : option string;
  element : option AstNode;
  elements : option (list AstNode);
  namespaceElements : option (list AstNode);
  body : option AstNode;
  isAbstract : bool;
  specializations : option (list QualifiedName);
  featureTypes : option (list QualifiedName);
  valueComputed : bool;
  valueExpression : bool;                      (* is the property present *)
  cstText : option string                      (* $cstNode?.text *)
}.
#[local] Set Elimination Schemes.

(** Modelled from the spec: the type guards of [language/generated/ast.js]
    are not part of the sources; a guard holds for the nodes that carry its
    tag (section 3 of the specification lists the node kinds as a closed set
    of tags). *)
Definition isInstance (tag : string) (n : AstNode) : bool :=
  String.eqb (type_ n) tag.

Definition isRootNamespace := isInstance "RootNamespace".
Definition isPackageBody := isInstance "PackageBody".
Definition isOwningMembership := isInstance "OwningMembership".
Definition isTypeBodyRule := isInstance "TypeBodyRule".
Definition isFeatureBodyRule := isInstance "FeatureBodyRule".

(** [utils/element-utils]: [getElementName(element)] is [element.name]. *)
Definition getElementName (element : AstNode) : option string := name element.

(** Some node shapes the parser produces. *)
Definition rootNamespace (members : list AstNode) : AstNode :=
  mkNode "RootNamespace" None None None None (Some members) None false None
         None false false None.

Definition owningMembership (vis : option string) (e : AstNode) : AstNode :=
  mkNode "OwningMembership" None vis (Some e) None None None false None None
         false false None.

Definition package (n : option string) (members : list AstNode) : AstNode :=
  mkNode "PackageBody" n None None (Some members) None None false None None
         false false None.

Definition definition (tag : string) (n : option string)
    (specs : list QualifiedName) : AstNode :=
  mkNode tag n None None None None None false (Some specs) None false false
         None.

Definition partDefinition := definition "PartDefinition".

Definition qn (parts : list string) : QualifiedName :=
  mkQualifiedName (Some parts).

(** One step of an AST node path ([AstNodeLocator]): a property, with the
    index for array properties. *)
Inductive Step :=
| namespaceElementsAt (i : nat)
| elementsAt (i : nat)
| elementProp
| bodyProp.

Abbreviation Path := (list Step).

Definition child (n : AstNode) (s : Step) : option AstNode :=
  match s with
  | namespaceElementsAt i =>
      match namespaceElements n with
      | Some l => nth_error l i
      | None => None
      end
  | elementsAt i =>
      match elements n with
      | Some l => nth_error l i
      | None => None
      end
  | elementProp => element n
  | bodyProp => body n
  end.

(** The node a path leads to, from a given node. *)
Fixpoint getAt (n : AstNode) (p : Path) : option AstNode :=
  match p with
  | [] => Some n
  | s :: rest =>
      match child n s with
      | Some c => getAt c rest
      | None => None
      end
  end.

End Ast.

(* ===================================================================== *)
(** ** validation/helpers/duplicate-checker                               *)
(* ===================================================================== *)

Module Duplicates.
Import Ast.

(** A JavaScript [Map] keyed by strings: entries in insertion order;
    [set] on a present key replaces the value in place. *)
Definition JsMap (V : Type) := list (string * V).

Fixpoint mapGet {V} (m : JsMap V) (k : string) : option V :=
  match m with
  | [] => None
  | (k', v) :: rest => if String.eqb k' k then Some v else mapGet rest k
  end.

Fixpoint mapSet {V} (m : JsMap V) (k : string) (v : V) : JsMap V :=
  match m with
  | [] => [(k, v)]
  | (k', v') :: rest =>
      if String.eqb k' k then (k', v) :: rest
      else (k', v') :: mapSet rest k v
  end.

Record DuplicateCheckResult := mkDuplicateCheckResult {
  duplicates : JsMap (list AstNode);
  nameCounts : JsMap nat
}.

Section FindDuplicates.
Variable getName : AstNode -> option string.

(** The first loop of [findDuplicateNames]: one step per element, on the
    pair of maps [(nameCounts, elementsByName)]. *)
Definition collectStep (st : JsMap nat * JsMap (list AstNode))
    (element : AstNode) : JsMap nat * JsMap (list AstNode) :=
  let '(nameCounts, elementsByName) := st in
  match getName element with
  | Some (String c r) =>
      let name := String c r in
      let nameCounts' :=
        mapSet nameCounts name
               (match mapGet nameCounts name with Some k => k | None => 0 end
                + 1) in
      let existing :=
        match mapGet elementsByName name with Some l => l | None => [] end in
      (nameCounts', mapSet elementsByName name (existing ++ [element])%list)
  | _ => st
  end.

Definition findDuplicateNames (elements : list AstNode)
  : DuplicateCheckResult :=
  let '(nameCounts, elementsByName) :=
    fold_left collectStep elements ([], []) in
  (* Filter to only duplicates (count > 1) *)
  let duplicates :=
    filter (fun kv => 1 <? List.length (snd kv)) elementsByName in
  mkDuplicateCheckResult duplicates nameCounts.

End FindDuplicates.

Record ReportDuplicatesOptions := mkOptions {
  reportAll : option bool;
  contextName : option string;
  propertyOpt : option string
}.

(** [reportDuplicates]: the calls to [accept], in order. *)
Definition reportDuplicates (result : DuplicateCheckResult)
    (options : ReportDuplicatesOptions) : list (Diagnostic AstNode) :=
  let reportAll := match reportAll options with Some b => b | None => true end in
  let contextName := contextName options in
  let property := match propertyOpt options with Some p => p | None => "name" end in
  flat_map
    (fun kv =>
       let name := fst kv in
       let elements := snd kv in
       let message :=
         match contextName with
         | Some (String c r) =>
             "Duplicate element name '" ++ name ++ "' in " ++ String c r
         | _ => "Duplicate element name: '" ++ name ++ "'"
         end in
       if reportAll then
         (* Report on all instances *)
         map (fun element => mkDiag error_ message element (Some property))
             elements
       else
         (* Report only on the first instance *)
         match elements with
         | first :: _ => [mkDiag error_ message first (Some property)]
         | [] => []
         end)
    (duplicates result).

Definition checkAndReportDuplicates (elements : list AstNode)
    (options : ReportDuplicatesOptions) : list (Diagnostic AstNode) :=
  let result := findDuplicateNames getElementName elements in
  reportDuplicates result options.

End Duplicates.

(* ===================================================================== *)
(** ** validation/helpers/specialization-checker                          *)
(* ===================================================================== *)

Module Specialization.
Import Ast.

(** [checkCircularSpecialization(node, specializations, selfName, accept,
    elementType = 'Part definition')]: the calls to [accept], in order. *)
Definition checkCircularSpecialization (node : AstNode)
    (specializations : option (list QualifiedName))
    (selfName : option string) (elementType : option string)
  : list (Diagnostic AstNode) :=
  let elementType :=
    match elementType with Some t => t | None => "Part definition" end in
  match specializations, selfName with
  | Some specs, Some (String c r) =>
      let selfName := String c r in
      flat_map
        (fun spec =>
           (* Check if single-part qualified name matches self *)
           match names spec with
           | Some [single] =>
               if String.eqb single selfName then
                 [mkDiag error_
                    (elementType ++ " '" ++ selfName
                       ++ "' cannot specialize itself")
                    node (Some "specializations")]
               else []
           | _ => []
           end)
        specs
  | _, _ => []
  end.

End Specialization.

(* ===================================================================== *)
(** ** validation/validator.ts                                            *)
(* ===================================================================== *)

Module Validator.
Import Ast Duplicates Specialization.

(** Extract inner elements from OwningMembership wrappers. *)
Definition extractInnerElements (elements : list AstNode) : list AstNode :=
  flat_map
    (fun el =>
       if isOwningMembership el then
         match element el with
         | Some inner => [inner]
         | None => []
         end
       else [])
    elements.

Definition orEmpty {A} (o : option (list A)) : list A :=
  match o with Some l => l | None => [] end.

(** Check root namespace for duplicate top-level names. *)
Definition checkRootNamespace (root : AstNode) : list (Diagnostic AstNode) :=
  let elements := extractInnerElements (orEmpty (namespaceElements root)) in
  checkAndReportDuplicates elements (mkOptions (Some true) None None).

(** Check package body for duplicate member names. *)
Definition checkPackageBody (pkg : AstNode) : list (Diagnostic AstNode) :=
  let pkgName := match name pkg with Some n => n | None => "<anonymous>" end in
  let elements := extractInnerElements (orEmpty (elements pkg)) in
  checkAndReportDuplicates elements
    (mkOptions (Some false) (Some ("package '" ++ pkgName ++ "'")) None).

(** The regular expression [/^\s*abstract\s/] on the node text. *)
Definition startsWithAbstract (text : string) : bool :=
  let rest := Js.trimStart text in
  Js.startsWith "abstract" rest &&
  match Js.substring 8 rest with
  | String c _ => Js.isWhiteSpace c
  | EmptyString => false
  end.

(** Check part definition for valid structure. *)
Definition checkPartDefinition (def : AstNode) : list (Diagnostic AstNode) :=
  (* Skip if this is actually a TypeBodyRule *)
  if negb (String.eqb (type_ def) "PartDefinition") then []
  else
    (if isAbstract def then
       let hasNoMembers :=
         match body def with
         | None => true
         | Some b => Nat.eqb (List.length (orEmpty (elements b))) 0
         end in
       if hasNoMembers && Js.truthy (name def) then
         [mkDiag hint_
            ("Abstract part definition '"
               ++ match name def with Some n => n | None => "" end
               ++ "' has no members")
            def (Some "name")]
       else []
     else [])
    ++ checkCircularSpecialization def (specializations def) (name def) None.

(** Check TypeBodyRule nodes: definitions with a braced body. *)
Definition checkTypeBodyRule (bodyRule : AstNode)
  : list (Diagnostic AstNode) :=
  let cstText := match cstText bodyRule with Some t => t | None => "" end in
  let isAbstractFromCst := startsWithAbstract cstText in
  let hasNoMembers := Nat.eqb (List.length (orEmpty (elements bodyRule))) 0 in
  (if (isAbstract bodyRule || isAbstractFromCst) && hasNoMembers then
     [mkDiag hint_
        ("Abstract part definition '"
           ++ match name bodyRule with Some n => n | None => "<anonymous>" end
           ++ "' has no members")
        bodyRule (Some "name")]
   else [])
  ++ checkCircularSpecialization bodyRule (specializations bodyRule)
       (name bodyRule) None.

(** Validation of FeatureBodyRule nodes is handled by parent usage rules. *)
Definition checkFeatureBodyRule (_bodyRule : AstNode)
  : list (Diagnostic AstNode) := [].

(** Check part usage for required typing. *)
Definition checkPartUsage (usage : AstNode) : list (Diagnostic AstNode) :=
  if negb (String.eqb (type_ usage) "PartUsage") then []
  else
    match featureTypes usage with
    | Some (_ :: _) => []
    | _ =>
        if Js.truthy (name usage) then
          [mkDiag hint_
             ("Part '" ++ match name usage with Some n => n | None => "" end
                ++ "' has no explicit type")
             usage (Some "name")]
        else []
    end.

(** Attribute definitions: informational for now. *)
Definition checkAttributeDefinition (_def : AstNode)
  : list (Diagnostic AstNode) := [].

(** Check attribute usage. *)
Definition checkAttributeUsage (usage : AstNode)
  : list (Diagnostic AstNode) :=
  if valueComputed usage && negb (valueExpression usage) then
    [mkDiag error_
       ("Computed attribute '"
          ++ match name usage with Some n => n | None => "<anonymous>" end
          ++ "' requires a value expression")
       usage (Some "valueComputed")]
  else [].

(** Check qualified name references. *)
Definition checkQualifiedName (qn : QualifiedName)
  : list (Diagnostic QualifiedName) :=
  match names qn with
  | Some (_ :: _) => []
  | _ => [mkDiag error_ "Qualified name must have at least one part" qn None]
  end.

(** A registered check takes the node of its type: most take an [AstNode],
    [checkMultiplicity] a [MultiplicityBounds] node, and
    [checkQualifiedName] a [QualifiedName] node. *)
Inductive Check :=
| nodeCheck (check : AstNode -> list (Diagnostic AstNode))
| multiplicityCheck
    (check : Multiplicity.MultiplicityBounds
             -> list (Diagnostic Multiplicity.MultiplicityBounds))
| qualifiedNameCheck
    (check : QualifiedName -> list (Diagnostic QualifiedName)).

(** [registerValidationChecks]: the table from node type to check. *)
Definition checks : list (string * Check) :=
  [ ("RootNamespace", nodeCheck checkRootNamespace);
    ("PackageBody", nodeCheck checkPackageBody);
    ("PartDefinition", nodeCheck checkPartDefinition);
    ("TypeBodyRule", nodeCheck checkTypeBodyRule);
    ("PartUsage", nodeCheck checkPartUsage);
    ("FeatureBodyRule", nodeCheck checkFeatureBodyRule);
    ("AttributeDefinition", nodeCheck checkAttributeDefinition);
    ("AttributeUsage", nodeCheck checkAttributeUsage);
    ("MultiplicityBounds", multiplicityCheck Multiplicity.checkMultiplicity);
    ("QualifiedName", qualifiedNameCheck checkQualifiedName) ].

(** A check run on a node of each of the three kinds; a check for a node
    of another kind does not apply. *)
Definition runOnNode (n : AstNode) (c : Check) : list (Diagnostic AstNode) :=
  match c with
  | nodeCheck check => check n
  | _ => []
  end.

Definition runOnMultiplicity (m : Multiplicity.MultiplicityBounds)
    (c : Check) : list (Diagnostic Multiplicity.MultiplicityBounds) :=
  match c with
  | multiplicityCheck check => check m
  | _ => []
  end.

Definition runOnQualifiedName (q : QualifiedName) (c : Check)
  : list (Diagnostic QualifiedName) :=
  match c with
  | qualifiedNameCheck check => check q
  | _ => []
  end.

(** The checks registered for a node type, each run by [run]. *)
Definition dispatch {N : Type} (run : Check -> list (Diagnostic N))
    (nodeType : string) : list (Diagnostic N) :=
  flat_map (fun entry => if String.eqb (fst entry) nodeType
                         then run (snd entry) else [])
           checks.

(** Validation of a node, as the registry of the framework dispatches it:
    the checks registered for the type of the node run on it, and each
    emits zero or more diagnostics.  A [MultiplicityBounds] node and a
    [QualifiedName] node carry the type of their kind. *)
Definition validateNode (n : AstNode) : list (Diagnostic AstNode) :=
  dispatch (runOnNode n) (type_ n).

Definition validateMultiplicityNode (m : Multiplicity.MultiplicityBounds)
  : list (Diagnostic Multiplicity.MultiplicityBounds) :=
  dispatch (runOnMultiplicity m) "MultiplicityBounds".

Definition validateQualifiedNameNode (q : QualifiedName)
  : list (Diagnostic QualifiedName) :=
  dispatch (runOnQualifiedName q) "QualifiedName".

End Validator.

(* ===================================================================== *)
(** ** utils/parser-utils.ts                                              *)
(* ===================================================================== *)

Module ParserUtils.

Definition LF : ascii := ascii_of_nat 10.
Definition DQUOTE : ascii := ascii_of_nat 34.

Fixpoint takeWhile (p : ascii -> bool) (s : string) : string :=
  match s with
  | EmptyString => EmptyString
  | String c r => if p c then String c (takeWhile p r) else EmptyString
  end.

Fixpoint dropWhile (p : ascii -> bool) (s : string) : string :=
  match s with
  | EmptyString => EmptyString
  | String c r => if p c then dropWhile p r else s
  end.

(** The regular expression [/^Expecting[^:]*:/]: the text starts with
    [Expecting] and a colon follows somewhere. *)
Definition expectingMatch (message : string) : bool :=
  Js.startsWith "Expecting" message && Js.includes ":" (Js.substring 9 message).

Definition isQuote (c : ascii) : bool :=
  Ascii.eqb c "'" || Ascii.eqb c DQUOTE.

(** The negated class of the found-token group: anything but a quote, a
    double quote, a closing brace or a line feed. *)
Definition isTokenChar (c : ascii) : bool :=
  negb (isQuote c || Ascii.eqb c "}" || Ascii.eqb c LF).

(** The found-token group at the start of [s]: greedy, at least one
    unit. *)
Definition tokenGroup (s : string) : option string :=
  match takeWhile isTokenChar s with
  | EmptyString => None
  | g => Some g
  end.

(** An optional quote and the group, at the start of [s].  When the
    optional quote is skipped although present, the group would have to
    start on the quote, which it excludes. *)
Definition quoteThenGroup (s : string) : option string :=
  match s with
  | String q r => if isQuote q then tokenGroup r else tokenGroup s
  | EmptyString => None
  end.

(** White space, the optional quote and the group, at the start of [s],
    with the backtracking of the greedy white-space run: the longest run is
    tried first, then shorter ones. *)
Fixpoint spacesThenGroup (s : string) : option string :=
  match s with
  | String c r =>
      if Js.isWhiteSpace c then
        match spacesThenGroup r with
        | Some g => Some g
        | None => quoteThenGroup s
        end
      else quoteThenGroup s
  | EmptyString => None
  end.

(** The first group of the leftmost match of the case-insensitive
    but-found regular expression: the words [but found:], white space, an
    optional quote, the group, an optional quote. *)
Fixpoint butFoundMatch (s : string) : option string :=
  match
    (if Js.startsWith "but found:" (Js.toLowerCase s)
     then spacesThenGroup (Js.substring 10 s) else None)
  with
  | Some g => Some g
  | None =>
      match s with
      | String _ r => butFoundMatch r
      | EmptyString => None
      end
  end.

Definition isDigit (c : ascii) : bool :=
  let n := nat_of_ascii c in (48 <=? n) && (n <=? 57).

(** [/\d+\.\s*\[([^\]]+)\]/] at the start of [s]: the group and the length
    of the match.  Each quantified class is followed by a unit outside the
    class, so no backtracking yields another match. *)
Definition altMatchAt (s : string) : option (string * nat) :=
  let digits := takeWhile isDigit s in
  match digits, dropWhile isDigit s with
  | String _ _, String "." r1 =>
      let spaces := takeWhile Js.isWhiteSpace r1 in
      match dropWhile Js.isWhiteSpace r1 with
      | String "[" r2 =>
          let notClose := fun c => negb (Ascii.eqb c "]") in
          let group := takeWhile notClose r2 in
          match group, dropWhile notClose r2 with
          | String _ _, String _ _ =>
              Some (group,
                    String.length digits + 1 + String.length spaces + 1
                    + String.length group + 1)
          | _, _ => None
          end
      | _ => None
      end
  | _, _ => None
  end.

(** Leftmost match in [s], which starts at offset [pos] of the message. *)
Fixpoint altSearch (s : string) (pos : nat) : option (string * nat) :=
  match altMatchAt s with
  | Some (g, len) => Some (g, pos + len)
  | None =>
      match s with
      | String _ r => altSearch r (S pos)
      | EmptyString => None
      end
  end.

(** [altRegex.exec(message)] for the global regular expression: the search
    starts at [lastIndex]; a match moves [lastIndex] behind it, a failure
    resets it to 0.  The result is the group and the new [lastIndex]. *)
Definition altExec (message : string) (lastIndex : nat)
  : option string * nat :=
  match altSearch (Js.substring lastIndex message) lastIndex with
  | Some (g, e) => (Some g, e)
  | None => (None, 0)
  end.

(** The loop
    [while ((match = altRegex.exec(message)) && alternatives.length < 5)]:
    [room] is [5 - alternatives.length], so the second conjunct holds when
    [room] is not zero; [exec] runs before it is tested. *)
Fixpoint collectAlternatives (room : nat) (message : string)
    (lastIndex : nat) (alternatives : list string) : list string * nat :=
  match altExec message lastIndex with
  | (Some g, lastIndex') =>
      match room with
      | S room' =>
          collectAlternatives room' message lastIndex'
                              (alternatives ++ [g])%list
      | O => (alternatives, lastIndex')
      end
  | (None, lastIndex') => (alternatives, lastIndex')
  end.

(** Simplify verbose Chevrotain error messages by truncating long lists of
    expected alternatives. *)
Definition simplifyParserError (message : string) : string :=
  if negb (expectingMatch message) then message
  else
    let foundToken :=
      match butFoundMatch message with
      | Some g => match Js.trim g with
                  | EmptyString => "unexpected token"
                  | t => t
                  end
      | None => "unexpected token"
      end in
    (* Extract first few alternatives *)
    let '(alternatives, lastIndex) := collectAlternatives 5 message 0 [] in
    if 0 <? List.length alternatives then
      let hasMore :=
        match fst (altExec message lastIndex) with
        | Some _ => true
        | None => false
        end in
      "Unexpected '" ++ foundToken ++ "'. Expected: "
        ++ Js.join ", " alternatives ++ (if hasMore then ", ..." else "")
    else
      (* Fallback: truncate if too long *)
      if 200 <? Js.length message then Js.slice0 200 message ++ "..."
      else message.

(** A language-server diagnostic: severity 1 (Error), 2 (Warning),
    3 (Information) or 4 (Hint), possibly absent. *)
Record LspDiagnostic := mkLspDiagnostic {
  lspSeverity : option nat;
  lspMessage : string
}.

Record ValidationResult := mkValidationResult {
  diagnostics : list LspDiagnostic;
  errors : list LspDiagnostic;
  warnings : list LspDiagnostic;
  hints : list LspDiagnostic;
  isValid : bool
}.

Definition hasSeverity (k : nat) (d : LspDiagnostic) : bool :=
  match lspSeverity d with
  | Some s => Nat.eqb s k
  | None => false
  end.

(** [validateDocument], from the point where the document has been built:
    [documentDiagnostics] is [document.diagnostics]. *)
Definition validateDocument (documentDiagnostics : option (list LspDiagnostic))
  : ValidationResult :=
  (* Extract diagnostics and simplify verbose parser error messages *)
  let diagnostics :=
    map (fun d => mkLspDiagnostic (lspSeverity d)
                                  (simplifyParserError (lspMessage d)))
        (match documentDiagnostics with Some l => l | None => [] end) in
  mkValidationResult
    diagnostics
    (filter (hasSeverity 1) diagnostics)
    (filter (hasSeverity 2) diagnostics)
    (filter (fun d => hasSeverity 3 d || hasSeverity 4 d) diagnostics)
    (negb (existsb (hasSeverity 1) diagnostics)).

End ParserUtils.

(* ===================================================================== *)
(** ** language/scope-computation.ts                                      *)
(* ===================================================================== *)

Module ScopeComputation.
Import Ast.

(** A document: its URI and the root of its parse result. *)
Record LangiumDocument := mkDocument {
  uri : string;
  root : AstNode
}.

(** An entry of the index: a name, and the node it stands for, given by its
    type, its document and its path in the document. *)
Record AstNodeDescription := mkDescription {
  descName : string;
  descType : string;
  documentUri : string;
  path : Path
}.

(** [this.descriptions.createDescription(element, name, document)];
    [here] is the path of [element], which the framework's node locator
    computes from the container links. *)
Definition createDescription (document : LangiumDocument)
    (element : AstNode) (name : string) (here : Path) : AstNodeDescription :=
  mkDescription name (type_ element) (uri document) here.

(** A [for ... of] loop over an array whose body appends to a shared array:
    the appended entries in order; the body receives the element's index,
    from which its path is formed. *)
Fixpoint forEachIndexed {A B : Type} (f : nat -> A -> list B) (i : nat)
    (l : list A) : list B :=
  match l with
  | [] => []
  | x :: rest => f i x ++ forEachIndexed f (S i) rest
  end.

Definition isHidden (visibility : option string) : bool :=
  match visibility with
  | Some v => String.eqb v "private" || String.eqb v "protected"
  | None => false
  end.

Section Exports.
Variable document : LangiumDocument.

(** The three procedures of the export traversal call each other in a
    cycle; [processDefinitionOrUsage] is the recursive knot, the other two
    are written over the procedure they call ([recur]).  The shared
    [exports] array is only ever pushed to: each procedure is given by the
    entries it appends, in order. *)
Definition Visit := AstNode -> Path -> list string -> list AstNodeDescription.

(** Process a namespace element for exports, building qualified names. *)
Definition processNamespaceElementWith (recur : Visit) : Visit :=
  fun element here qualifiedNameParts =>
    if isOwningMembership element then
      (* Only export public and default (no visibility specified) elements *)
      if isHidden (visibility element) then []
      else
        match Ast.element element with
        | Some innerElement =>
            recur innerElement (here ++ [elementProp])%list qualifiedNameParts
        | None => []
        end
    else [].

(** Process nested elements within a container. *)
Definition processNestedElementsWith (recur : Visit) : Visit :=
  fun container here qualifiedNameParts =>
    (* PackageBody has elements directly (an array, by the node type) *)
    if isPackageBody container then
      match elements container with
      | Some l =>
          forEachIndexed
            (fun i element =>
               processNamespaceElementWith recur element
                 (here ++ [elementsAt i])%list qualifiedNameParts)
            0 l
      | None => []
      end
    (* TypeBodyRule and FeatureBodyRule have elements directly *)
    else if isTypeBodyRule container || isFeatureBodyRule container then
      match elements container with
      | Some l =>
          forEachIndexed
            (fun i element =>
               if isOwningMembership element then
                 processNamespaceElementWith recur element
                   (here ++ [elementsAt i])%list qualifiedNameParts
               else [])
            0 l
      | None => []
      end
    else
      (* Check for elements directly on the container (for other cases) *)
      match elements container with
      | Some l =>
          forEachIndexed
            (fun i element =>
               if isOwningMembership element then
                 processNamespaceElementWith recur element
                   (here ++ [elementsAt i])%list qualifiedNameParts
               else [])
            0 l
      | None => []
      end.

(** Process a definition or usage element. *)
Fixpoint processDefinitionOrUsage (element : AstNode) (here : Path)
    (qualifiedNameParts : list string) {struct element}
  : list AstNodeDescription :=
  match getElementName element with
  | Some (String c r) =>
      let name := String c r in
      let newQualifiedParts := (qualifiedNameParts ++ [name])%list in
      let qualifiedName := Js.join "::" newQualifiedParts in
      (* Add this element to exports with both simple and qualified names *)
      [createDescription document element name here]
      ++ (if 0 <? List.length qualifiedNameParts
          then [createDescription document element qualifiedName here]
          else [])
      (* Process nested elements *)
      ++ processNestedElementsWith processDefinitionOrUsage element here
           newQualifiedParts
  | _ => []
  end.

Definition processNamespaceElement : Visit :=
  processNamespaceElementWith processDefinitionOrUsage.

Definition processNestedElements : Visit :=
  processNestedElementsWith processDefinitionOrUsage.

(** Compute exports for a document - these are elements visible from other
    documents. *)
Definition computeExports : list AstNodeDescription :=
  match namespaceElements (root document) with
  | Some l =>
      forEachIndexed
        (fun i element =>
           processNamespaceElement element [namespaceElementsAt i] [])
        0 l
  | None => []
  end.

End Exports.

Section LocalScopes.
Variable document : LangiumDocument.

(** The [MultiMap] of local scopes: pairs of a container (its path) and a
    description, in insertion order. *)
Definition PrecomputedScopes := list (Path * AstNodeDescription).

(** Process elements for local scopes.  [filtered] tells that the array went
    through [filter(isOwningMembership)] before the loop; the loop is
    written over the unfiltered array so that each element keeps its index.
    [at_] is the array property of the container the elements come from. *)
Definition processLocalScopesWith (recur : AstNode -> Path -> PrecomputedScopes)
    (filtered : bool) (containerPath : Path) (at_ : nat -> Step)
    (elements : list AstNode) : PrecomputedScopes :=
  forEachIndexed
    (fun i element =>
       if negb filtered || isOwningMembership element then
         if isOwningMembership element then
           match Ast.element element with
           | Some innerElement =>
               match getElementName innerElement with
               | Some (String c r) =>
                   let innerPath := (containerPath ++ [at_ i; elementProp])%list in
                   (* Add to the container's scope *)
                   (containerPath,
                    createDescription document innerElement (String c r)
                                      innerPath)
                   (* Process nested scopes *)
                   :: recur innerElement innerPath
               | _ => []
               end
           | None => []
           end
         else []
       else [])
    0 elements.

(** Process nested local scopes. *)
Fixpoint processNestedLocalScopes (container : AstNode) (here : Path)
    {struct container} : PrecomputedScopes :=
  (* PackageBody has elements directly *)
  if isPackageBody container then
    match elements container with
    | Some l =>
        processLocalScopesWith processNestedLocalScopes false here elementsAt l
    | None => []
    end
  (* TypeBodyRule and FeatureBodyRule have elements directly *)
  else if isTypeBodyRule container || isFeatureBodyRule container then
    match elements container with
    | Some l =>
        processLocalScopesWith processNestedLocalScopes true here elementsAt l
    | None => []
    end
  else
    (* Check for elements directly on the container (for other cases) *)
    match elements container with
    | Some l =>
        processLocalScopesWith processNestedLocalScopes true here elementsAt l
    | None => []
    end.

Definition processLocalScopes :=
  processLocalScopesWith processNestedLocalScopes.

(** Compute local scopes within a document. *)
Definition computeLocalScopes : PrecomputedScopes :=
  match namespaceElements (root document) with
  | Some l => processLocalScopes false [] namespaceElementsAt l
  | None => []
  end.

End LocalScopes.

End ScopeComputation.

(* ===================================================================== *)
(** ** language/scope-provider.ts                                         *)
(* ===================================================================== *)

Module ScopeProvider.
Import Ast ScopeComputation.

(** A scope as [createScope] builds it from a list of descriptions: a
    stream of descriptions without outer scope; [getElement] returns the
    first description that carries the name. *)
Definition Scope := list AstNodeDescription.

Definition createScope (descriptions : list AstNodeDescription) : Scope :=
  descriptions.

Definition EMPTY_SCOPE : Scope := [].

Definition getElement (scope : Scope) (name : string)
  : option AstNodeDescription :=
  find (fun d => String.eqb (descName d) name) scope.

(** The reference under resolution: [container] is a [QualifiedName] node,
    given by its [names] and by the path of the node that owns it;
    [index] is the position of the part within [names]. *)
Record ReferenceInfo := mkReferenceInfo {
  names : list string;
  owner : Path;
  index : option nat
}.

(** A visible name with its node (the node and its path). *)
Record LocalDescription := mkLocal {
  localName : string;
  localNode : AstNode;
  localPath : Path
}.

Section Provider.
(** [this.indexManager.allElements()]: the exports of all documents known
    to the workspace. *)
Variable allElements : list AstNodeDescription.
Variable document : LangiumDocument.

(** Collect visible names from a scope container; [here] is the path of
    [container]. *)
Definition collectVisibleNames (container : AstNode) (here : Path)
  : list LocalDescription :=
  let collect (at_ : nat -> Step) (members : list AstNode) :=
    forEachIndexed
      (fun i element =>
         if isOwningMembership element then
           match Ast.element element with
           | Some inner =>
               match getElementName inner with
               | Some (String c r) =>
                   [mkLocal (String c r) inner
                            (here ++ [at_ i; elementProp])%list]
               | _ => []
               end
           | None => []
           end
         else [])
      0 members in
  match isRootNamespace container, namespaceElements container with
  | true, Some l => collect namespaceElementsAt l
  | _, _ =>
      match isPackageBody container, elements container with
      | true, Some l => collect elementsAt l
      | _, _ => []
      end
  end.

(** The nodes met from [n] down along [p], each with its path. *)
Fixpoint chainDown (n : AstNode) (here : Path) (p : Path)
  : list (AstNode * Path) :=
  (n, here) ::
  match p with
  | [] => []
  | s :: rest =>
      match child n s with
      | Some c => chainDown c (here ++ [s])%list rest
      | None => []
      end
  end.

(** Get local scope descriptions for an AST node: the walk up the
    [$container] links, from the node to the root.  The walk starts at the
    [QualifiedName] node, which is neither a root nor a package, so the
    first container that contributes is met from its owner on. *)
Definition getLocalScopeDescriptions (node : Path) : list LocalDescription :=
  flat_map (fun np => collectVisibleNames (fst np) (snd np))
           (rev (chainDown (root document) [] node)).

(** Get the initial scope for the first part of a qualified name. *)
Definition getInitialScope (context : ReferenceInfo) : Scope :=
  let rootNamespace := root document in
  if negb (isRootNamespace rootNamespace) then EMPTY_SCOPE
  else
    (* Collect all visible names *)
    let descriptions := allElements in
    (* Add local scope descriptions *)
    let localScope := getLocalScopeDescriptions (owner context) in
    (* Combine and create scope *)
    let combined :=
      (descriptions
       ++ map (fun local =>
                 mkDescription (localName local) (type_ (localNode local))
                               (uri document) (localPath local))
              localScope)%list in
    createScope combined.

(** Get nested scope for subsequent parts of a qualified name. *)
Definition getNestedScope (previousParts : list string) : Scope :=
  let qualifiedPrefix := Js.join "::" previousParts in
  (* Find all elements that start with this prefix *)
  let descriptions :=
    map (fun desc =>
           (* Return with just the local name *)
           let fullName := descName desc in
           let localName :=
             Js.substring (Js.length qualifiedPrefix + 2) fullName in
           mkDescription localName (descType desc) (documentUri desc)
                         (path desc))
        (filter (fun desc =>
                   let name := descName desc in
                   (* Match elements that are direct children of the
                      namespace *)
                   if Js.startsWith (qualifiedPrefix ++ "::") name then
                     let remainder :=
                       Js.substring (Js.length qualifiedPrefix + 2) name in
                     (* Only direct children (no more :: in the remainder) *)
                     negb (Js.includes "::" remainder)
                   else false)
                allElements) in
  createScope descriptions.

(** Get scope for qualified name resolution. *)
Definition getQualifiedNameScope (context : ReferenceInfo) : Scope :=
  let parts := names context in
  let index := match index context with Some i => i | None => 0 end in
  if Nat.eqb index 0 then
    (* First part - search in current scope and imports *)
    getInitialScope context
  else
    (* Subsequent parts - search within the previously resolved namespace *)
    let previousParts := firstn index parts in
    getNestedScope previousParts.

(** Get the scope for a reference whose container is a qualified name. *)
Definition getScope (context : ReferenceInfo) : Scope :=
  getQualifiedNameScope context.

(** What a part of the qualified name resolves to: the element that the
    scope of the part gives for the text of the part. *)
Definition resolvePart (context : ReferenceInfo) : option AstNodeDescription :=
  let i := match index context with Some i => i | None => 0 end in
  match nth_error (names context) i with
  | Some text => getElement (getScope context) text
  | None => None
  end.

End Provider.

(** Resolution in a workspace that holds the one document. *)
Definition resolveInDocument (document : LangiumDocument)
    (context : ReferenceInfo) : option AstNodeDescription :=
  resolvePart (computeExports document) document context.

End ScopeProvider.

(* ===================================================================== *)
(** ** utils/element-utils                                                *)
(* ===================================================================== *)

Module ElementUtils.
Import Ast Duplicates.

(** Result of extracting named elements from a collection. *)
Record NamedElementEntry := mkEntry {
  entryName : string;
  entryElement : AstNode
}.

Section WithGetName.
Variable getName : AstNode -> option string.

(** Extract elements with names from a collection: the entries pushed, in
    order. *)
Definition extractNamedElements (elements : list AstNode)
  : list NamedElementEntry :=
  flat_map
    (fun element =>
       match getName element with
       | Some (String c r) => [mkEntry (String c r) element]
       | _ => []
       end)
    elements.

(** Count occurrences of each name in a collection of elements. *)
Definition countElementNames (elements : list AstNode) : JsMap nat :=
  fold_left
    (fun counts element =>
       match getName element with
       | Some (String c r) =>
           let name := String c r in
           mapSet counts name
                  (match mapGet counts name with Some k => k | None => 0 end
                   + 1)
       | _ => counts
       end)
    elements [].

End WithGetName.

End ElementUtils.

(* ===================================================================== *)
(** ** cli: diagnostic utilities, reporters and the validate command      *)
(* ===================================================================== *)

Module Cli.

(** A diagnostic of the language server protocol with the fields the
    command line reads: positions are zero-based; [code] is a number or a
    string. *)
Record Position := mkPosition { line : Z; character : Z }.

Record Range := mkRange { start : Position; end_ : Position }.

Inductive Code :=
| codeNumber (z : Z)
| codeString (s : string).

Record Diagnostic := mkDiagnostic {
  severity : option nat;
  message : string;
  range : Range;
  code : option Code
}.

(** The [ValidationResult] of [utils/parser-utils], over these
    diagnostics, and a result with its file. *)
Record ValidationResult := mkValidationResult {
  diagnostics : list Diagnostic;
  errors : list Diagnostic;
  warnings : list Diagnostic;
  hints : list Diagnostic;
  isValid : bool
}.

Record FileResult := mkFileResult {
  file : string;
  absolutePath : string;
  result : ValidationResult
}.

(** *** cli/utils/diagnostic-utils *)

(** Convert severity number to a human-readable string. *)
Definition severityToString (severity : option nat) : string :=
  match severity with
  | Some 1 => "error"
  | Some 2 => "warning"
  | Some 3 => "info"
  | Some 4 => "hint"
  | _ => "error"
  end.

(** Convert severity number to SARIF level. *)
Definition severityToSarifLevel (severity : option nat) : string :=
  match severity with
  | Some 1 => "error"
  | Some 2 => "warning"
  | Some 3 | Some 4 => "note"
  | _ => "none"
  end.

(** *** cli/reporters/json.ts *)

Record JsonDiagnostic := mkJsonDiagnostic {
  jsonSeverity : string;
  jsonMessage : string;
  jsonLine : Z;
  jsonColumn : Z;
  jsonEndLine : Z;
  jsonEndColumn : Z
}.

Record JsonFileResult := mkJsonFileResult {
  jsonFile : string;
  jsonIsValid : bool;
  errorCount : nat;
  warningCount : nat;
  jsonDiagnostics : list JsonDiagnostic
}.

Record JsonSummary := mkJsonSummary {
  totalFiles : nat;
  filesWithErrors : nat;
  totalErrors : nat;
  totalWarnings : nat;
  summaryIsValid : bool
}.

Record JsonOutput := mkJsonOutput {
  summary : JsonSummary;
  files : list JsonFileResult
}.

(** Convert a Langium Diagnostic to our JSON format. *)
Definition convertDiagnostic (diagnostic : Diagnostic) : JsonDiagnostic :=
  mkJsonDiagnostic
    (severityToString (severity diagnostic))
    (message diagnostic)
    (line (start (range diagnostic)) + 1)
    (character (start (range diagnostic)) + 1)
    (line (end_ (range diagnostic)) + 1)
    (character (end_ (range diagnostic)) + 1).

(** The body of the loop of [formatJson]. *)
Definition formatJsonStep (output : JsonOutput) (fr : FileResult)
  : JsonOutput :=
  let result := result fr in
  let fileResult :=
    mkJsonFileResult (file fr) (isValid result)
                     (List.length (errors result))
                     (List.length (warnings result))
                     (map convertDiagnostic (diagnostics result)) in
  let files' := (files output ++ [fileResult])%list in
  let s := summary output in
  let s1 :=
    if negb (isValid result)
    then mkJsonSummary (totalFiles s) (filesWithErrors s + 1) (totalErrors s)
                       (totalWarnings s) false
    else s in
  mkJsonOutput
    (mkJsonSummary (totalFiles s1) (filesWithErrors s1)
                   (totalErrors s1 + List.length (errors result))
                   (totalWarnings s1 + List.length (warnings result))
                   (summaryIsValid s1))
    files'.

(** Format validation results as JSON: the object that is handed to
    [JSON.stringify]. *)
Definition formatJson (fileResults : list FileResult) : JsonOutput :=
  fold_left formatJsonStep fileResults
            (mkJsonOutput
               (mkJsonSummary (List.length fileResults) 0 0 0 true) []).

(** *** cli/reporters/sarif.ts *)

Record SarifRegion := mkSarifRegion {
  startLine : Z;
  startColumn : Z;
  endLine : Z;
  endColumn : Z
}.

(** [physicalLocation]: the [uri] of its [artifactLocation], and its
    [region]. *)
Record SarifLocation := mkSarifLocation {
  artifactLocationUri : string;
  region : SarifRegion
}.

Record SarifResult := mkSarifResult {
  ruleId : string;
  level : string;
  messageText : string;
  locations : list SarifLocation
}.

Record SarifArtifact := mkSarifArtifact { locationUri : string }.

Record SarifReportingDescriptor := mkSarifRule {
  ruleIdent : string;
  ruleName : string;
  shortDescription : string
}.

Record SarifRun := mkSarifRun {
  driverName : string;
  driverVersion : string;
  informationUri : string;
  rules : list SarifReportingDescriptor;
  results : list SarifResult;
  artifacts : list SarifArtifact
}.

Record SarifLog := mkSarifLog {
  schema : string;
  version : string;
  runs : list SarifRun
}.

(** Get rule ID based on diagnostic; [String(code)] of an integer is its
    decimal text, and a code that is [0] or the empty string is falsy. *)
Definition getRuleId (diagnostic : Diagnostic) : string :=
  match severity diagnostic with
  | Some 1 =>
      match code diagnostic with
      | Some (codeNumber z) =>
          if (z =? 0)%Z then "semantic-error" else Js.numberToString z
      | Some (codeString (String c r)) => String c r
      | _ => "semantic-error"
      end
  | Some 2 => "validation-warning"
  | _ => "validation-hint"
  end.

(** Convert a Langium Diagnostic to a SARIF Result. *)
Definition convertToSarifResult (diagnostic : Diagnostic) (file : string)
  : SarifResult :=
  mkSarifResult
    (getRuleId diagnostic)
    (severityToSarifLevel (severity diagnostic))
    (message diagnostic)
    [ mkSarifLocation file
        (mkSarifRegion (line (start (range diagnostic)) + 1)
                       (character (start (range diagnostic)) + 1)
                       (line (end_ (range diagnostic)) + 1)
                       (character (end_ (range diagnostic)) + 1)) ].

(** The body of the loop of [formatSarif], on [results], [artifacts] and
    the set [seenFiles]. *)
Definition formatSarifStep
    (st : list SarifResult * list SarifArtifact * list string)
    (fr : FileResult)
  : list SarifResult * list SarifArtifact * list string :=
  let '(results, artifacts, seenFiles) := st in
  (* Add artifact for each file *)
  let '(artifacts', seenFiles') :=
    if negb (existsb (String.eqb (file fr)) seenFiles)
    then ((artifacts ++ [mkSarifArtifact (file fr)])%list,
          (seenFiles ++ [file fr])%list)
    else (artifacts, seenFiles) in
  (* Convert diagnostics to SARIF results *)
  ((results
    ++ map (fun diagnostic => convertToSarifResult diagnostic (file fr))
           (diagnostics (result fr)))%list,
   artifacts', seenFiles').

(** Format validation results as SARIF: the log that is handed to
    [JSON.stringify]. *)
Definition formatSarif (fileResults : list FileResult) : SarifLog :=
  let '(results, artifacts, _) :=
    fold_left formatSarifStep fileResults ([], [], []) in
  mkSarifLog
    "https://raw.githubusercontent.com/oasis-tcs/sarif-spec/master/Schemata/sarif-schema-2.1.0.json"
    "2.1.0"
    [ mkSarifRun "sysml-parser" "0.1.0"
        "https://github.com/your-org/sysml-parser"
        [ mkSarifRule "syntax-error" "Syntax Error"
                      "Syntax error in SysML source";
          mkSarifRule "semantic-error" "Semantic Error"
                      "Semantic error in SysML model";
          mkSarifRule "validation-warning" "Validation Warning"
                      "Potential issue in SysML model";
          mkSarifRule "validation-hint" "Validation Hint"
                      "Suggestion for SysML model" ]
        results artifacts ].

(** *** cli/reporters/text.ts *)

(** The styles of the [chalk] library that the command line uses: each
    wraps a text in terminal control sequences. *)
Record Chalk := mkChalk {
  red : string -> string;
  yellow : string -> string;
  blue : string -> string;
  gray : string -> string;
  green : string -> string;
  dim : string -> string;
  underline : string -> string;
  bold : string -> string;
  greenBold : string -> string;
  redBold : string -> string
}.

(** The comparison function of the sort: by line, then by column. *)
Definition comparePosition (a b : Diagnostic) : Z :=
  let lineDiff := (line (start (range a)) - line (start (range b)))%Z in
  if negb (lineDiff =? 0)%Z then lineDiff
  else (character (start (range a)) - character (start (range b)))%Z.

(** [Array.prototype.sort] with a comparison function is stable: an
    element is placed behind the elements that do not compare greater. *)
Fixpoint insertSorted (x : Diagnostic) (sorted : list Diagnostic)
  : list Diagnostic :=
  match sorted with
  | [] => [x]
  | y :: rest =>
      if (0 <? comparePosition y x)%Z then x :: y :: rest
      else y :: insertSorted x rest
  end.

Definition sortByPosition (diagnostics : list Diagnostic)
  : list Diagnostic :=
  fold_left (fun sorted x => insertSorted x sorted) diagnostics [].

(** Get colored severity label. *)
Definition getSeverityLabel (severity : option nat) (c : Chalk) : string :=
  match severity with
  | Some 1 => red c "error"
  | Some 2 => yellow c "warning"
  | Some 3 => blue c "info"
  | Some 4 => gray c "hint"
  | _ => gray c "unknown"
  end.

Section Styled.
Variable chalk : Chalk.

(** The styles in use: those of [chalk], or the seven identities. *)
Definition styles (useColors : bool) : Chalk :=
  if useColors then chalk
  else
    let plain := fun s : string => s in
    mkChalk plain plain plain plain plain plain plain (bold chalk)
            (greenBold chalk) (redBold chalk).

(** The array [lines] of [formatText] at the end of its loop. *)
Definition formatTextLines (c : Chalk) (fileResults : list FileResult)
  : list string :=
  flat_map
    (fun fr =>
       let diagnostics := diagnostics (result fr) in
       if Nat.eqb (List.length diagnostics) 0 then []
       else
         (* File header *)
         ["" ; underline c (file fr)]
         (* Sort diagnostics by line, then column *)
         ++ map (fun diagnostic =>
                   let line := (line (start (range diagnostic)) + 1)%Z in
                   let col := (character (start (range diagnostic)) + 1)%Z in
                   let severity := getSeverityLabel (severity diagnostic) c in
                   let message := message diagnostic in
                   ("  "
                      ++ dim c (Js.numberToString line ++ ":"
                                  ++ Js.numberToString col)
                      ++ "  " ++ severity ++ "  " ++ message)%string)
                (sortByPosition diagnostics))%list
    fileResults.

(** Format validation results as human-readable text. *)
Definition formatText (fileResults : list FileResult)
    (useColors : option bool) : string :=
  let c := styles (match useColors with Some b => b | None => true end) in
  let lines := formatTextLines c fileResults in
  if Nat.eqb (List.length lines) 0 then green c "No issues found."
  else Js.join (String (ascii_of_nat 10) "") lines.

(** *** cli/commands/validate *)

Record ValidateOptions := mkValidateOptions {
  optFormat : string;
  optOutput : option string;
  optColors : bool;
  optWarnings : bool;
  optHints : bool;
  optQuiet : bool
}.

(** Filter diagnostics based on options. *)
Definition filterDiagnostics (diagnostics : list Diagnostic)
    (options : ValidateOptions) : list Diagnostic :=
  filter
    (fun d =>
       match severity d with
       (* Always show errors *)
       | Some 1 => true
       (* Show warnings if requested *)
       | Some 2 => optWarnings options
       (* Show hints if requested *)
       | Some 3 | Some 4 => optHints options
       | _ => false
       end)
    diagnostics.

(** What a reporter returns: the text, or the object that is serialized. *)
Inductive Report :=
| textReport (text : string)
| jsonReport (output : JsonOutput)
| sarifReport (log : SarifLog).

(** Format results based on output format. *)
Definition formatResults (fileResults : list FileResult)
    (options : ValidateOptions) : Report :=
  if String.eqb (optFormat options) "json" then
    jsonReport (formatJson fileResults)
  else if String.eqb (optFormat options) "sarif" then
    sarifReport (formatSarif fileResults)
  else textReport (formatText fileResults (Some (optColors options))).

(** Print validation summary: the lines written to the console. *)
Definition printSummary (fileCount errors warnings hints : nat)
    (options : ValidateOptions) : list string :=
  if optQuiet options then []
  else
    let number := fun k : nat => Js.numberToString (Z.of_nat k) in
    [ ""; bold chalk "Summary:"; "  Files checked: " ++ number fileCount ]
    ++ [ if 0 <? errors
         then red chalk ("  Errors: " ++ number errors)
         else green chalk ("  Errors: " ++ number errors) ]
    ++ (if optWarnings options then
          [ if 0 <? warnings
            then yellow chalk ("  Warnings: " ++ number warnings)
            else "  Warnings: " ++ number warnings ]
        else [])
    ++ (if optHints options then [ "  Hints: " ++ number hints ] else [])
    ++ [ "" ]
    ++ [ if Nat.eqb errors 0
         then greenBold chalk "Validation passed!"
         else redBold chalk "Validation failed." ].

(** What [validateFile] does for a file: it returns a result or throws. *)
Inductive Outcome :=
| returned (r : ValidationResult)
| threw (error : string).

(** A file of the expanded patterns: its path relative to the working
    directory, its absolute path, and the outcome of its validation. *)
Record ValidatedFile := mkValidatedFile {
  relativePath : string;
  absolute : string;
  outcome : Outcome
}.

(** The body of the loop over the files, on [fileResults] and the three
    totals. *)
Definition validateStep (st : list FileResult * nat * nat * nat)
    (f : ValidatedFile) : list FileResult * nat * nat * nat :=
  let '(fileResults, totalErrors, totalWarnings, totalHints) := st in
  match outcome f with
  | returned result =>
      ((fileResults
        ++ [mkFileResult (relativePath f) (absolute f) result])%list,
       totalErrors + List.length (errors result),
       totalWarnings + List.length (warnings result),
       totalHints + List.length (hints result))
  | threw error =>
      (* Create a synthetic error result *)
      let errorDiagnostic :=
        mkDiagnostic (Some 1) error
                     (mkRange (mkPosition 0 0) (mkPosition 0 0)) None in
      ((fileResults
        ++ [mkFileResult (relativePath f) (absolute f)
              (mkValidationResult [errorDiagnostic] [errorDiagnostic] [] []
                                  false)])%list,
       totalErrors + 1, totalWarnings, totalHints)
  end.

(** What the console shows. *)
Inductive Printed :=
| printedLine (s : string)
| printedReport (r : Report).

(** How the handler ends: [process.exit] is reached, with its code, or the
    promise of the handler is rejected, with the error. *)
Inductive Ending :=
| exited (code : nat)
| rejected (error : string).

(** A run of the command: the lines on the error stream, what is logged,
    the file written, and how the handler ends. *)
Record Run := mkRun {
  consoleError : list string;
  consoleLog : list Printed;
  written : option (string * Report);
  ending : Ending
}.

(** [fs.writeFile(path, output, 'utf-8')]: the write succeeds, or fails
    with an error. *)
Variable writeFile : string -> Report -> option string.

(** Validate command handler; [files] are the expanded patterns with the
    outcome of [validateFile] for each.  The write of the output file is
    awaited outside any [try]: when it fails the handler is rejected and
    nothing that follows runs. *)
Definition validateCommand (files : list ValidatedFile)
    (options : ValidateOptions) : Run :=
  if Nat.eqb (List.length files) 0 then
    mkRun (if negb (optQuiet options)
           then [yellow chalk "No files found matching the provided patterns."]
           else [])
          [] None (exited 1)
  else
    let '(fileResults, totalErrors, totalWarnings, totalHints) :=
      fold_left validateStep files ([], 0, 0, 0) in
    (* Filter diagnostics based on options *)
    let filteredResults :=
      map (fun fr =>
             mkFileResult (file fr) (absolutePath fr)
               (mkValidationResult
                  (filterDiagnostics (diagnostics (result fr)) options)
                  (errors (result fr)) (warnings (result fr))
                  (hints (result fr)) (isValid (result fr))))
          fileResults in
    (* Exit with error code if any errors found *)
    let code := if 0 <? totalErrors then 1 else 0 in
    (* Format and output results *)
    if negb (optQuiet options) then
      let output := formatResults filteredResults options in
      let summaryLines :=
        map printedLine
            (printSummary (List.length files) totalErrors totalWarnings
                          totalHints options) in
      match optOutput options with
      | Some (String c r) =>
          match writeFile (String c r) output with
          | Some error => mkRun [] [] None (rejected error)
          | None =>
              mkRun []
                    (printedLine
                       (green chalk ("Output written to " ++ String c r))
                     :: summaryLines)
                    (Some (String c r, output)) (exited code)
          end
      | _ =>
          mkRun [] (printedReport output :: summaryLines) None (exited code)
      end
    else mkRun [] [] None (exited code).

End Styled.

End Cli.

(* ===================================================================== *)
(** ** utils/ast-serializer                                               *)
(* ===================================================================== *)

Module AstSerializer.
Import Duplicates.

(** The values the serializer walks over: primitives, arrays, and objects
    given by their own enumerable properties in the order of
    [Object.keys].  A value is a finite tree: the links that close cycles
    in an AST ([$container] and the like) are properties as any other. *)
#[local] Unset Elimination Schemes.
Inductive JsValue :=
| jsUndefined
| jsNull
| jsBoolean (b : bool)
| jsNumber (z : Z)
| jsString (s : string)
| jsArray (items : list JsValue)
| jsObject (properties : list (string * JsValue)).
#[local] Set Elimination Schemes.

Record SerializeOptions := mkSerializeOptions {
  (* Include $type information in output *)
  includeTypes : bool;
  (* Custom property filter - return false to exclude a property *)
  propertyFilter : option (string -> JsValue -> bool)
}.

(** Truthiness of a value. *)
Definition truthy (v : JsValue) : bool :=
  match v with
  | jsUndefined | jsNull => false
  | jsBoolean b => b
  | jsNumber z => negb (z =? 0)%Z
  | jsString s => negb (String.eqb s "")
  | jsArray _ | jsObject _ => true
  end.

(** [typeof v === 'object'] *)
Definition isObject (v : JsValue) : bool :=
  match v with
  | jsNull | jsArray _ | jsObject _ => true
  | _ => false
  end.

(** [obj[key]] *)
Definition getProperty (properties : list (string * JsValue)) (key : string)
  : JsValue :=
  match mapGet properties key with
  | Some v => v
  | None => jsUndefined
  end.

(** Internal recursive serialization function. *)
Fixpoint serializeNode (node : JsValue) (options : SerializeOptions)
    {struct node} : JsValue :=
  match node with
  | jsUndefined | jsNull => node
  | jsBoolean _ | jsNumber _ | jsString _ => node
  | jsArray items =>
      jsArray (map (fun item => serializeNode item options) items)
  | jsObject obj =>
      (* Include type information if requested *)
      let result : list (string * JsValue) :=
        if includeTypes options && truthy (getProperty obj "$type")
        then [("$type", getProperty obj "$type")]
        else [] in
      jsObject
        (fold_left
           (fun result kv =>
              let '(key, value) := kv in
              (* Skip internal Langium properties *)
              if Js.startsWith "$" key then result
              else
                (* Apply custom filter if provided *)
                if match propertyFilter options with
                   | Some keep => negb (keep key value)
                   | None => false
                   end
                then result
                else
                  match value with
                  | jsUndefined | jsNull => result
                  | _ =>
                      if isObject value
                      then mapSet result key (serializeNode value options)
                      else mapSet result key value
                  end)
           obj result)
  end.

(** Serialize an AST node to a JSON-compatible object. *)
Definition serializeAst (node : JsValue) (options : SerializeOptions)
  : JsValue :=
  if negb (truthy node) then jsUndefined
  else serializeNode node options.

(** [cli/commands/export]: export AST to the specified format. *)
Definition exportAst (ast : JsValue) (format : string) : JsValue :=
  if negb (truthy ast) then jsObject []
  else
    let orEmptyObject := fun v =>
      match v with
      | jsUndefined | jsNull => jsObject []
      | _ => v
      end in
    if String.eqb format "ast" then
      (* Full AST with type information *)
      orEmptyObject (serializeAst ast (mkSerializeOptions true None))
    else
      (* Simplified JSON representation *)
      orEmptyObject (serializeAst ast (mkSerializeOptions false None)).

End AstSerializer.

(* ===================================================================== *)
(** * Vocabulary of the properties                                        *)
(* ===================================================================== *)

Import Ast.

(** ** Diagnostics of the checks *)

Section MultiplicityDiagnostics.
Import Multiplicity.

Definition negativeLowerDiagnostic (m : MultiplicityBounds)
  : Diagnostic MultiplicityBounds :=
  mkDiag error_ "Lower bound cannot be negative" m (Some "lowerBound").

Definition orderMessage (L U : Z) : string :=
  "Lower bound (" ++ Js.numberToString L
    ++ ") cannot be greater than upper bound (" ++ Js.numberToString U ++ ")".

Definition orderDiagnostic (m : MultiplicityBounds) (L U : Z)
  : Diagnostic MultiplicityBounds :=
  mkDiag error_ (orderMessage L U) m None.

End MultiplicityDiagnostics.

(** ** Notations of a bound *)

(** A code unit that is a digit of the radix. *)
Definition digitOf (R : Z) (c : ascii) : bool :=
  match Js.digitValue c with
  | Some d => (d <? R)%Z
  | None => false
  end.

Definition beginsWithDigit (R : Z) (s : string) : bool :=
  match s with
  | String c _ => digitOf R c
  | EmptyString => false
  end.

Fixpoint allDigits (R : Z) (s : string) : bool :=
  match s with
  | EmptyString => true
  | String c r => digitOf R c && allDigits R r
  end.

(** A numeral of the radix: one digit or more, and nothing else. *)
Definition numeral (R : Z) (s : string) : bool :=
  beginsWithDigit R s && allDigits R s.

(** The bound begins, in either case, with the two units of a prefix. *)
Definition prefixed (prefix bound : string) : bool :=
  Js.startsWith prefix (Js.toLowerCase bound).

(** The notations of a bound, as the documentation lists them: [*], a
    decimal numeral, and a hexadecimal, binary or octal numeral behind
    its prefix. *)
Definition notation (bound : string) : bool :=
  String.eqb bound "*"
  || numeral 10 bound
  || (prefixed "0x" bound && numeral 16 (Js.substring 2 bound))
  || (prefixed "0b" bound && numeral 2 (Js.substring 2 bound))
  || (prefixed "0o" bound && numeral 8 (Js.substring 2 bound)).

(** The radix that the prefix of a bound selects, and the text that is
    read in that radix. *)
Definition radixOf (bound : string) : Z :=
  if prefixed "0x" bound then 16%Z
  else if prefixed "0b" bound then 2%Z
  else if prefixed "0o" bound then 8%Z
  else 10%Z.

Definition digitsOf (bound : string) : string :=
  if prefixed "0x" bound || prefixed "0b" bound || prefixed "0o" bound
  then Js.substring 2 bound else bound.

(** A text without its leading white space and one sign. *)
Definition unsigned (s : string) : string :=
  match Js.trimStart s with
  | String "-" r => r
  | String "+" r => r
  | t => t
  end.

Definition signOf (s : string) : Z :=
  match Js.trimStart s with
  | String "-" _ => (-1)%Z
  | _ => 1%Z
  end.

(** A text begins a number of the radix: behind white space and an
    optional sign, and in radix 16 behind an optional [0x], there is a
    digit of the radix.  What follows the digits is not looked at. *)
Definition beginsNumeral (R : Z) (s : string) : bool :=
  let u := unsigned s in
  if (R =? 16)%Z && (Js.startsWith "0x" u || Js.startsWith "0X" u)
  then beginsWithDigit 16 (Js.substring 2 u)
  else beginsWithDigit R u.

(** A bound that yields a number: [*], or a text that begins a number of
    its radix. *)
Definition yieldsNumber (bound : string) : bool :=
  String.eqb bound "*" || beginsNumeral (radixOf bound) (digitsOf bound).

Definition selfSpecializationDiagnostic (node : AstNode) (n : string)
  : Diagnostic AstNode :=
  mkDiag error_ ("Part definition '" ++ n ++ "' cannot specialize itself")
         node (Some "specializations").

(** ** Alternatives of a parser error message *)

(** All the alternatives a message lists: the groups of the successive
    matches of the alternative pattern, from the start of the message. *)
Fixpoint allAlternatives (fuel : nat) (message : string) (lastIndex : nat)
  : list string :=
  match fuel with
  | O => []
  | S fuel' =>
      match ParserUtils.altExec message lastIndex with
      | (Some g, lastIndex') => g :: allAlternatives fuel' message lastIndex'
      | (None, _) => []
      end
  end.

Definition twoAlternatives : string :=
  "Expecting: one of these possible Token sequences:"
  ++ String ParserUtils.LF "  1. [Package]"
  ++ String ParserUtils.LF "  2. [Part]"
  ++ String ParserUtils.LF "but found: 'foo'".

Definition sixAlternatives : string :=
  "Expecting: one of these possible Token sequences:"
  ++ " 1. [A] 2. [B] 3. [C] 4. [D] 5. [E] 6. [F] but found: 'x'".

(** ** Groups of elements with one name *)

Section DuplicateVocabulary.
Import Duplicates.

(** The element carries the name [n]. *)
Definition hasName (n : string) (e : AstNode) : bool :=
  match name e with
  | Some m => String.eqb m n
  | None => false
  end.

(** The elements of a list that carry the name [n], in order. *)
Definition group (n : string) (l : list AstNode) : list AstNode :=
  filter (hasName n) l.

(** What the first loop of [findDuplicateNames] maintains: the map
    [elementsByName] has one entry per non-empty name met so far, which
    holds the elements met so far with that name. *)
Definition Grouped (m : JsMap (list AstNode)) (seen : list AstNode) : Prop :=
  NoDup (map fst m)
  /\ (forall k v, In (k, v) m -> k <> "" /\ v = group k seen /\ v <> [])
  /\ (forall k, k <> "" -> group k seen <> [] -> In k (map fst m)).

Definition duplicateMessage (contextName : option string) (n : string)
  : string :=
  match contextName with
  | Some (String c r) => "Duplicate element name '" ++ n ++ "' in " ++ String c r
  | _ => "Duplicate element name: '" ++ n ++ "'"
  end.

Definition duplicateDiagnostic (options : ReportDuplicatesOptions)
    (n : string) (e : AstNode) : Diagnostic AstNode :=
  mkDiag error_ (duplicateMessage (contextName options) n) e
         (Some (match propertyOpt options with Some p => p | None => "name" end)).

(** What [reportDuplicates] emits for one entry of the map. *)
Definition reportEntry (options : ReportDuplicatesOptions) (n : string)
    (g : list AstNode) : list (Diagnostic AstNode) :=
  if match reportAll options with Some b => b | None => true end
  then map (duplicateDiagnostic options n) g
  else match g with
       | first :: _ => [duplicateDiagnostic options n first]
       | [] => []
       end.

(** The diagnostics of a list that carry a given message. *)
Definition withMessage {N} (msg : string) (ds : list (Diagnostic N))
  : list (Diagnostic N) :=
  filter (fun d => String.eqb (message d) msg) ds.

End DuplicateVocabulary.

Definition twoPackagesP : AstNode :=
  rootNamespace [ owningMembership None (package (Some "P") []);
                  owningMembership None (package (Some "P") []) ].

Definition packageWithTwoA : AstNode :=
  package (Some "P")
    [ owningMembership None (partDefinition (Some "A") []);
      owningMembership None (definition "ActionDefinition" (Some "A") []) ].

(** ** Nodes that the traversals reach *)

Import ScopeComputation ScopeProvider.

(** What holds of the nodes on the way from a node down to a node that
    the traversals reach: a member of an array is an owning membership (and,
    for exports, not private or protected), an owned element has a name, and
    no step goes through a body property. *)
Definition stepAdmits (checkVisibility : bool) (s : Step) (c : AstNode)
  : Prop :=
  match s with
  | elementProp => Js.truthy (name c) = true
  | elementsAt _ | namespaceElementsAt _ =>
      isOwningMembership c = true
      /\ (checkVisibility = true -> isHidden (visibility c) = false)
  | bodyProp => False
  end.

Fixpoint along (checkVisibility : bool) (n : AstNode) (rel : Path) : Prop :=
  match rel with
  | [] => True
  | s :: rest =>
      match child n s with
      | Some c => stepAdmits checkVisibility s c /\ along checkVisibility c rest
      | None => False
      end
  end.

Section TraversalVocabulary.
Variable document : LangiumDocument.

Definition exportsOfElement (e : AstNode) : Prop :=
  forall here parts d,
    In d (processDefinitionOrUsage document e here parts) ->
    Js.truthy (name e) = true
    /\ exists rel, path d = (here ++ rel)%list /\ along true e rel.

Definition exportsOfMember (m : AstNode) : Prop :=
  forall here parts d,
    In d (processNamespaceElement document m here parts) ->
    exists rel, path d = (here ++ rel)%list /\ along true m rel.

Definition localsOf (c : AstNode) : Prop :=
  forall here entry,
    In entry (processNestedLocalScopes document c here) ->
    exists rel1 rel2,
      fst entry = (here ++ rel1)%list
      /\ path (snd entry) = (here ++ rel2)%list
      /\ along false c rel1 /\ along false c rel2.

(** The elements the export traversal visits, each with the qualified-name
    prefix it is visited under and its path: the elements of the public
    owning memberships of the root, under the empty prefix, and those of
    the public owning memberships of a visited element that has a name,
    under the prefix extended by that name. *)
Inductive Visited : list string -> Path -> AstNode -> Prop :=
| Visited_root l i m e :
    namespaceElements (root document) = Some l -> nth_error l i = Some m ->
    isOwningMembership m = true -> isHidden (visibility m) = false ->
    element m = Some e ->
    Visited [] [namespaceElementsAt i; elementProp] e
| Visited_nested p here e n l i m e' :
    Visited p here e ->
    name e = Some n -> n <> "" ->
    elements e = Some l -> nth_error l i = Some m ->
    isOwningMembership m = true -> isHidden (visibility m) = false ->
    element m = Some e' ->
    Visited (p ++ [n]) (here ++ [elementsAt i; elementProp]) e'.

End TraversalVocabulary.

(** ** Sample documents *)

Definition indexABX : list AstNodeDescription :=
  [ mkDescription "A" "PackageBody" "memory://document.sysml"
                  [namespaceElementsAt 0; elementProp];
    mkDescription "B" "PackageBody" "memory://document.sysml"
                  [namespaceElementsAt 0; elementProp; elementsAt 0; elementProp];
    mkDescription "A::B" "PackageBody" "memory://document.sysml"
                  [namespaceElementsAt 0; elementProp; elementsAt 0; elementProp];
    mkDescription "A::B::X" "PartDefinition" "memory://document.sysml"
                  [namespaceElementsAt 0; elementProp; elementsAt 0; elementProp;
                   elementsAt 0; elementProp] ].

Definition anonymousPackageDocument : LangiumDocument :=
  mkDocument "memory://document.sysml"
    (rootNamespace
       [ owningMembership None
           (package None
              [ owningMembership (Some "public")
                  (partDefinition (Some "A") []) ]) ]).

(** The document of the test [should allow qualified access to shadowed
    name]: package Outer holds a part definition X and a package Inner,
    which holds a part definition X and two part definitions that refer
    to [Outer::X] and to [X]. *)
Definition shadowingDocument : LangiumDocument :=
  mkDocument "memory://document.sysml"
    (rootNamespace
       [ owningMembership None
           (package (Some "Outer")
              [ owningMembership None (partDefinition (Some "X") []);
                owningMembership None
                  (package (Some "Inner")
                     [ owningMembership None (partDefinition (Some "X") []);
                       owningMembership None
                         (partDefinition (Some "RefOuter")
                                         [qn ["Outer"; "X"]]);
                       owningMembership None
                         (partDefinition (Some "RefInner") [qn ["X"]]) ]) ]) ]).

(** The same packages inside a package [P]. *)
Definition nestedShadowingDocument : LangiumDocument :=
  mkDocument "memory://document.sysml"
    (rootNamespace
       [ owningMembership None
           (package (Some "P")
              [ owningMembership None
                  (package (Some "Outer")
                     [ owningMembership None (partDefinition (Some "X") []);
                       owningMembership None
                         (package (Some "Inner")
                            [ owningMembership None
                                (partDefinition (Some "X") []);
                              owningMembership None
                                (partDefinition (Some "RefOuter")
                                                [qn ["Outer"; "X"]]) ]) ]) ]) ]).

Definition nestedRefOuter : Path :=
  [namespaceElementsAt 0; elementProp; elementsAt 0; elementProp;
   elementsAt 1; elementProp; elementsAt 1; elementProp].

Definition outerX : Path :=
  [namespaceElementsAt 0; elementProp; elementsAt 0; elementProp].
Definition innerX : Path :=
  [namespaceElementsAt 0; elementProp; elementsAt 1; elementProp;
   elementsAt 0; elementProp].
Definition refOuter : Path :=
  [namespaceElementsAt 0; elementProp; elementsAt 1; elementProp;
   elementsAt 1; elementProp].
Definition refInner : Path :=
  [namespaceElementsAt 0; elementProp; elementsAt 1; elementProp;
   elementsAt 2; elementProp].

(** ** Induction over the tree *)

Definition optAll (P : AstNode -> Prop) (o : option AstNode) : Prop :=
  match o with Some c => P c | None => True end.

Definition optListAll (P : AstNode -> Prop) (o : option (list AstNode))
  : Prop :=
  match o with Some l => Forall P l | None => True end.

Section AstInduction.
Variable P : AstNode -> Prop.
Hypothesis step :
  forall n,
    optAll P (element n) -> optListAll P (elements n) ->
    optListAll P (namespaceElements n) -> optAll P (body n) -> P n.

Fixpoint AstNode_induction (n : AstNode) {struct n} : P n :=
  let all := fix all (l : list AstNode) : Forall P l :=
    match l with
    | [] => Forall_nil P
    | x :: r => Forall_cons x (AstNode_induction x) (all r)
    end in
  match n with
  | mkNode ty nm vis el els ns bd ab sp ft vc ve cst =>
      step (mkNode ty nm vis el els ns bd ab sp ft vc ve cst)
        (match el as o return optAll P o with
         | Some c => AstNode_induction c
         | None => I
         end)
        (match els as o return optListAll P o with
         | Some l => all l
         | None => I
         end)
        (match ns as o return optListAll P o with
         | Some l => all l
         | None => I
         end)
        (match bd as o return optAll P o with
         | Some c => AstNode_induction c
         | None => I
         end)
  end.

End AstInduction.

(** ** Steps of the counting loop *)

(** One step of the loop of [countElementNames]. *)
Definition countStep (counts : Duplicates.JsMap nat) (element : AstNode) : Duplicates.JsMap nat :=
  match getElementName element with
  | Some (String c r) =>
      Duplicates.mapSet counts (String c r)
             (match Duplicates.mapGet counts (String c r) with Some k => k | None => 0 end
              + 1)
  | _ => counts
  end.

(** ** What an entry of the exports stands for *)

(** The entry [d] is one of the two entries of the element [e], visited
    under the prefix [p] at the path [here] with the name [n]: the entry
    under the simple name or, when the prefix is not empty, the entry under
    the qualified name. *)
Definition exportOf (document : LangiumDocument) (p : list string)
    (here : Path) (e : AstNode) (n : string) (d : AstNodeDescription) : Prop :=
  Visited document p here e /\ name e = Some n /\ n <> ""
  /\ (d = mkDescription n (type_ e) (uri document) here
      \/ (p <> []
          /\ d = mkDescription (Js.join "::" p ++ "::" ++ n) (type_ e)
                               (uri document) here)).

(** The elements the local-scope traversal registers, each with the path
    of the container it is registered under and its own path: the named
    elements of the owning memberships of the root and, below a registered
    element, of its owning memberships, whatever their visibility. *)
Inductive Scoped (document : LangiumDocument) : Path -> Path -> AstNode -> Prop :=
| Scoped_root l i m e :
    namespaceElements (root document) = Some l -> nth_error l i = Some m ->
    isOwningMembership m = true -> element m = Some e ->
    Js.truthy (name e) = true ->
    Scoped document [] [namespaceElementsAt i; elementProp] e
| Scoped_nested c here e l i m e' :
    Scoped document c here e ->
    elements e = Some l -> nth_error l i = Some m ->
    isOwningMembership m = true -> element m = Some e' ->
    Js.truthy (name e') = true ->
    Scoped document here (here ++ [elementsAt i; elementProp]) e'.

(** ** Local names *)

(** The description that [getInitialScope] pushes for a local name. *)
Definition localDescription (document : LangiumDocument)
    (local : LocalDescription) : AstNodeDescription :=
  mkDescription (localName local) (type_ (localNode local)) (uri document)
                (localPath local).

(** Deeper first: the path of [b] is not longer than the path of [a]. *)
Definition deeperFirst (a b : LocalDescription) : Prop :=
  List.length (localPath b) <= List.length (localPath a).

(** Package [Outer] holds a private part definition [X] and a package
    [Inner], which holds a private part definition [X] and a part
    definition that refers to [X]. *)
Definition privateShadowingDocument : LangiumDocument :=
  mkDocument "memory://document.sysml"
    (rootNamespace
       [ owningMembership None
           (package (Some "Outer")
              [ owningMembership (Some "private")
                  (partDefinition (Some "X") []);
                owningMembership None
                  (package (Some "Inner")
                     [ owningMembership (Some "private")
                         (partDefinition (Some "X") []);
                       owningMembership None
                         (partDefinition (Some "R") [qn ["X"]]) ]) ]) ]).

(** The path of the part definition [R]. *)
Definition privateRef : Path :=
  [namespaceElementsAt 0; elementProp; elementsAt 1; elementProp;
   elementsAt 1; elementProp].

(** ** Diagnostics on the command line *)

Definition severityIs (k : nat) (d : Cli.Diagnostic) : bool :=
  match Cli.severity d with
  | Some s => Nat.eqb s k
  | None => false
  end.

(** A result as [validateDocument] builds it from its diagnostics. *)
Definition consistentResult (r : Cli.ValidationResult) : Prop :=
  Cli.errors r = filter (severityIs 1) (Cli.diagnostics r)
  /\ Cli.warnings r = filter (severityIs 2) (Cli.diagnostics r)
  /\ Cli.hints r
     = filter (fun d => severityIs 3 d || severityIs 4 d) (Cli.diagnostics r)
  /\ Cli.isValid r = negb (existsb (severityIs 1) (Cli.diagnostics r)).

(** The result that the loop of [validateCommand] records for a file: the
    result returned, or the synthetic result of a failure. *)
Definition recorded (f : Cli.ValidatedFile) : Cli.ValidationResult :=
  match Cli.outcome f with
  | Cli.returned r => r
  | Cli.threw error =>
      let errorDiagnostic :=
        Cli.mkDiagnostic (Some 1) error
          (Cli.mkRange (Cli.mkPosition 0 0) (Cli.mkPosition 0 0)) None in
      Cli.mkValidationResult [errorDiagnostic] [errorDiagnostic] [] [] false
  end.

(** The file results that the loop of [validateCommand] records, and
    those it hands to the reporter. *)
Definition recordedResults (files : list Cli.ValidatedFile)
  : list Cli.FileResult :=
  map (fun f => Cli.mkFileResult (Cli.relativePath f) (Cli.absolute f)
                                 (recorded f))
      files.

Definition shownResults (files : list Cli.ValidatedFile)
    (options : Cli.ValidateOptions) : list Cli.FileResult :=
  map (fun fr =>
         Cli.mkFileResult (Cli.file fr) (Cli.absolutePath fr)
           (Cli.mkValidationResult
              (Cli.filterDiagnostics (Cli.diagnostics (Cli.result fr))
                                     options)
              (Cli.errors (Cli.result fr)) (Cli.warnings (Cli.result fr))
              (Cli.hints (Cli.result fr)) (Cli.isValid (Cli.result fr))))
      (recordedResults files).

(** The number of errors the loop counts. *)
Definition countedErrors (files : list Cli.ValidatedFile) : nat :=
  list_sum (map (fun f => List.length (Cli.errors (recorded f))) files).

(** The write of the output file fails with [error]: the command has a
    file at least, is not quiet, and is given an output path that is not
    empty, at which the write of the report fails. *)
Definition failedWrite (chalk : Cli.Chalk)
    (writeFile : string -> Cli.Report -> option string)
    (files : list Cli.ValidatedFile) (options : Cli.ValidateOptions)
    (error : string) : Prop :=
  files <> [] /\ Cli.optQuiet options = false
  /\ exists target,
       Cli.optOutput options = Some target /\ target <> ""
       /\ writeFile target
            (Cli.formatResults chalk (shownResults files options) options)
          = Some error.

(** A file system on which every write succeeds. *)
Definition writable (target : string) (report : Cli.Report) : option string :=
  None.

(** The styles that leave a text as it is. *)
Definition plainChalk : Cli.Chalk :=
  Cli.mkChalk (fun s => s) (fun s => s) (fun s => s) (fun s => s)
              (fun s => s) (fun s => s) (fun s => s) (fun s => s)
              (fun s => s) (fun s => s).

(** The report of a run: what is logged first or written to the file. *)
Definition reports (run : Cli.Run) (r : Cli.Report) : Prop :=
  (exists rest, Cli.consoleLog run = Cli.printedReport r :: rest)
  \/ (exists target, Cli.written run = Some (target, r)).

(** The number of diagnostics of a file of the JSON report that are
    listed with a given severity. *)
Definition listedAs (label : string) (f : Cli.JsonFileResult) : nat :=
  List.length
    (filter (fun d => String.eqb (Cli.jsonSeverity d) label)
            (Cli.jsonDiagnostics f)).

(** The order of the text report: by line, then by column. *)
Definition positionLe (a b : Cli.Diagnostic) : Prop :=
  (Cli.comparePosition a b <= 0)%Z.

(** The line of the text report for a diagnostic: two spaces, the
    position (one-based) dimmed, the severity label and the message. *)
Definition diagnosticLine (c : Cli.Chalk) (d : Cli.Diagnostic) : string :=
  "  "
    ++ Cli.dim c
         (Js.numberToString (Cli.line (Cli.start (Cli.range d)) + 1) ++ ":"
            ++ Js.numberToString
                 (Cli.character (Cli.start (Cli.range d)) + 1))
    ++ "  " ++ Cli.getSeverityLabel (Cli.severity d) c
    ++ "  " ++ Cli.message d.

(** The lines of the text report for a file, given its diagnostics in
    the order of the report: nothing without diagnostics, else an empty
    line, the file underlined, and the line of each diagnostic. *)
Definition fileLines (c : Cli.Chalk) (file : string)
    (ordered : list Cli.Diagnostic) : list string :=
  match ordered with
  | [] => []
  | _ :: _ => "" :: Cli.underline c file :: map (diagnosticLine c) ordered
  end.

Definition sampleDiagnostic (sev : option nat) (l c : Z) : Cli.Diagnostic :=
  Cli.mkDiagnostic sev "m" (Cli.mkRange (Cli.mkPosition l c)
                                        (Cli.mkPosition l c)) None.

(** ** Serialized values *)

Section JsValueInduction.
Import AstSerializer.
Variable P : JsValue -> Prop.
Hypothesis onUndefined : P jsUndefined.
Hypothesis onNull : P jsNull.
Hypothesis onBoolean : forall b, P (jsBoolean b).
Hypothesis onNumber : forall z, P (jsNumber z).
Hypothesis onString : forall s, P (jsString s).
Hypothesis onArray : forall items, Forall P items -> P (jsArray items).
Hypothesis onObject :
  forall properties,
    Forall (fun kv => P (snd kv)) properties -> P (jsObject properties).

Fixpoint JsValue_induction (v : JsValue) {struct v} : P v :=
  match v with
  | jsUndefined => onUndefined
  | jsNull => onNull
  | jsBoolean b => onBoolean b
  | jsNumber z => onNumber z
  | jsString s => onString s
  | jsArray items =>
      onArray items
        ((fix all (l : list JsValue) : Forall P l :=
            match l with
            | [] => Forall_nil P
            | x :: r => Forall_cons x (JsValue_induction x) (all r)
            end) items)
  | jsObject properties =>
      onObject properties
        ((fix all (l : list (string * JsValue))
            : Forall (fun kv => P (snd kv)) l :=
            match l with
            | [] => Forall_nil _
            | kv :: r =>
                Forall_cons kv (JsValue_induction (snd kv)) (all r)
            end) properties)
  end.

End JsValueInduction.

(** A property that the serializer writes: a key that does not start with
    [$], with a value that is neither [undefined] nor [null]. *)
Definition writtenProperty (Q : AstSerializer.JsValue -> Prop)
    (kv : string * AstSerializer.JsValue) : Prop :=
  Js.startsWith "$" (fst kv) = false
  /\ snd kv <> AstSerializer.jsUndefined /\ snd kv <> AstSerializer.jsNull
  /\ Q (snd kv).

(** The values free of internal properties: in every object, reached
    through arrays and properties, the keys are distinct, the only key
    that starts with [$] is [$type], and only when types are included, and
    no other property is [undefined] or [null]. *)
#[local] Unset Elimination Schemes.
Inductive Serialized (types : bool) : AstSerializer.JsValue -> Prop :=
| Serialized_undefined : Serialized types AstSerializer.jsUndefined
| Serialized_null : Serialized types AstSerializer.jsNull
| Serialized_boolean b : Serialized types (AstSerializer.jsBoolean b)
| Serialized_number z : Serialized types (AstSerializer.jsNumber z)
| Serialized_string s : Serialized types (AstSerializer.jsString s)
| Serialized_array items :
    Forall (Serialized types) items ->
    Serialized types (AstSerializer.jsArray items)
| Serialized_object properties :
    NoDup (map fst properties) ->
    Forall (fun kv =>
              (fst kv = "$type" /\ types = true)
              \/ writtenProperty (Serialized types) kv)
           properties ->
    Serialized types (AstSerializer.jsObject properties).
#[local] Set Elimination Schemes.

(** The object [result] of [serializeNode] before its loop, and the body
    of the loop. *)
Definition typeEntry (options : AstSerializer.SerializeOptions)
    (obj : list (string * AstSerializer.JsValue))
  : list (string * AstSerializer.JsValue) :=
  if AstSerializer.includeTypes options
     && AstSerializer.truthy (AstSerializer.getProperty obj "$type")
  then [("$type", AstSerializer.getProperty obj "$type")]
  else [].

Definition serializeStep (options : AstSerializer.SerializeOptions)
    (result : list (string * AstSerializer.JsValue))
    (kv : string * AstSerializer.JsValue)
  : list (string * AstSerializer.JsValue) :=
  let '(key, value) := kv in
  if Js.startsWith "$" key then result
  else
    if match AstSerializer.propertyFilter options with
       | Some keep => negb (keep key value)
       | None => false
       end
    then result
    else
      match value with
      | AstSerializer.jsUndefined | AstSerializer.jsNull => result
      | _ =>
          if AstSerializer.isObject value
          then Duplicates.mapSet result key
                 (AstSerializer.serializeNode value options)
          else Duplicates.mapSet result key value
      end.

(** What the loop has written below the type entry. *)
Definition writtenBelowType (options : AstSerializer.SerializeOptions)
    (Q : AstSerializer.JsValue -> Prop)
    (obj result : list (string * AstSerializer.JsValue)) : Prop :=
  exists rest,
    result = (typeEntry options obj ++ rest)%list
    /\ NoDup (map fst rest) /\ Forall (writtenProperty Q) rest.

(** An AST node as the parser hands it over: a part definition [A] with
    its [$type], a [$container] link and an absent body. *)
Definition sampleNode : AstSerializer.JsValue :=
  AstSerializer.jsObject
    [ ("$type", AstSerializer.jsString "PartDefinition");
      ("$container", AstSerializer.jsObject []);
      ("name", AstSerializer.jsString "A");
      ("body", AstSerializer.jsUndefined);
      ("specializations",
       AstSerializer.jsArray
         [ AstSerializer.jsObject
             [ ("$type", AstSerializer.jsString "QualifiedName");
               ("names",
                AstSerializer.jsArray [AstSerializer.jsString "B"]) ] ]) ].

(** ** Where the validator reports *)

(** A diagnostic of an [AstNode] check run on [n]: a hint on [n] at its
    name; an error on [n] at its specializations or at its computed-value
    flag; or an error, at the name, on a named element of one of the
    owning memberships of [n]. *)
Definition reportedOnNode (n : AstNode) (d : Diagnostic AstNode) : Prop :=
  (severity d = hint_ /\ node d = n /\ property d = Some "name")
  \/ (severity d = error_ /\ node d = n
      /\ (property d = Some "specializations"
          \/ property d = Some "valueComputed"))
  \/ (severity d = error_ /\ property d = Some "name"
      /\ Js.truthy (name (node d)) = true
      /\ exists m,
           (In m (Validator.orEmpty (namespaceElements n))
            \/ In m (Validator.orEmpty (elements n)))
           /\ isOwningMembership m = true
           /\ element m = Some (node d)).

(** A diagnostic of a check on a [MultiplicityBounds] node: an error on
    the node, at its lower bound or without property. *)
Definition reportedOnMultiplicity (m : Multiplicity.MultiplicityBounds)
    (d : Diagnostic Multiplicity.MultiplicityBounds) : Prop :=
  severity d = error_ /\ node d = m
  /\ (property d = Some "lowerBound" \/ property d = None).

(** A diagnostic of a check on a [QualifiedName] node: an error on the
    node, without property. *)
Definition reportedOnQualifiedName (q : QualifiedName)
    (d : Diagnostic QualifiedName) : Prop :=
  severity d = error_ /\ node d = q /\ property d = None.

(** What holds of every run of a check. *)
Definition reportsLocally (c : Validator.Check) : Prop :=
  match c with
  | Validator.nodeCheck check =>
      forall n d, In d (check n) -> reportedOnNode n d
  | Validator.multiplicityCheck check =>
      forall m d, In d (check m) -> reportedOnMultiplicity m d
  | Validator.qualifiedNameCheck check =>
      forall q d, In d (check q) -> reportedOnQualifiedName q d
  end.

(** ** Entries of one container *)

Definition Step_eq_dec (a b : Step) : {a = b} + {a <> b}.
Proof. decide equality; apply Nat.eq_dec. Defined.

Definition samePath (p q : Path) : bool :=
  if list_eq_dec Step_eq_dec p q then true else false.

(** The names registered in a local scope under the container at the
    path [container], in order. *)
Definition namesUnder (container : Path) (scopes : PrecomputedScopes)
  : list string :=
  map (fun entry => descName (snd entry))
      (filter (fun entry => samePath (fst entry) container) scopes).

(* ===================================================================== *)
(** * Properties                                                          *)
(* ===================================================================== *)

(** ** Strings *)

Lemma startsWith_app (p r : string) : Js.startsWith p (p ++ r) = true.
Proof.
  induction p as [|a p IH]; simpl; [reflexivity|].
  now rewrite Ascii.eqb_refl, IH.
Qed.

Lemma startsWith_spec (p s : string) :
  Js.startsWith p s = true <-> exists r, s = p ++ r.
Proof.
  split.
  - revert s; induction p as [|a p IH]; intros s H; simpl in *.
    + now exists s.
    + destruct s as [|b s]; [discriminate|].
      apply andb_true_iff in H as [Hab Hp].
      apply Ascii.eqb_eq in Hab; subst b.
      destruct (IH _ Hp) as [r ->]. now exists r.
  - intros [r ->]. apply startsWith_app.
Qed.

Lemma substring_app (p r : string) :
  Js.substring (String.length p) (p ++ r) = r.
Proof. induction p as [|a p IH]; simpl; auto. Qed.

Lemma string_app_assoc (a b c : string) : (a ++ b) ++ c = a ++ (b ++ c).
Proof. induction a as [|x a IH]; simpl; [reflexivity|now rewrite IH]. Qed.

Lemma string_app_length (a b : string) :
  String.length (a ++ b) = String.length a + String.length b.
Proof. induction a as [|x a IH]; simpl; [reflexivity|now rewrite IH]. Qed.

Lemma string_app_inv_head (p a b : string) : p ++ a = p ++ b -> a = b.
Proof.
  induction p as [|x p IH]; simpl; intros H; [exact H|].
  injection H as H. auto.
Qed.

Lemma includes_spec (sub s : string) :
  Js.includes sub s = true <-> exists a b, s = a ++ sub ++ b.
Proof.
  split.
  - induction s as [|c s IH]; simpl; intros H.
    + apply orb_true_iff in H as [H|H]; [|discriminate].
      apply startsWith_spec in H as [r Hr]. now exists "", r.
    + apply orb_true_iff in H as [H|H].
      * apply startsWith_spec in H as [r Hr]. now exists "", r.
      * destruct (IH H) as (a & b & ->). now exists (String c a), b.
  - intros (a & b & ->). induction a as [|c a IH]; simpl.
    + pose proof (startsWith_app sub b) as H.
      destruct (sub ++ b); simpl; now rewrite H.
    + rewrite IH. apply orb_true_r.
Qed.

(** ** Multiplicity bounds *)

Section MultiplicityFacts.
Import Multiplicity.

(** The validator on a node whose lower bound has a value: the negative
    lower bound is tested first, the order of the bounds second. *)
Lemma checkMultiplicity_lower (m : MultiplicityBounds) (L : Z) :
  lowerValue (lowerBound m) = Some L ->
  checkMultiplicity m =
    if (L <? 0)%Z && negb (isUnbounded L) then [negativeLowerDiagnostic m]
    else match parseMultiplicityBound (upperBound m) with
         | Some U => if negb (isUnbounded U) && (L >? U)%Z
                     then [orderDiagnostic m L U] else []
         | None => []
         end.
Proof.
  intros HL. unfold checkMultiplicity, validateMultiplicityBounds.
  rewrite HL.
  destruct ((L <? 0)%Z && negb (isUnbounded L)); [reflexivity|].
  destruct (parseMultiplicityBound (upperBound m)) as [U|]; [|reflexivity].
  destruct (negb (isUnbounded U) && (L >? U)%Z); reflexivity.
Qed.

Lemma checkMultiplicity_no_lower (m : MultiplicityBounds) :
  lowerValue (lowerBound m) = None -> checkMultiplicity m = [].
Proof.
  intros HL. unfold checkMultiplicity, validateMultiplicityBounds.
  now rewrite HL.
Qed.

Lemma isUnbounded_false (z : Z) : z <> UNBOUNDED -> isUnbounded z = false.
Proof. intros H. now apply Z.eqb_neq. Qed.

End MultiplicityFacts.

(** ** Bounds that yield a number *)

Section BoundFacts.
Import Multiplicity.

Lemma parseInt_unsigned (s : string) (radix : Z) :
  Js.parseInt s radix =
  if (negb (radix =? 0)%Z) && ((radix <? 2)%Z || (36 <? radix)%Z) then None
  else
    let stripPrefix := (radix =? 0)%Z || (radix =? 16)%Z in
    let R0 := if (radix =? 0)%Z then 10%Z else radix in
    let '(R, S2) :=
      if stripPrefix
         && (Js.startsWith "0x" (unsigned s) || Js.startsWith "0X" (unsigned s))
      then (16%Z, Js.substring 2 (unsigned s)) else (R0, unsigned s) in
    match Js.radixDigits R S2 with
    | [] => None
    | ds => Some (signOf s * Js.mathInt R ds)%Z
    end.
Proof.
  unfold Js.parseInt, unsigned, signOf.
  destruct (Js.trimStart s) as [|c r]; [reflexivity|].
  destruct c as [[] [] [] [] [] [] [] []]; reflexivity.
Qed.

Lemma radixDigits_nil (R : Z) (s : string) :
  Js.radixDigits R s = [] <-> beginsWithDigit R s = false.
Proof.
  destruct s as [|c r]; simpl; [tauto|]. unfold digitOf.
  destruct (Js.digitValue c) as [d|]; [|tauto].
  destruct (d <? R)%Z; split; intros H; try reflexivity; discriminate H.
Qed.

Lemma parseInt_None (s : string) (R : Z) :
  In R [2; 8; 10; 16]%Z ->
  Js.parseInt s R = None <-> beginsNumeral R s = false.
Proof.
  intros HR. rewrite parseInt_unsigned. unfold beginsNumeral.
  assert (Hcases : R = 16%Z \/ (R <> 16 /\ In R [2; 8; 10])%Z).
  { simpl in HR. simpl. intuition (subst; auto; right; split; auto; lia). }
  destruct Hcases as [->|[Hne Hin]].
  - change ((negb (16 =? 0)%Z) && ((16 <? 2)%Z || (36 <? 16)%Z)) with false.
    change ((16 =? 0)%Z || (16 =? 16)%Z) with true.
    change (16 =? 16)%Z with true. change (16 =? 0)%Z with false.
    cbv zeta iota beta.
    rewrite !andb_true_l.
    destruct (Js.startsWith "0x" (unsigned s) || Js.startsWith "0X" (unsigned s));
      cbv iota beta.
    + rewrite <- radixDigits_nil.
      destruct (Js.radixDigits 16 (Js.substring 2 (unsigned s)));
        split; intros H; try reflexivity; discriminate H.
    + rewrite <- radixDigits_nil.
      destruct (Js.radixDigits 16 (unsigned s));
        split; intros H; try reflexivity; discriminate H.
  - assert (E16 : (R =? 16)%Z = false) by now apply Z.eqb_neq.
    assert (E0 : (R =? 0)%Z = false)
      by (apply Z.eqb_neq; simpl in Hin; intuition lia).
    assert (Elo : (R <? 2)%Z = false)
      by (apply Z.ltb_ge; simpl in Hin; intuition lia).
    assert (Ehi : (36 <? R)%Z = false)
      by (apply Z.ltb_ge; simpl in Hin; intuition lia).
    rewrite E16, E0, Elo, Ehi. cbv zeta iota beta. simpl andb. simpl orb.
    cbv iota beta.
    rewrite <- radixDigits_nil.
    destruct (Js.radixDigits R (unsigned s));
      split; intros H; try reflexivity; discriminate H.
Qed.

Lemma radixOf_cases (bound : string) : In (radixOf bound) [2; 8; 10; 16]%Z.
Proof.
  unfold radixOf.
  destruct (prefixed "0x" bound), (prefixed "0b" bound),
    (prefixed "0o" bound); simpl; auto.
Qed.

(** Behind the test for [*], the bound is read by [parseInt] in the radix
    of its prefix. *)
Lemma parseMultiplicityBound_radix (bound : string) :
  bound <> "*" ->
  parseMultiplicityBound bound
  = Js.parseInt (digitsOf bound) (radixOf bound).
Proof.
  intros Hne. unfold parseMultiplicityBound, digitsOf, radixOf, prefixed.
  destruct (String.eqb_spec bound "*") as [->|_]; [contradiction|].
  cbv zeta.
  destruct (Js.startsWith "0x" (Js.toLowerCase bound)); [reflexivity|].
  destruct (Js.startsWith "0b" (Js.toLowerCase bound)); [reflexivity|].
  destruct (Js.startsWith "0o" (Js.toLowerCase bound)); reflexivity.
Qed.

Lemma parseMultiplicityBound_None (bound : string) :
  parseMultiplicityBound bound = None <-> yieldsNumber bound = false.
Proof.
  unfold yieldsNumber.
  destruct (String.eqb_spec bound "*") as [->|Hne].
  - split; intros H; [now vm_compute in H|now cbn in H].
  - rewrite (parseMultiplicityBound_radix bound Hne). simpl orb.
    apply parseInt_None, radixOf_cases.
Qed.

Lemma digit_unsigned (c : ascii) (r : string) :
  Js.digitValue c <> None -> unsigned (String c r) = String c r.
Proof.
  destruct c as [[] [] [] [] [] [] [] []]; intros H; try reflexivity;
    exfalso; apply H; reflexivity.
Qed.

Lemma digitOf_value (R : Z) (c : ascii) :
  digitOf R c = true -> Js.digitValue c <> None.
Proof. unfold digitOf. now destruct (Js.digitValue c). Qed.

Lemma hex_not_x (c : ascii) :
  digitOf 16 c = true -> Ascii.eqb "x" c = false /\ Ascii.eqb "X" c = false.
Proof.
  destruct c as [[] [] [] [] [] [] [] []]; vm_compute; intros H;
    try discriminate H; split; reflexivity.
Qed.

Lemma decimal_not_letter (c : ascii) :
  digitOf 10 c = true ->
  Ascii.eqb "x" (Js.lowerChar c) = false
  /\ Ascii.eqb "b" (Js.lowerChar c) = false
  /\ Ascii.eqb "o" (Js.lowerChar c) = false.
Proof.
  destruct c as [[] [] [] [] [] [] [] []]; vm_compute; intros H;
    try discriminate H; repeat split; reflexivity.
Qed.

(** A numeral begins a number of its radix. *)
Lemma numeral_begins (R : Z) (s : string) :
  numeral R s = true -> beginsNumeral R s = true.
Proof.
  unfold numeral, beginsNumeral. intros H.
  apply andb_true_iff in H as [Hfirst Hall].
  destruct s as [|c r]; [discriminate|]. simpl in Hfirst.
  rewrite (digit_unsigned c r (digitOf_value R c Hfirst)).
  destruct (R =? 16)%Z eqn:ER; [|exact Hfirst].
  apply Z.eqb_eq in ER. subst R.
  assert (Hx : Js.startsWith "0x" (String c r)
               || Js.startsWith "0X" (String c r) = false).
  { destruct r as [|c2 r2]; [simpl; now rewrite !andb_false_r|].
    simpl in Hall. apply andb_true_iff in Hall as [_ Hall].
    apply andb_true_iff in Hall as [H2 _].
    destruct (hex_not_x c2 H2) as [Hl Hu].
    cbn [Js.startsWith]. rewrite Hl, Hu. simpl. now rewrite !andb_false_r. }
  rewrite Hx. exact Hfirst.
Qed.

Lemma prefixed_0b_not_0x (bound : string) :
  prefixed "0b" bound = true -> prefixed "0x" bound = false.
Proof.
  unfold prefixed.
  destruct (Js.toLowerCase bound) as [|a [|b r]]; cbn [Js.startsWith];
    intros H; try discriminate H; try (now rewrite andb_false_r).
  apply andb_true_iff in H as [_ H].
  apply andb_true_iff in H as [H _]. apply Ascii.eqb_eq in H. subst b.
  apply andb_false_r.
Qed.

Lemma prefixed_0o_not_0x (bound : string) :
  prefixed "0o" bound = true ->
  prefixed "0x" bound = false /\ prefixed "0b" bound = false.
Proof.
  unfold prefixed.
  destruct (Js.toLowerCase bound) as [|a [|b r]]; cbn [Js.startsWith];
    intros H; try discriminate H; try (now rewrite andb_false_r).
  apply andb_true_iff in H as [_ H].
  apply andb_true_iff in H as [H _]. apply Ascii.eqb_eq in H. subst b.
  split; apply andb_false_r.
Qed.

Lemma numeral_decimal_unprefixed (bound : string) :
  numeral 10 bound = true ->
  prefixed "0x" bound = false /\ prefixed "0b" bound = false
  /\ prefixed "0o" bound = false.
Proof.
  unfold numeral, prefixed. intros H.
  apply andb_true_iff in H as [_ Hall].
  destruct bound as [|c1 [|c2 r]];
    cbn [Js.startsWith Js.toLowerCase]; try (repeat split; reflexivity).
  - now rewrite !andb_false_r.
  - cbn [allDigits] in Hall. apply andb_true_iff in Hall as [_ Hall].
    apply andb_true_iff in Hall as [H2 _].
    destruct (decimal_not_letter c2 H2) as (-> & -> & ->).
    cbn [andb]. now rewrite !andb_false_r.
Qed.

Lemma prefixed_not_star (p : string) (bound : string) :
  prefixed (String "0" p) bound = true -> bound <> "*".
Proof. intros H ->. discriminate H. Qed.

(** Every notation of the documentation yields a number. *)
Lemma notation_yieldsNumber (bound : string) :
  notation bound = true -> yieldsNumber bound = true.
Proof.
  unfold notation, yieldsNumber. intros H.
  destruct (String.eqb bound "*"); [reflexivity|]. simpl orb in *.
  unfold radixOf, digitsOf.
  repeat (apply orb_true_iff in H as [H|H]).
  - destruct (numeral_decimal_unprefixed bound H) as (-> & -> & ->).
    now apply numeral_begins.
  - apply andb_true_iff in H as [Hp H]. rewrite Hp. simpl.
    now apply numeral_begins.
  - apply andb_true_iff in H as [Hp H].
    rewrite (prefixed_0b_not_0x bound Hp), Hp. simpl.
    now apply numeral_begins.
  - apply andb_true_iff in H as [Hp H].
    destruct (prefixed_0o_not_0x bound Hp) as [-> ->]. rewrite Hp. simpl.
    now apply numeral_begins.
Qed.

End BoundFacts.

(** The notations of a bound, as the documentation of
    [parseMultiplicityBound] lists them. *)
Example parseMultiplicityBound_notations :
  map Multiplicity.parseMultiplicityBound
      ["*"; "10"; "0x10"; "0b10"; "0o10"; "0XfF"; "many"]
  = [Some (-1)%Z; Some 10%Z; Some 16%Z; Some 2%Z; Some 8%Z; Some 255%Z; None].
Proof. reflexivity. Qed.

(** The scenario of the specification: [part x [10..5]] yields the one
    error. *)
Example checkMultiplicity_10_5 :
  map message
      (Multiplicity.checkMultiplicity (Multiplicity.mkBounds (Some "10") "5"))
  = ["Lower bound (10) cannot be greater than upper bound (5)"].
Proof. reflexivity. Qed.

(** C4, as stated, fails: with the lower bound [-5] and the finite upper
    bound [3] the validator emits an error although the lower bound is not
    greater than the upper bound, and the message is not the ordering
    message. *)
Lemma C4_counterexample :
  let m := Multiplicity.mkBounds (Some "-5") "3" in
  Multiplicity.lowerValue (Multiplicity.lowerBound m) = Some (-5)%Z
  /\ Multiplicity.parseMultiplicityBound (Multiplicity.upperBound m) = Some 3%Z
  /\ Multiplicity.isUnbounded 3 = false
  /\ ~ (-5 > 3)%Z
  /\ Multiplicity.checkMultiplicity m = [negativeLowerDiagnostic m].
Proof. cbv zeta. repeat split; try reflexivity. lia. Qed.

(** C4 (amended): for a MultiplicityBounds node whose upper bound parses to
    a finite value [U] and whose lower bound parses to [L] (0 when absent),
    both within the range where doubles are exact: when [L] is not negative
    or is the sentinel -1, the validator emits an error iff [L > U], and the
    only message it emits is the ordering message with the parsed values
    substituted; when [L] is negative and not the sentinel, it emits the
    error [Lower bound cannot be negative] instead. *)
Theorem C4_bounds_order (m : Multiplicity.MultiplicityBounds) (L U : Z) :
  Multiplicity.lowerValue (Multiplicity.lowerBound m) = Some L ->
  Multiplicity.parseMultiplicityBound (Multiplicity.upperBound m) = Some U ->
  U <> Multiplicity.UNBOUNDED ->
  Js.safeInteger L -> Js.safeInteger U ->
  ((0 <= L)%Z \/ L = Multiplicity.UNBOUNDED ->
     ((exists d, In d (Multiplicity.checkMultiplicity m)
                 /\ severity d = error_) <-> (L > U)%Z)
     /\ (forall d, In d (Multiplicity.checkMultiplicity m) ->
                   d = orderDiagnostic m L U))
  /\ ((L < 0)%Z /\ L <> Multiplicity.UNBOUNDED ->
      Multiplicity.checkMultiplicity m = [negativeLowerDiagnostic m]).
Proof.
  intros HL HU Hfin _ _.
  rewrite (checkMultiplicity_lower m L HL), HU.
  rewrite (isUnbounded_false U Hfin). simpl negb. rewrite andb_true_l.
  split.
  - intros HLrange.
    assert (Hneg : (L <? 0)%Z && negb (Multiplicity.isUnbounded L) = false).
    { destruct HLrange as [H|H].
      - apply andb_false_iff. left. apply Z.ltb_ge. exact H.
      - subst L. reflexivity. }
    rewrite Hneg.
    destruct (L >? U)%Z eqn:E.
    + apply Z.gtb_lt in E. split.
      * split; [intros _; lia|]. intros _. exists (orderDiagnostic m L U).
        split; [now left|reflexivity].
      * intros d [<-|[]]. reflexivity.
    + assert (L <= U)%Z by (rewrite Z.gtb_ltb in E; now apply Z.ltb_ge in E).
      split.
      * split; [intros (d & [] & _)|lia].
      * intros d [].
  - intros [Hlt Hne].
    assert (Hneg : (L <? 0)%Z && negb (Multiplicity.isUnbounded L) = true).
    { apply andb_true_iff. split; [now apply Z.ltb_lt|].
      now rewrite (isUnbounded_false L Hne). }
    now rewrite Hneg.
Qed.

Lemma C4_bounds_order_witness :
  exists d,
    In d (Multiplicity.checkMultiplicity (Multiplicity.mkBounds (Some "10") "5"))
    /\ severity d = error_.
Proof.
  destruct (C4_bounds_order (Multiplicity.mkBounds (Some "10") "5") 10 5)
    as [H _].
  - reflexivity.
  - reflexivity.
  - discriminate.
  - unfold Js.safeInteger; lia.
  - unfold Js.safeInteger; lia.
  - destruct H as [[_ H] _]; [left; lia|]. apply H. lia.
Defined.

(** C10, as stated, fails four times: a lower bound [*] with an upper
    bound that parses below the sentinel produces the ordering error; an
    upper bound that fails to parse does not silence the
    negative-lower-bound error; a bound that is none of the notations may
    still yield a number, as [12abc] yields 12, and the node gets the
    ordering error; and the empty lower bound, which yields null, counts
    as absent, so that the node gets the ordering error below an upper
    bound under 0. *)
Lemma C10_counterexample :
  Multiplicity.checkMultiplicity (Multiplicity.mkBounds (Some "*") "-5")
    = [orderDiagnostic (Multiplicity.mkBounds (Some "*") "-5") (-1) (-5)]
  /\ Multiplicity.parseMultiplicityBound "abc" = None
  /\ Multiplicity.checkMultiplicity (Multiplicity.mkBounds (Some "-5") "abc")
     = [negativeLowerDiagnostic (Multiplicity.mkBounds (Some "-5") "abc")]
  /\ notation "12abc" = false
  /\ Multiplicity.parseMultiplicityBound "12abc" = Some 12%Z
  /\ Multiplicity.checkMultiplicity (Multiplicity.mkBounds (Some "12abc") "3")
     = [orderDiagnostic (Multiplicity.mkBounds (Some "12abc") "3") 12 3]
  /\ Multiplicity.parseMultiplicityBound "" = None
  /\ Multiplicity.checkMultiplicity (Multiplicity.mkBounds (Some "") "-3")
     = [orderDiagnostic (Multiplicity.mkBounds (Some "") "-3") 0 (-3)].
Proof. repeat split; reflexivity. Qed.

(** C10 (amended): a lower bound [*] parses to the sentinel -1, never
    produces the negative-lower-bound error, and produces no diagnostic
    unless the upper bound parses to a value below -1.  A bound yields
    null exactly when it is not [*] and the text read in the radix of its
    prefix does not begin, behind white space and an optional sign (and
    in radix 16 behind an optional [0x]), with a digit of that radix; so
    every notation of the documentation yields a number.  A lower bound
    that is not empty and yields null leaves the node without a
    diagnostic, whatever the upper bound; the empty lower bound is
    validated as the absent one.  Under an upper bound that yields null
    the node gets the negative-lower-bound error when the lower bound is
    negative and not the sentinel, and no diagnostic otherwise. *)
Theorem C10_lenient_edges :
  Multiplicity.parseMultiplicityBound "*" = Some Multiplicity.UNBOUNDED
  /\ (forall ub d,
        In d (Multiplicity.checkMultiplicity
                (Multiplicity.mkBounds (Some "*") ub)) ->
        message d <> "Lower bound cannot be negative")
  /\ (forall ub,
        (forall U, Multiplicity.parseMultiplicityBound ub = Some U ->
                   (Multiplicity.UNBOUNDED <= U)%Z) ->
        Multiplicity.checkMultiplicity (Multiplicity.mkBounds (Some "*") ub)
        = [])
  /\ (forall bound,
        Multiplicity.parseMultiplicityBound bound = None
        <-> yieldsNumber bound = false)
  /\ (forall bound, notation bound = true -> yieldsNumber bound = true)
  /\ (forall lb ub,
        lb <> "" -> yieldsNumber lb = false ->
        Multiplicity.checkMultiplicity (Multiplicity.mkBounds (Some lb) ub)
        = [])
  /\ (forall ub,
        Multiplicity.validateMultiplicityBounds (Some "") ub
        = Multiplicity.validateMultiplicityBounds None ub)
  /\ (forall lbo ub,
        yieldsNumber ub = false ->
        Multiplicity.checkMultiplicity (Multiplicity.mkBounds lbo ub)
        = match Multiplicity.lowerValue lbo with
          | Some L =>
              if (L <? 0)%Z && negb (Multiplicity.isUnbounded L)
              then [negativeLowerDiagnostic (Multiplicity.mkBounds lbo ub)]
              else []
          | None => []
          end).
Proof.
  assert (Hstar : forall ub,
            Multiplicity.lowerValue
              (Multiplicity.lowerBound (Multiplicity.mkBounds (Some "*") ub))
            = Some (-1)%Z) by reflexivity.
  split; [reflexivity|]. repeat apply conj.
  - intros ub d. rewrite (checkMultiplicity_lower _ _ (Hstar ub)).
    simpl. destruct (Multiplicity.parseMultiplicityBound ub) as [U|];
      [|intros []].
    destruct (negb (Multiplicity.isUnbounded U) && (-1 >? U)%Z);
      [|intros []].
    intros [<-|[]]. unfold orderDiagnostic, orderMessage. simpl.
    discriminate.
  - intros ub HU. rewrite (checkMultiplicity_lower _ _ (Hstar ub)).
    simpl. destruct (Multiplicity.parseMultiplicityBound ub) as [U|] eqn:E;
      [|reflexivity].
    specialize (HU U eq_refl). unfold Multiplicity.UNBOUNDED in HU.
    replace (-1 >? U)%Z with false; [now rewrite andb_false_r|].
    symmetry. rewrite Z.gtb_ltb. apply Z.ltb_ge. exact HU.
  - apply parseMultiplicityBound_None.
  - apply notation_yieldsNumber.
  - intros lb ub Hlb Hnull. apply checkMultiplicity_no_lower.
    apply parseMultiplicityBound_None in Hnull.
    destruct lb; [contradiction|exact Hnull].
  - reflexivity.
  - intros lbo ub Hnull. apply parseMultiplicityBound_None in Hnull.
    destruct (Multiplicity.lowerValue lbo) as [L|] eqn:E.
    + rewrite (checkMultiplicity_lower (Multiplicity.mkBounds lbo ub) L E).
      cbn [Multiplicity.upperBound]. rewrite Hnull.
      now destruct ((L <? 0)%Z && negb (Multiplicity.isUnbounded L)).
    + now apply checkMultiplicity_no_lower.
Qed.

Lemma C10_lenient_edges_witness :
  Multiplicity.checkMultiplicity (Multiplicity.mkBounds (Some "*") "5") = []
  /\ Multiplicity.parseMultiplicityBound "0x" = None
  /\ yieldsNumber "0XfF" = true
  /\ Multiplicity.checkMultiplicity (Multiplicity.mkBounds (Some "x") "5") = []
  /\ Multiplicity.checkMultiplicity (Multiplicity.mkBounds (Some "2") "x") = []
  /\ Multiplicity.checkMultiplicity (Multiplicity.mkBounds (Some "-2") "x")
     = [negativeLowerDiagnostic (Multiplicity.mkBounds (Some "-2") "x")].
Proof.
  destruct C10_lenient_edges
    as (_ & _ & Hstar & Hnull & Hnotation & Hlower & _ & Hupper).
  repeat apply conj.
  - apply Hstar. intros U H. vm_compute in H. injection H as <-.
    unfold Multiplicity.UNBOUNDED. lia.
  - apply Hnull. reflexivity.
  - apply Hnotation. reflexivity.
  - apply Hlower; [discriminate|reflexivity].
  - rewrite (Hupper (Some "2") "x" eq_refl). reflexivity.
  - rewrite (Hupper (Some "-2") "x" eq_refl). reflexivity.
Defined.

(** ** Validation result *)

Lemma existsb_map {A B} (f : A -> B) (p : B -> bool) (l : list A) :
  existsb p (map f l) = existsb (fun x => p (f x)) l.
Proof. induction l as [|x l IH]; simpl; [reflexivity|now rewrite IH]. Qed.

(** C7: the [isValid] field that [validateDocument] returns is true iff
    the diagnostic list of the document holds no diagnostic of severity 1;
    a list whose diagnostics all have severity 2, 3 or 4 is valid.  The
    same holds of the list the result carries. *)
Theorem C7_isValid_iff_no_error
    (documentDiagnostics : option (list ParserUtils.LspDiagnostic)) :
  let result := ParserUtils.validateDocument documentDiagnostics in
  let given := match documentDiagnostics with Some l => l | None => [] end in
  (ParserUtils.isValid result = true <->
     forall d, In d given -> ParserUtils.lspSeverity d <> Some 1)
  /\ (ParserUtils.isValid result = true <->
        forall d, In d (ParserUtils.diagnostics result) ->
                  ParserUtils.lspSeverity d <> Some 1)
  /\ ((forall d, In d given ->
                 ParserUtils.lspSeverity d = Some 2
                 \/ ParserUtils.lspSeverity d = Some 3
                 \/ ParserUtils.lspSeverity d = Some 4) ->
      ParserUtils.isValid result = true).
Proof.
  cbv zeta.
  set (given := match documentDiagnostics with Some l => l | None => [] end).
  assert (Hsev : forall d, ParserUtils.hasSeverity 1 d = true
                           <-> ParserUtils.lspSeverity d = Some 1).
  { intros d. unfold ParserUtils.hasSeverity.
    destruct (ParserUtils.lspSeverity d) as [k|]; [|split; discriminate].
    rewrite Nat.eqb_eq. split; [now intros ->|now intros [= ->]]. }
  assert (Hgiven : ParserUtils.isValid
                     (ParserUtils.validateDocument documentDiagnostics) = true
                   <-> forall d, In d given ->
                                 ParserUtils.lspSeverity d <> Some 1).
  { unfold ParserUtils.validateDocument. simpl ParserUtils.isValid.
    fold given. rewrite existsb_map, negb_true_iff.
    split.
    - intros H d Hd Hs.
      assert (existsb
                (fun x => ParserUtils.hasSeverity 1
                   (ParserUtils.mkLspDiagnostic (ParserUtils.lspSeverity x)
                      (ParserUtils.simplifyParserError
                         (ParserUtils.lspMessage x)))) given = true).
      { apply existsb_exists. exists d. split; [exact Hd|].
        apply Hsev. exact Hs. }
      congruence.
    - intros H. apply not_true_is_false. intros Hex.
      apply existsb_exists in Hex as (d & Hd & Hs).
      apply Hsev in Hs. exact (H d Hd Hs). }
  split; [exact Hgiven|]. split.
  - rewrite Hgiven. unfold ParserUtils.validateDocument.
    simpl ParserUtils.diagnostics. fold given. split.
    + intros H d Hd. apply in_map_iff in Hd as (d0 & <- & Hd0).
      exact (H d0 Hd0).
    + intros H d Hd. apply (H (ParserUtils.mkLspDiagnostic
                                 (ParserUtils.lspSeverity d)
                                 (ParserUtils.simplifyParserError
                                    (ParserUtils.lspMessage d)))).
      apply in_map_iff. now exists d.
  - intros H. apply Hgiven. intros d Hd Hs.
    destruct (H d Hd) as [E|[E|E]]; rewrite E in Hs; discriminate.
Qed.

Lemma C7_isValid_iff_no_error_witness :
  ParserUtils.isValid
    (ParserUtils.validateDocument
       (Some [ ParserUtils.mkLspDiagnostic (Some 2) "unused";
               ParserUtils.mkLspDiagnostic (Some 4)
                 "Part 'x' has no explicit type" ]))
  = true.
Proof.
  destruct (C7_isValid_iff_no_error
              (Some [ ParserUtils.mkLspDiagnostic (Some 2) "unused";
                      ParserUtils.mkLspDiagnostic (Some 4)
                        "Part 'x' has no explicit type" ]))
    as (_ & _ & H).
  apply H. intros d [<-|[<-|[]]]; simpl; tauto.
Defined.

(** ** Parser error messages *)

(** C8 fails on the code: a message of the Expecting shape that lists only
    two alternatives is returned with [, ...] appended although no further
    alternative exists, and a message that lists six alternatives is
    returned with the first five and without [, ...] although a sixth
    exists. *)
Theorem C8_has_more_misreported :
  ParserUtils.expectingMatch twoAlternatives = true
  /\ allAlternatives (String.length twoAlternatives) twoAlternatives 0
     = ["Package"; "Part"]
  /\ ParserUtils.simplifyParserError twoAlternatives
     = "Unexpected 'foo'. Expected: Package, Part, ..."
  /\ ParserUtils.expectingMatch sixAlternatives = true
  /\ allAlternatives (String.length sixAlternatives) sixAlternatives 0
     = ["A"; "B"; "C"; "D"; "E"; "F"]
  /\ ParserUtils.simplifyParserError sixAlternatives
     = "Unexpected 'x'. Expected: A, B, C, D, E".
Proof. repeat split; vm_compute; reflexivity. Qed.

(** The part of C8 that holds: a message of the Expecting shape from which
    no alternative can be extracted is cut to 200 units followed by [...]
    when it is longer than that, and returned unchanged otherwise; a
    message of another shape is returned unchanged. *)
Lemma simplifyParserError_fallback (message : string) :
  ParserUtils.altExec message 0 = (None, 0) ->
  ParserUtils.simplifyParserError message =
    if ParserUtils.expectingMatch message && (200 <? String.length message)
    then Js.slice0 200 message ++ "..." else message.
Proof.
  intros H. unfold ParserUtils.simplifyParserError.
  destruct (ParserUtils.expectingMatch message); [|reflexivity].
  simpl. rewrite H. simpl. reflexivity.
Qed.

(** ** Self-specialization *)

Lemma checkCircularSpecialization_self (node : AstNode)
    (specs : list QualifiedName) (c : ascii) (r : string)
    (spec : QualifiedName) :
  In spec specs -> Ast.names spec = Some [String c r] ->
  In (selfSpecializationDiagnostic node (String c r))
     (Specialization.checkCircularSpecialization node (Some specs)
        (Some (String c r)) None).
Proof.
  intros Hin Hnames. unfold Specialization.checkCircularSpecialization.
  apply in_flat_map. exists spec. split; [exact Hin|].
  rewrite Hnames, String.eqb_refl. now left.
Qed.

(** C6, as stated, fails: nothing is registered that reports the
    self-specialization of an action definition. *)
Lemma C6_counterexample :
  let def := definition "ActionDefinition" (Some "A") [qn ["A"]] in
  name def = Some "A"
  /\ specializations def = Some [qn ["A"]]
  /\ Validator.validateNode def = [].
Proof. repeat split; reflexivity. Qed.

(** C6 (amended): for every PartDefinition node, and every TypeBodyRule
    node, that has a non-empty name and whose specializations contain a
    single-part QualifiedName equal to that name, validation emits an error
    with the message [Part definition '<name>' cannot specialize itself];
    the node of [part def A :> A;] yields exactly one diagnostic, that
    error. *)
Theorem C6_self_specialization (def : AstNode) (n : string)
    (specs : list QualifiedName) (spec : QualifiedName) :
  type_ def = "PartDefinition" \/ type_ def = "TypeBodyRule" ->
  name def = Some n -> n <> "" ->
  specializations def = Some specs ->
  In spec specs -> Ast.names spec = Some [n] ->
  In (selfSpecializationDiagnostic def n) (Validator.validateNode def)
  /\ Validator.validateNode (partDefinition (Some "A") [qn ["A"]])
     = [selfSpecializationDiagnostic
          (partDefinition (Some "A") [qn ["A"]]) "A"].
Proof.
  intros Hty Hname Hn Hspecs Hin Hnames.
  split; [|reflexivity].
  destruct n as [|c r]; [contradiction|].
  pose proof (checkCircularSpecialization_self def specs c r spec Hin Hnames)
    as Hself.
  unfold Validator.validateNode, Validator.dispatch, Validator.checks.
  destruct Hty as [Hty|Hty]; rewrite Hty; simpl; rewrite app_nil_r.
  - unfold Validator.checkPartDefinition. rewrite Hty. simpl.
    apply in_or_app. right. now rewrite Hspecs, Hname.
  - unfold Validator.checkTypeBodyRule.
    apply in_or_app. right. now rewrite Hspecs, Hname.
Qed.

Lemma C6_self_specialization_witness :
  In (selfSpecializationDiagnostic
        (partDefinition (Some "B") [qn ["Base"]; qn ["B"]]) "B")
     (Validator.validateNode
        (partDefinition (Some "B") [qn ["Base"]; qn ["B"]])).
Proof.
  apply (C6_self_specialization
           (partDefinition (Some "B") [qn ["Base"]; qn ["B"]]) "B"
           [qn ["Base"]; qn ["B"]] (qn ["B"])).
  - left. reflexivity.
  - reflexivity.
  - discriminate.
  - reflexivity.
  - right. left. reflexivity.
  - reflexivity.
Defined.

(** ** Duplicate names *)

Section DuplicateFacts.
Import Duplicates.

Lemma group_app n l1 l2 : group n (l1 ++ l2) = (group n l1 ++ group n l2)%list.
Proof. apply filter_app. Qed.

Lemma mapGet_In {V} (m : JsMap V) k v : mapGet m k = Some v -> In (k, v) m.
Proof.
  induction m as [|[k' v'] m IH]; simpl; [discriminate|].
  destruct (String.eqb k' k) eqn:E.
  - apply String.eqb_eq in E. subst k'. intros [= ->]. now left.
  - intros H. right. auto.
Qed.

Lemma mapGet_None {V} (m : JsMap V) k :
  mapGet m k = None -> ~ In k (map fst m).
Proof.
  induction m as [|[k' v'] m IH]; simpl; [tauto|].
  destruct (String.eqb k' k) eqn:E; [discriminate|].
  apply String.eqb_neq in E. intros H [H1|H1]; [contradiction|].
  now apply IH.
Qed.

Lemma mapSet_keys_present {V} (m : JsMap V) k v :
  In k (map fst m) -> map fst (mapSet m k v) = map fst m.
Proof.
  induction m as [|[k' v'] m IH]; simpl; [tauto|].
  destruct (String.eqb k' k) eqn:E; [reflexivity|].
  apply String.eqb_neq in E. intros [H|H]; [contradiction|].
  simpl. now rewrite IH.
Qed.

Lemma mapSet_keys_absent {V} (m : JsMap V) k v :
  ~ In k (map fst m) -> map fst (mapSet m k v) = (map fst m ++ [k])%list.
Proof.
  induction m as [|[k' v'] m IH]; simpl; [reflexivity|].
  intros H. destruct (String.eqb k' k) eqn:E.
  - apply String.eqb_eq in E. tauto.
  - simpl. rewrite IH; tauto.
Qed.

Lemma mapSet_In {V} (m : JsMap V) k v k' v' :
  NoDup (map fst m) ->
  In (k', v') (mapSet m k v) ->
  (k' = k /\ v' = v) \/ (k' <> k /\ In (k', v') m).
Proof.
  induction m as [|[k0 v0] m IH]; simpl; intros Hnd H.
  - destruct H as [[= <- <-]|[]]. now left.
  - inversion Hnd as [|? ? Hnotin Hnd']; subst.
    destruct (String.eqb k0 k) eqn:E.
    + apply String.eqb_eq in E. subst k0.
      destruct H as [[= <- <-]|H]; [now left|].
      right. split; [|now right].
      intros ->. apply Hnotin. apply in_map_iff. now exists (k, v').
    + apply String.eqb_neq in E.
      destruct H as [[= <- <-]|H].
      * right. split; [exact E|now left].
      * destruct (IH Hnd' H) as [?|[? ?]]; [now left|right; split; auto].
Qed.

Lemma mapSet_NoDup {V} (m : JsMap V) k v :
  NoDup (map fst m) -> NoDup (map fst (mapSet m k v)).
Proof.
  intros Hnd. destruct (in_dec string_dec k (map fst m)) as [H|H].
  - now rewrite mapSet_keys_present.
  - rewrite mapSet_keys_absent by exact H.
    apply NoDup_app; [exact Hnd|repeat constructor; simpl; tauto|].
    intros x Hx [<-|[]]. contradiction.
Qed.

Lemma mapSet_key_In {V} (m : JsMap V) k v : In k (map fst (mapSet m k v)).
Proof.
  destruct (in_dec string_dec k (map fst m)) as [H|H].
  - now rewrite mapSet_keys_present.
  - rewrite mapSet_keys_absent by exact H. apply in_or_app. right. now left.
Qed.

Lemma mapSet_keys_incl {V} (m : JsMap V) k v k' :
  In k' (map fst m) -> In k' (map fst (mapSet m k v)).
Proof.
  intros Hk'. destruct (in_dec string_dec k (map fst m)) as [H|H].
  - now rewrite mapSet_keys_present.
  - rewrite mapSet_keys_absent by exact H. apply in_or_app. now left.
Qed.

Lemma hasName_falsy (k : string) (e : AstNode) :
  k <> "" -> Js.truthy (name e) = false -> hasName k e = false.
Proof.
  unfold hasName. intros Hk He.
  destruct (name e) as [[|c r]|]; try discriminate; [|reflexivity].
  apply String.eqb_neq. congruence.
Qed.

Lemma Grouped_step c m seen e :
  Grouped m seen ->
  Grouped (snd (collectStep getElementName (c, m) e)) (seen ++ [e]).
Proof.
  intros (Hnd & Hval & Hkey). unfold collectStep, getElementName.
  destruct (name e) as [[|a r]|] eqn:En; simpl snd.
  - (* the empty name *)
    assert (Hg : forall k, k <> "" -> group k (seen ++ [e]) = group k seen).
    { intros k Hk. rewrite group_app. simpl.
      rewrite (hasName_falsy k e Hk); [apply app_nil_r|now rewrite En]. }
    split; [exact Hnd|]. split.
    + intros k v Hin. destruct (Hval k v Hin) as (Hk & Hv & Hne).
      now rewrite Hg.
    + intros k Hk. rewrite Hg by exact Hk. now apply Hkey.
  - (* a name *)
    set (n := String a r) in *.
    assert (Hn : n <> "") by discriminate.
    assert (Hself : hasName n e = true).
    { unfold hasName. rewrite En. apply String.eqb_refl. }
    assert (Hexisting :
              match mapGet m n with Some l => l | None => [] end
              = group n seen).
    { destruct (mapGet m n) as [l|] eqn:Eg.
      - apply mapGet_In in Eg. now destruct (Hval n l Eg) as (_ & -> & _).
      - apply mapGet_None in Eg.
        destruct (group n seen) eqn:Egr; [reflexivity|].
        exfalso. apply Eg. apply Hkey; [exact Hn|]. now rewrite Egr. }
    rewrite Hexisting.
    split; [now apply mapSet_NoDup|]. split.
    + intros k v Hin. apply mapSet_In in Hin; [|exact Hnd].
      destruct Hin as [[-> ->]|[Hne Hin]].
      * split; [exact Hn|]. split.
        -- rewrite group_app. simpl. now rewrite Hself.
        -- now destruct (group n seen).
      * destruct (Hval k v Hin) as (Hk & Hv & Hnil).
        split; [exact Hk|]. split; [|exact Hnil].
        rewrite group_app. simpl.
        replace (hasName k e) with false; [now rewrite app_nil_r|].
        symmetry. unfold hasName. rewrite En. apply String.eqb_neq. congruence.
    + intros k Hk Hgr. destruct (string_dec k n) as [->|Hne].
      * apply mapSet_key_In.
      * apply mapSet_keys_incl. apply Hkey; [exact Hk|].
        rewrite group_app in Hgr. simpl in Hgr.
        replace (hasName k e) with false in Hgr; [now rewrite app_nil_r in Hgr|].
        symmetry. unfold hasName. rewrite En. apply String.eqb_neq. congruence.
  - (* no name *)
    assert (Hg : forall k, k <> "" -> group k (seen ++ [e]) = group k seen).
    { intros k Hk. rewrite group_app. simpl.
      rewrite (hasName_falsy k e Hk); [apply app_nil_r|now rewrite En]. }
    split; [exact Hnd|]. split.
    + intros k v Hin. destruct (Hval k v Hin) as (Hk & Hv & Hne).
      now rewrite Hg.
    + intros k Hk. rewrite Hg by exact Hk. now apply Hkey.
Qed.

Lemma Grouped_fold (l : list AstNode) :
  forall st seen,
    Grouped (snd st) seen ->
    Grouped (snd (fold_left (collectStep getElementName) l st)) (seen ++ l).
Proof.
  induction l as [|e l IH]; intros [c m] seen H; simpl fold_left.
  - now rewrite app_nil_r.
  - replace (seen ++ e :: l)%list with ((seen ++ [e]) ++ l)%list
      by (now rewrite <- app_assoc).
    apply IH. exact (Grouped_step c m seen e H).
Qed.

(** The map of duplicates: the groups with more than one element. *)
Lemma findDuplicateNames_duplicates (l : list AstNode) :
  exists m, Grouped m l
            /\ duplicates (findDuplicateNames getElementName l)
               = filter (fun kv => 1 <? List.length (snd kv)) m.
Proof.
  unfold findDuplicateNames.
  pose proof (Grouped_fold l ([], []) []) as H. simpl app in H.
  destruct (fold_left (collectStep getElementName) l ([], [])) as [c m].
  exists m. split; [|reflexivity].
  apply H. simpl. split; [constructor|]. split; [intros k v []|].
  intros k _ Hk. now simpl in Hk.
Qed.

End DuplicateFacts.

Section DuplicateReports.
Import Duplicates.

Lemma reportDuplicates_entries result options :
  reportDuplicates result options
  = flat_map (fun kv => reportEntry options (fst kv) (snd kv))
             (duplicates result).
Proof.
  unfold reportDuplicates, reportEntry, duplicateDiagnostic, duplicateMessage.
  destruct options as [[[|]|] ctx prop]; simpl; reflexivity.
Qed.

Lemma string_app_inv_tail (a b c : string) : a ++ c = b ++ c -> a = b.
Proof.
  revert b. induction a as [|x a IH]; intros [|y b] H; simpl in H.
  - reflexivity.
  - exfalso. apply (f_equal String.length) in H. simpl in H.
    rewrite string_app_length in H. lia.
  - exfalso. apply (f_equal String.length) in H. simpl in H.
    rewrite string_app_length in H. lia.
  - injection H as -> H. f_equal. now apply IH.
Qed.

Lemma duplicateMessage_inj ctx n n' :
  duplicateMessage ctx n = duplicateMessage ctx n' -> n = n'.
Proof.
  unfold duplicateMessage. destruct ctx as [[|c r]|]; intros H;
    apply string_app_inv_head in H; now apply string_app_inv_tail in H.
Qed.

Lemma reportEntry_message options n g d :
  In d (reportEntry options n g) ->
  d = duplicateDiagnostic options n (node d) /\ In (node d) g.
Proof.
  unfold reportEntry.
  destruct (match reportAll options with Some b => b | None => true end).
  - intros H. apply in_map_iff in H as (e & <- & He). now split.
  - destruct g as [|first g]; [intros []|]. intros [<-|[]].
    split; [reflexivity|now left].
Qed.

Lemma withMessage_all {N} msg (ds : list (Diagnostic N)) :
  (forall d, In d ds -> message d = msg) -> withMessage msg ds = ds.
Proof.
  induction ds as [|d ds IH]; intros H; simpl; [reflexivity|].
  rewrite (H d (or_introl eq_refl)), String.eqb_refl.
  f_equal. apply IH. intros d' Hd'. apply H. now right.
Qed.

Lemma withMessage_none {N} msg (ds : list (Diagnostic N)) :
  (forall d, In d ds -> message d <> msg) -> withMessage msg ds = [].
Proof.
  induction ds as [|d ds IH]; intros H; simpl; [reflexivity|].
  destruct (String.eqb (message d) msg) eqn:E.
  - apply String.eqb_eq in E. exfalso. exact (H d (or_introl eq_refl) E).
  - apply IH. intros d' Hd'. apply H. now right.
Qed.

Lemma withMessage_app {N} msg (a b : list (Diagnostic N)) :
  withMessage msg (a ++ b) = (withMessage msg a ++ withMessage msg b)%list.
Proof. apply filter_app. Qed.

Lemma withMessage_entries options n (m : JsMap (list AstNode)) :
  withMessage (duplicateMessage (contextName options) n)
    (flat_map (fun kv => reportEntry options (fst kv) (snd kv)) m)
  = flat_map (fun kv => reportEntry options (fst kv) (snd kv))
      (filter (fun kv => String.eqb (fst kv) n) m).
Proof.
  induction m as [|[k v] m IH]; simpl; [reflexivity|].
  rewrite withMessage_app, IH.
  destruct (String.eqb k n) eqn:E.
  - apply String.eqb_eq in E. subst k. simpl. f_equal.
    apply withMessage_all. intros d Hd.
    apply reportEntry_message in Hd as [Hd _]. now rewrite Hd.
  - apply String.eqb_neq in E. rewrite (withMessage_none _ (reportEntry options k v)).
    + reflexivity.
    + intros d Hd Hmsg. apply reportEntry_message in Hd as [Hd _].
      rewrite Hd in Hmsg. simpl in Hmsg.
      apply duplicateMessage_inj in Hmsg. contradiction.
Qed.

Lemma filter_key_absent {V} (m : JsMap V) k :
  ~ In k (map fst m) -> filter (fun kv => String.eqb (fst kv) k) m = [].
Proof.
  induction m as [|[k' v'] m IH]; simpl; intros H; [reflexivity|].
  destruct (String.eqb k' k) eqn:E.
  - apply String.eqb_eq in E. tauto.
  - apply IH. tauto.
Qed.

Lemma filter_key_present {V} (m : JsMap V) k v :
  NoDup (map fst m) -> In (k, v) m ->
  filter (fun kv => String.eqb (fst kv) k) m = [(k, v)].
Proof.
  induction m as [|[k' v'] m IH]; simpl; intros Hnd Hin; [contradiction|].
  inversion Hnd as [|? ? Hnotin Hnd']; subst.
  destruct Hin as [[= -> ->]|Hin].
  - rewrite String.eqb_refl. f_equal. now apply filter_key_absent.
  - destruct (String.eqb k' k) eqn:E.
    + apply String.eqb_eq in E. subst k'. exfalso. apply Hnotin.
      apply in_map_iff. now exists (k, v).
    + now apply IH.
Qed.

Lemma filter_swap {A} (p q : A -> bool) (l : list A) :
  filter p (filter q l) = filter q (filter p l).
Proof.
  induction l as [|x l IH]; simpl; [reflexivity|].
  destruct (q x) eqn:Eq, (p x) eqn:Ep; simpl; rewrite ?Eq, ?Ep, IH; reflexivity.
Qed.

(** The diagnostics about one name: nothing when fewer than two elements
    carry it, the report of its group otherwise. *)
Lemma duplicates_for_name (els : list AstNode)
    (options : ReportDuplicatesOptions) (n : string) :
  n <> "" ->
  withMessage (duplicateMessage (contextName options) n)
              (checkAndReportDuplicates els options)
  = if 1 <? List.length (group n els)
    then reportEntry options n (group n els) else [].
Proof.
  intros Hn. unfold checkAndReportDuplicates.
  rewrite reportDuplicates_entries.
  destruct (findDuplicateNames_duplicates els) as (m & (Hnd & Hval & Hkey) & ->).
  rewrite withMessage_entries, filter_swap.
  destruct (group n els) as [|e0 g0] eqn:Eg.
  - rewrite filter_key_absent; [reflexivity|].
    intros Hin. apply in_map_iff in Hin as ([k v] & Hk & Hin). simpl in Hk.
    subst k. destruct (Hval n v Hin) as (_ & Hv & Hne). congruence.
  - assert (Hin : In n (map fst m)) by (apply Hkey; [exact Hn|congruence]).
    apply in_map_iff in Hin as ([k v] & Hk & Hin). simpl in Hk. subst k.
    rewrite (filter_key_present m n v Hnd Hin).
    destruct (Hval n v Hin) as (_ & Hv & _). rewrite Eg in Hv. subst v.
    cbn [filter snd].
    destruct (1 <? List.length (e0 :: g0)); cbn [flat_map fst snd];
      [apply app_nil_r|reflexivity].
Qed.

(** Every diagnostic about duplicates is an error on an element that has a
    name. *)
Lemma duplicates_named (els : list AstNode)
    (options : ReportDuplicatesOptions) (d : Diagnostic AstNode) :
  In d (checkAndReportDuplicates els options) ->
  severity d = error_ /\ Js.truthy (name (node d)) = true /\ In (node d) els.
Proof.
  unfold checkAndReportDuplicates. rewrite reportDuplicates_entries.
  destruct (findDuplicateNames_duplicates els) as (m & (Hnd & Hval & Hkey) & ->).
  intros H. apply in_flat_map in H as ([k v] & Hkv & Hd).
  apply filter_In in Hkv as [Hkv _]. simpl in Hd.
  destruct (Hval k v Hkv) as (Hk & -> & _).
  apply reportEntry_message in Hd as [Hd Hnode].
  split; [now rewrite Hd|].
  apply filter_In in Hnode as [Hin Hnode]. split; [|exact Hin].
  unfold hasName in Hnode. destruct (name (node d)) as [s|]; [|discriminate].
  apply String.eqb_eq in Hnode. subst s. now destruct k.
Qed.

End DuplicateReports.

(** C5: for a non-empty name [n] and the owned elements that carry it.  At
    the root namespace the errors with the message
    [Duplicate element name: 'n'] are one per element of the group when the
    group has two elements or more, and none otherwise.  In a package body
    the errors with the message [Duplicate element name 'n' in package 'p']
    ([<anonymous>] for [p] when the package has no name) are exactly one,
    on the first element of the group, when the group has two elements or
    more, and none otherwise.  Every diagnostic of the two checks is an
    error on an element that has a name. *)
Theorem C5_duplicate_names (container : AstNode) (n : string) :
  n <> "" ->
  let rootMembers :=
    Validator.extractInnerElements
      (Validator.orEmpty (namespaceElements container)) in
  let packageMembers :=
    Validator.extractInnerElements (Validator.orEmpty (elements container)) in
  let pkg := match name container with Some p => p | None => "<anonymous>" end in
  let rootMessage := "Duplicate element name: '" ++ n ++ "'" in
  let packageMessage :=
    "Duplicate element name '" ++ n ++ "' in package '" ++ pkg ++ "'" in
  (2 <= List.length (group n rootMembers) ->
   withMessage rootMessage (Validator.checkRootNamespace container)
   = map (fun e => mkDiag error_ rootMessage e (Some "name"))
         (group n rootMembers))
  /\ (List.length (group n rootMembers) < 2 ->
      withMessage rootMessage (Validator.checkRootNamespace container) = [])
  /\ (2 <= List.length (group n packageMembers) ->
      exists first rest,
        group n packageMembers = first :: rest
        /\ withMessage packageMessage (Validator.checkPackageBody container)
           = [mkDiag error_ packageMessage first (Some "name")])
  /\ (List.length (group n packageMembers) < 2 ->
      withMessage packageMessage (Validator.checkPackageBody container) = [])
  /\ (forall d,
        In d (Validator.checkRootNamespace container)
        \/ In d (Validator.checkPackageBody container) ->
        severity d = error_ /\ Js.truthy (name (node d)) = true).
Proof.
  intros Hn rootMembers packageMembers pkg rootMessage packageMessage.
  pose proof (duplicates_for_name rootMembers
                (Duplicates.mkOptions (Some true) None None) n Hn) as Hroot.
  pose proof (duplicates_for_name packageMembers
                (Duplicates.mkOptions (Some false)
                   (Some ("package '" ++ pkg ++ "'")) None) n Hn) as Hpkg.
  change (withMessage rootMessage (Validator.checkRootNamespace container)
          = if 1 <? List.length (group n rootMembers)
            then map (fun e => mkDiag error_ rootMessage e (Some "name"))
                     (group n rootMembers)
            else []) in Hroot.
  change (withMessage packageMessage (Validator.checkPackageBody container)
          = if 1 <? List.length (group n packageMembers)
            then match group n packageMembers with
                 | first :: _ => [mkDiag error_ packageMessage first (Some "name")]
                 | [] => []
                 end
            else []) in Hpkg.
  repeat split.
  - intros H. rewrite Hroot.
    destruct (Nat.ltb_spec 1 (List.length (group n rootMembers)));
      [reflexivity|lia].
  - intros H. rewrite Hroot.
    destruct (Nat.ltb_spec 1 (List.length (group n rootMembers)));
      [lia|reflexivity].
  - intros H. rewrite Hpkg.
    destruct (Nat.ltb_spec 1 (List.length (group n packageMembers))); [|lia].
    destruct (group n packageMembers) as [|first rest]; [simpl in H; lia|].
    now exists first, rest.
  - intros H. rewrite Hpkg.
    destruct (Nat.ltb_spec 1 (List.length (group n packageMembers)));
      [lia|reflexivity].
  - destruct H as [H|H]; now apply duplicates_named in H.
  - destruct H as [H|H]; now apply duplicates_named in H.
Qed.

Lemma C5_duplicate_names_witness :
  withMessage "Duplicate element name: 'P'"
              (Validator.checkRootNamespace twoPackagesP)
  = [ mkDiag error_ "Duplicate element name: 'P'" (package (Some "P") [])
             (Some "name");
      mkDiag error_ "Duplicate element name: 'P'" (package (Some "P") [])
             (Some "name") ]
  /\ exists first rest,
       group "A" (Validator.extractInnerElements
                    (Validator.orEmpty (elements packageWithTwoA)))
       = first :: rest
       /\ withMessage "Duplicate element name 'A' in package 'P'"
                      (Validator.checkPackageBody packageWithTwoA)
          = [mkDiag error_ "Duplicate element name 'A' in package 'P'" first
                    (Some "name")].
Proof.
  split.
  - destruct (C5_duplicate_names twoPackagesP "P") as (H & _);
      [discriminate|].
    apply H. simpl. lia.
  - destruct (C5_duplicate_names packageWithTwoA "A") as (_ & _ & H & _);
      [discriminate|].
    apply H. simpl. lia.
Defined.

(** ** Scope of the parts of a qualified name *)

(** C2: for a reference to a part of a qualified name at index [i > 0], the
    scope holds exactly the entries of the index whose name is the join of
    the parts before [i], then [::], then a remainder without [::], each
    under that remainder as its name; the part at index 0 (or without
    index) is resolved in the initial scope. *)
Theorem C2_nested_scope (allElements : list AstNodeDescription)
    (document : LangiumDocument) (context : ReferenceInfo) :
  let i := match index context with Some i => i | None => 0 end in
  let qualifiedPrefix := Js.join "::" (firstn i (names context)) in
  (0 < i ->
   forall d,
     In d (getScope allElements document context) <->
     exists e remainder,
       In e allElements
       /\ descName e = qualifiedPrefix ++ "::" ++ remainder
       /\ (forall a b, remainder <> a ++ "::" ++ b)
       /\ d = mkDescription remainder (descType e) (documentUri e) (path e))
  /\ (i = 0 ->
      getScope allElements document context
      = getInitialScope allElements document context).
Proof.
  intros i qualifiedPrefix. unfold getScope, getQualifiedNameScope.
  fold i. split.
  - intros Hi d. destruct (Nat.eqb_spec i 0) as [E|_]; [lia|].
    unfold getNestedScope, createScope. fold qualifiedPrefix.
    assert (Hlen : Js.length qualifiedPrefix + 2
                   = String.length (qualifiedPrefix ++ "::")).
    { unfold Js.length. rewrite string_app_length. reflexivity. }
    rewrite Hlen. split.
    + intros H. apply in_map_iff in H as (e & <- & He).
      apply filter_In in He as [He Hp].
      destruct (Js.startsWith (qualifiedPrefix ++ "::") (descName e)) eqn:Es;
        [|discriminate].
      apply startsWith_spec in Es as [r Hr].
      rewrite Hr, substring_app in Hp |- *.
      exists e, r. split; [exact He|]. split.
      * now rewrite Hr, string_app_assoc.
      * split; [|reflexivity]. intros a b Hab.
        apply negb_true_iff in Hp.
        assert (Js.includes "::" r = true)
          by (apply includes_spec; now exists a, b).
        congruence.
    + intros (e & r & He & Hname & Hr & ->).
      rewrite <- string_app_assoc in Hname.
      apply in_map_iff. exists e. split.
      * now rewrite Hname, substring_app.
      * apply filter_In. split; [exact He|].
        rewrite Hname, startsWith_app, substring_app.
        apply negb_true_iff. apply not_true_is_false. intros Hinc.
        apply includes_spec in Hinc as (a & b & Hab). exact (Hr a b Hab).
  - intros ->. reflexivity.
Qed.

Lemma C2_nested_scope_witness :
  In (mkDescription "B" "PackageBody" "memory://document.sysml"
                    [namespaceElementsAt 0; elementProp; elementsAt 0;
                     elementProp])
     (getScope indexABX
        (mkDocument "memory://document.sysml" (rootNamespace []))
        (mkReferenceInfo ["A"; "B"; "X"] [] (Some 1))).
Proof.
  apply (proj1 (C2_nested_scope indexABX
                  (mkDocument "memory://document.sysml" (rootNamespace []))
                  (mkReferenceInfo ["A"; "B"; "X"] [] (Some 1)))).
  - simpl. lia.
  - exists (mkDescription "A::B" "PackageBody" "memory://document.sysml"
              [namespaceElementsAt 0; elementProp; elementsAt 0; elementProp]),
           "B".
    split; [simpl; tauto|]. split; [reflexivity|]. split; [|reflexivity].
    intros a b H.
    assert (Js.includes "::" "B" = true)
      by (apply includes_spec; now exists a, b).
    discriminate.
Defined.

Lemma Forall_nth_error {A} (P : A -> Prop) (l : list A) i x :
  Forall P l -> nth_error l i = Some x -> P x.
Proof.
  intros H Hn. apply nth_error_In in Hn.
  rewrite Forall_forall in H. auto.
Qed.

(** ** The export traversal *)

Lemma forEachIndexed_In {A B} (f : nat -> A -> list B) (l : list A) :
  forall i0 d,
    In d (forEachIndexed f i0 l) <->
    exists k x, nth_error l k = Some x /\ In d (f (i0 + k) x).
Proof.
  induction l as [|x l IH]; intros i0 d; simpl.
  - split; [intros []|]. intros (k & y & H & _). now destruct k.
  - rewrite in_app_iff, IH. split.
    + intros [H|(k & y & Hk & Hd)].
      * exists 0, x. rewrite Nat.add_0_r. now split.
      * exists (S k), y. rewrite Nat.add_succ_r. now split.
    + intros ([|k] & y & Hk & Hd); simpl in Hk.
      * injection Hk as <-. rewrite Nat.add_0_r in Hd. now left.
      * right. exists k, y. rewrite Nat.add_succ_r in Hd. now split.
Qed.

Section ExportFacts.
Variable document : LangiumDocument.

Lemma processDefinitionOrUsage_eq (element : AstNode) (here : Path)
    (qualifiedNameParts : list string) :
  processDefinitionOrUsage document element here qualifiedNameParts =
  match getElementName element with
  | Some (String c r) =>
      ([createDescription document element (String c r) here]
       ++ (if 0 <? List.length qualifiedNameParts
           then [createDescription document element
                   (Js.join "::" (qualifiedNameParts ++ [String c r])) here]
           else [])
       ++ processNestedElements document element here
            (qualifiedNameParts ++ [String c r]))%list
  | _ => []
  end.
Proof. destruct element; reflexivity. Qed.

Lemma processNamespaceElement_In (m : AstNode) (here : Path)
    (parts : list string) (d : AstNodeDescription) :
  In d (processNamespaceElement document m here parts) <->
  isOwningMembership m = true /\ isHidden (visibility m) = false
  /\ exists inner,
       element m = Some inner
       /\ In d (processDefinitionOrUsage document inner
                  (here ++ [elementProp]) parts).
Proof.
  unfold processNamespaceElement, processNamespaceElementWith.
  destruct (isOwningMembership m); [|split; [intros []|intros [? _]; discriminate]].
  destruct (isHidden (visibility m));
    [split; [intros []|intros (_ & ? & _); discriminate]|].
  destruct (element m) as [inner|].
  - split.
    + intros H. repeat split. now exists inner.
    + intros (_ & _ & inner' & [= <-] & H). exact H.
  - split; [intros []|]. intros (_ & _ & inner' & H & _). discriminate.
Qed.

(** The entries of the nested elements are those of the members of the
    container, whichever of the three cases applies. *)
Lemma processNestedElements_In (container : AstNode) (here : Path)
    (parts : list string) (d : AstNodeDescription) :
  In d (processNestedElements document container here parts) <->
  exists l i m,
    elements container = Some l /\ nth_error l i = Some m
    /\ In d (processNamespaceElement document m (here ++ [elementsAt i])%list parts).
Proof.
  unfold processNestedElements, processNestedElementsWith.
  fold (processNamespaceElement document).
  assert (Hguard : forall l,
    In d (forEachIndexed
            (fun i element =>
               if isOwningMembership element
               then processNamespaceElement document element
                      (here ++ [elementsAt i])%list parts
               else []) 0 l)
    <-> exists i m, nth_error l i = Some m
          /\ In d (processNamespaceElement document m
                     (here ++ [elementsAt i])%list parts)).
  { intros l. rewrite forEachIndexed_In. split.
    - intros (k & x & Hk & Hd). exists k, x. split; [exact Hk|].
      simpl in Hd. now destruct (isOwningMembership x).
    - intros (k & x & Hk & Hd). exists k, x. split; [exact Hk|].
      simpl. pose proof Hd as Hd'.
      apply processNamespaceElement_In in Hd' as [-> _]. exact Hd. }
  assert (Hplain : forall l,
    In d (forEachIndexed
            (fun i element =>
               processNamespaceElement document element
                 (here ++ [elementsAt i])%list parts) 0 l)
    <-> exists i m, nth_error l i = Some m
          /\ In d (processNamespaceElement document m
                     (here ++ [elementsAt i])%list parts)).
  { intros l. rewrite forEachIndexed_In. reflexivity. }
  assert (Hnone : (exists l i m,
             @None (list AstNode) = Some l /\ nth_error l i = Some m
             /\ In d (processNamespaceElement document m
                        (here ++ [elementsAt i])%list parts)) <-> False).
  { split; [intros (? & ? & ? & ? & _); discriminate|intros []]. }
  assert (Hsome : forall l0 (Q : nat -> AstNode -> Prop),
             (exists l i m, Some l0 = Some l /\ nth_error l i = Some m /\ Q i m)
             <-> exists i m, nth_error l0 i = Some m /\ Q i m).
  { intros l0 Q. split.
    - intros (l & i & m & [= <-] & H). now exists i, m.
    - intros (i & m & H). now exists l0, i, m. }
  destruct (isPackageBody container);
    [|destruct (isTypeBodyRule container || isFeatureBodyRule container)];
    destruct (elements container) as [l|];
    rewrite ?Hnone, ?Hsome, ?Hguard, ?Hplain; tauto.
Qed.

Lemma computeExports_In (d : AstNodeDescription) :
  In d (computeExports document) <->
  exists l i m,
    namespaceElements (root document) = Some l /\ nth_error l i = Some m
    /\ In d (processNamespaceElement document m [namespaceElementsAt i] []).
Proof.
  unfold computeExports.
  destruct (namespaceElements (root document)) as [l|].
  - rewrite forEachIndexed_In. split.
    + intros (i & m & H). now exists l, i, m.
    + intros (l' & i & m & [= <-] & H). now exists i, m.
  - split; [intros []|]. intros (? & ? & ? & ? & _). discriminate.
Qed.

End ExportFacts.

Lemma along_at (v : bool) (p : Path) :
  forall n s q,
    along v n (p ++ s :: q) ->
    exists c, getAt n (p ++ [s]) = Some c /\ stepAdmits v s c.
Proof.
  induction p as [|s0 p IH]; intros n s q H; simpl in *.
  - destruct (child n s) as [c|]; [|contradiction].
    exists c. now split.
  - destruct (child n s0) as [c0|]; [|contradiction].
    destruct H as [_ H]. exact (IH c0 s q H).
Qed.

Lemma along_weaken (n : AstNode) (rel : Path) :
  along true n rel -> along false n rel.
Proof.
  revert n. induction rel as [|s rest IH]; intros n; simpl; [trivial|].
  destruct (child n s) as [c|]; [|trivial].
  intros [Hs H]. split; [|now apply IH].
  destruct s; simpl in *; try tauto. all: split; [tauto|discriminate].
Qed.

Section ExportInvariant.
Variable document : LangiumDocument.

Lemma exports_invariant (n : AstNode) :
  exportsOfElement document n /\ exportsOfMember document n.
Proof.
  induction n as [n IHel IHels _ _] using AstNode_induction.
  split.
  - intros here parts d. rewrite processDefinitionOrUsage_eq.
    unfold getElementName.
    destruct (name n) as [[|c r]|] eqn:En; [intros []| |intros []].
    intros H. split; [reflexivity|].
    assert (Hhere : path (createDescription document n (String c r) here)
                    = (here ++ [])%list) by (simpl; now rewrite app_nil_r).
    apply in_app_iff in H as [[<-|[]]|H]; [exists []; now split|].
    apply in_app_iff in H as [H|H].
    + destruct (0 <? List.length parts); [|destruct H].
      destruct H as [<-|[]]. exists []. simpl. now rewrite app_nil_r.
    + apply processNestedElements_In in H as (l & i & m & Hl & Hi & H).
      rewrite Hl in IHels. simpl in IHels.
      destruct (Forall_nth_error _ _ _ _ IHels Hi) as [_ Hm].
      pose proof H as Hown.
      apply processNamespaceElement_In in Hown as (Hown & Hvis & _).
      destruct (Hm _ _ _ H) as (rel & Hpath & Hrel).
      exists (elementsAt i :: rel). split.
      * now rewrite Hpath, <- app_assoc.
      * simpl. rewrite Hl, Hi. repeat split; auto.
  - intros here parts d H.
    apply processNamespaceElement_In in H as (Hown & Hvis & inner & Hin & H).
    rewrite Hin in IHel. simpl in IHel. destruct IHel as [Hel _].
    destruct (Hel _ _ _ H) as (Hname & rel & Hpath & Hrel).
    exists (elementProp :: rel). split.
    + now rewrite Hpath, <- app_assoc.
    + simpl. rewrite Hin. now split.
Qed.

(** Every exported entry stands for a node that is reached from the root
    through public owning memberships and named elements only. *)
Lemma computeExports_along (d : AstNodeDescription) :
  In d (computeExports document) -> along true (root document) (path d).
Proof.
  intros H. apply computeExports_In in H as (l & i & m & Hl & Hi & H).
  pose proof H as Hown.
  apply processNamespaceElement_In in Hown as (Hown & Hvis & _).
  destruct (proj2 (exports_invariant m) _ _ _ H) as (rel & -> & Hrel).
  simpl. rewrite Hl, Hi. repeat split; auto.
Qed.

Lemma Visited_exports p here e :
  Visited document p here e ->
  incl (processDefinitionOrUsage document e here p) (computeExports document).
Proof.
  induction 1 as [l i m e Hl Hi Hown Hvis He
                 |p here e n l i m e' Hv IH Hn Hne Hl Hi Hown Hvis He'];
    intros d Hd.
  - apply computeExports_In. exists l, i, m. repeat split; auto.
    apply processNamespaceElement_In. repeat split; auto. now exists e.
  - apply IH. rewrite processDefinitionOrUsage_eq. unfold getElementName.
    rewrite Hn. destruct n as [|c r]; [contradiction|].
    apply in_or_app. right. apply in_or_app. right.
    apply processNestedElements_In. exists l, i, m. repeat split; auto.
    apply processNamespaceElement_In. repeat split; auto. exists e'.
    split; [exact He'|]. now rewrite <- app_assoc.
Qed.

End ExportInvariant.

Lemma join_snoc (sep : string) (p : list string) (n : string) :
  p <> [] -> Js.join sep (p ++ [n]) = Js.join sep p ++ sep ++ n.
Proof.
  unfold Js.join. induction p as [|x p IH]; intros Hp; [contradiction|].
  destruct p as [|y p]; [reflexivity|].
  change (String.concat sep ((x :: y :: p) ++ [n]))
    with (x ++ sep ++ String.concat sep ((y :: p) ++ [n])).
  rewrite IH by discriminate.
  change (String.concat sep (x :: y :: p))
    with (x ++ sep ++ String.concat sep (y :: p)).
  now rewrite !string_app_assoc.
Qed.

(** C1, as stated, fails at the root: the package [A] of the document
    [package A;] is visited under the empty prefix and has the name [A];
    the exports hold the one entry, under [A], and no entry under the
    empty prefix followed by [::] and [A]. *)
Lemma C1_counterexample :
  let document :=
    mkDocument "memory://document.sysml"
      (rootNamespace [ owningMembership None (package (Some "A") []) ]) in
  Visited document [] [namespaceElementsAt 0; elementProp]
          (package (Some "A") [])
  /\ computeExports document
     = [mkDescription "A" "PackageBody" "memory://document.sysml"
                      [namespaceElementsAt 0; elementProp]]
  /\ forall d, In d (computeExports document) ->
               descName d <> "" ++ "::" ++ "A".
Proof.
  intros document. split; [|split].
  - eapply (Visited_root document _ 0); reflexivity.
  - reflexivity.
  - intros d [<-|[]]. discriminate.
Qed.

(** C1 (amended): for every element that the export traversal visits under
    a prefix [p] and that has a name [n], the exports hold an entry for it
    under [n] and, when [p] is not empty, an entry under the qualified
    name, the parts of [p] joined by [::], then [::] and [n]; the traversal
    appends these entries, and only the first of them when [p] is empty,
    before those of the nested elements.  A membership that is private or
    protected contributes nothing, and no entry of the exports stands for
    the membership or for a node below it. *)
Theorem C1_exports_simple_and_qualified (document : LangiumDocument) :
  (forall p here e n,
      Visited document p here e -> name e = Some n -> n <> "" ->
      let simple := mkDescription n (type_ e) (uri document) here in
      let qualified :=
        mkDescription (Js.join "::" p ++ "::" ++ n) (type_ e) (uri document)
                      here in
      In simple (computeExports document)
      /\ (p <> [] -> In qualified (computeExports document))
      /\ processDefinitionOrUsage document e here p
         = ((simple :: match p with [] => [] | _ :: _ => [qualified] end)
            ++ processNestedElements document e here (p ++ [n]))%list)
  /\ (forall m here parts,
        isHidden (visibility m) = true ->
        processNamespaceElement document m here parts = [])
  /\ (forall p s m,
        getAt (root document) (p ++ [s]) = Some m ->
        (exists i, s = elementsAt i \/ s = namespaceElementsAt i) ->
        isHidden (visibility m) = true ->
        forall d q, In d (computeExports document) ->
                    path d <> ((p ++ [s]) ++ q)%list).
Proof.
  split; [|split].
  - intros p here e n Hv Hn Hne simple qualified.
    pose proof (Visited_exports document p here e Hv) as Hincl.
    assert (Heq : processDefinitionOrUsage document e here p
                  = ((simple :: match p with [] => [] | _ :: _ => [qualified] end)
                     ++ processNestedElements document e here (p ++ [n]))%list).
    { rewrite processDefinitionOrUsage_eq. unfold getElementName.
      rewrite Hn. destruct n as [|c r]; [contradiction|].
      destruct p as [|p0 p]; [reflexivity|].
      unfold qualified. rewrite <- (join_snoc "::" (p0 :: p)) by discriminate.
      reflexivity. }
    split; [|split; [|exact Heq]].
    + apply Hincl. rewrite Heq. now left.
    + intros Hp. apply Hincl. rewrite Heq.
      destruct p as [|p0 p]; [contradiction|]. right. now left.
  - intros m here parts Hvis.
    unfold processNamespaceElement, processNamespaceElementWith.
    rewrite Hvis. now destruct (isOwningMembership m).
  - intros p s m Hm (i & Hs) Hvis d q Hd Hpath.
    apply computeExports_along in Hd. rewrite Hpath, <- app_assoc in Hd.
    simpl in Hd. apply along_at in Hd as (c & Hc & Hadm).
    rewrite Hm in Hc. injection Hc as <-.
    destruct Hs as [-> | ->]; simpl in Hadm;
      destruct Hadm as [_ Hadm]; rewrite (Hadm eq_refl) in Hvis; discriminate.
Qed.

Lemma C1_exports_simple_and_qualified_witness :
  let document :=
    mkDocument "memory://document.sysml"
      (rootNamespace
         [ owningMembership None
             (package (Some "A")
                [ owningMembership None (partDefinition (Some "B") []) ]) ]) in
  In (mkDescription "B" "PartDefinition" "memory://document.sysml"
        [namespaceElementsAt 0; elementProp; elementsAt 0; elementProp])
     (computeExports document)
  /\ In (mkDescription "A::B" "PartDefinition" "memory://document.sysml"
           [namespaceElementsAt 0; elementProp; elementsAt 0; elementProp])
        (computeExports document).
Proof.
  intros document.
  destruct (proj1 (C1_exports_simple_and_qualified document)
              ["A"]
              [namespaceElementsAt 0; elementProp; elementsAt 0; elementProp]
              (partDefinition (Some "B") []) "B") as (Hs & Hq & _).
  - apply (Visited_nested document [] [namespaceElementsAt 0; elementProp]
             (package (Some "A")
                [ owningMembership None (partDefinition (Some "B") []) ])
             "A"
             [ owningMembership None (partDefinition (Some "B") []) ]
             0 (owningMembership None (partDefinition (Some "B") []))
             (partDefinition (Some "B") [])).
    + eapply (Visited_root document _ 0); reflexivity.
    + reflexivity.
    + discriminate.
    + reflexivity.
    + reflexivity.
    + reflexivity.
    + reflexivity.
    + reflexivity.
  - reflexivity.
  - discriminate.
  - split; [exact Hs|]. apply Hq. discriminate.
Defined.

(** ** The local-scope traversal *)

Section LocalScopeFacts.
Variable document : LangiumDocument.

Lemma processNestedLocalScopes_eq (container : AstNode) (here : Path) :
  processNestedLocalScopes document container here =
  if isPackageBody container then
    match elements container with
    | Some l => processLocalScopes document false here elementsAt l
    | None => []
    end
  else if isTypeBodyRule container || isFeatureBodyRule container then
    match elements container with
    | Some l => processLocalScopes document true here elementsAt l
    | None => []
    end
  else
    match elements container with
    | Some l => processLocalScopes document true here elementsAt l
    | None => []
    end.
Proof. destruct container; reflexivity. Qed.

Lemma processLocalScopesWith_In
    (recur : AstNode -> Path -> PrecomputedScopes) (filtered : bool)
    (containerPath : Path) (at_ : nat -> Step) (l : list AstNode)
    (entry : Path * AstNodeDescription) :
  In entry (processLocalScopesWith document recur filtered containerPath at_ l)
  ->
  exists i m inner c r,
    nth_error l i = Some m /\ isOwningMembership m = true
    /\ element m = Some inner /\ name inner = Some (String c r)
    /\ (entry = (containerPath,
                 createDescription document inner (String c r)
                   (containerPath ++ [at_ i; elementProp]))
        \/ In entry (recur inner
                       (containerPath ++ [at_ i; elementProp])%list)).
Proof.
  unfold processLocalScopesWith. intros H.
  apply forEachIndexed_In in H as (i & m & Hi & H). simpl in H.
  destruct (negb filtered || isOwningMembership m); [|destruct H].
  destruct (isOwningMembership m) eqn:Hown; [|destruct H].
  destruct (element m) as [inner|] eqn:Hin; [|destruct H].
  unfold getElementName in H.
  destruct (name inner) as [[|c r]|] eqn:Hn; try destruct H.
  - exists i, m, inner, c, r. repeat split; auto.
  - exists i, m, inner, c, r. repeat split; auto.
Qed.

Lemma along_member (n : AstNode) (l : list AstNode) (i : nat)
    (m inner : AstNode) (rel : Path) :
  elements n = Some l -> nth_error l i = Some m ->
  isOwningMembership m = true -> element m = Some inner ->
  Js.truthy (name inner) = true -> along false inner rel ->
  along false n (elementsAt i :: elementProp :: rel).
Proof.
  intros Hl Hi Hown Hin Hname Hrel. simpl. rewrite Hl, Hi. simpl.
  rewrite Hin. repeat split; auto. discriminate.
Qed.

Lemma locals_invariant (n : AstNode) :
  localsOf document n /\ optAll (localsOf document) (element n).
Proof.
  induction n as [n IHel IHels _ _] using AstNode_induction.
  split.
  - intros here entry. rewrite processNestedLocalScopes_eq.
    assert (Hcase : forall filtered l,
              elements n = Some l ->
              In entry (processLocalScopes document filtered here elementsAt l)
              -> exists rel1 rel2,
                   fst entry = (here ++ rel1)%list
                   /\ path (snd entry) = (here ++ rel2)%list
                   /\ along false n rel1 /\ along false n rel2).
    { intros filtered l Hl H.
      apply processLocalScopesWith_In in H
        as (i & m & inner & c & r & Hi & Hown & Hin & Hname & H).
      assert (Htruthy : Js.truthy (name inner) = true) by now rewrite Hname.
      rewrite Hl in IHels. simpl in IHels.
      destruct (Forall_nth_error _ _ _ _ IHels Hi) as [_ Hinner].
      rewrite Hin in Hinner. simpl in Hinner.
      destruct H as [->|H].
      - exists [], [elementsAt i; elementProp]. simpl.
        rewrite app_nil_r. repeat split; auto.
        now apply (along_member n l i m inner []).
      - destruct (Hinner _ _ H) as (rel1 & rel2 & H1 & H2 & Ha1 & Ha2).
        exists (elementsAt i :: elementProp :: rel1),
               (elementsAt i :: elementProp :: rel2).
        rewrite H1, H2, <- !app_assoc. simpl. repeat split; auto.
        + now apply (along_member n l i m inner rel1).
        + now apply (along_member n l i m inner rel2). }
    destruct (isPackageBody n);
      [|destruct (isTypeBodyRule n || isFeatureBodyRule n)];
      destruct (elements n) as [l|]; try intros []; eauto.
  - destruct (element n) as [e|]; simpl in *; [apply IHel|exact I].
Qed.

(** The loop of [processLocalScopes] tests [isOwningMembership] itself, so
    the filter that two of the three cases apply beforehand changes
    nothing. *)
Lemma processLocalScopes_filter (containerPath : Path) (at_ : nat -> Step)
    (l : list AstNode) :
  processLocalScopes document true containerPath at_ l
  = processLocalScopes document false containerPath at_ l.
Proof.
  unfold processLocalScopes, processLocalScopesWith.
  generalize 0. induction l as [|m l IH]; intros i; simpl; [reflexivity|].
  rewrite IH. now destruct (isOwningMembership m).
Qed.

(** Every local-scope entry has, as its container and as its target, a
    node reached from the root through owning memberships and named
    elements only. *)
Lemma computeLocalScopes_along (entry : Path * AstNodeDescription) :
  In entry (computeLocalScopes document) ->
  along false (root document) (fst entry)
  /\ along false (root document) (path (snd entry)).
Proof.
  unfold computeLocalScopes.
  destruct (namespaceElements (root document)) as [l|] eqn:Hl; [|intros []].
  intros H. apply processLocalScopesWith_In in H
    as (i & m & inner & c & r & Hi & Hown & Hin & Hname & H).
  assert (Htruthy : Js.truthy (name inner) = true) by now rewrite Hname.
  assert (Hdown : forall rel, along false inner rel ->
            along false (root document)
                  (namespaceElementsAt i :: elementProp :: rel)).
  { intros rel Hrel. simpl. rewrite Hl, Hi. simpl. rewrite Hin.
    repeat split; auto. discriminate. }
  destruct H as [->|H].
  - simpl. split; [exact I|]. now apply (Hdown []).
  - destruct (proj1 (locals_invariant inner) _ _ H)
      as (rel1 & rel2 & -> & -> & Ha1 & Ha2).
    simpl. split; now apply Hdown.
Qed.

End LocalScopeFacts.

(** C9: an element without a name ends both traversals.  For a node that
    is the element of a membership and has no name (or the empty name),
    the export traversal and the local-scope loop produce nothing at it,
    and no entry of the exports and no local-scope entry, as container or
    as target, stands for it or for a node below it, whatever the names
    and the visibility of those nodes. *)
Theorem C9_unnamed_element_stops_traversal (document : LangiumDocument)
    (p : Path) (e : AstNode) :
  getAt (root document) (p ++ [elementProp]) = Some e ->
  Js.truthy (name e) = false ->
  (forall here parts, processDefinitionOrUsage document e here parts = [])
  /\ (forall m filtered containerPath at_,
        element m = Some e ->
        processLocalScopes document filtered containerPath at_ [m] = [])
  /\ (forall d q, In d (computeExports document) ->
                  path d <> ((p ++ [elementProp]) ++ q)%list)
  /\ (forall entry q, In entry (computeLocalScopes document) ->
                      path (snd entry) <> ((p ++ [elementProp]) ++ q)%list
                      /\ fst entry <> ((p ++ [elementProp]) ++ q)%list).
Proof.
  intros He Hname.
  assert (Hstop : forall v rel q,
            along v (root document) rel ->
            rel <> ((p ++ [elementProp]) ++ q)%list).
  { intros v rel q Hrel ->. rewrite <- app_assoc in Hrel. simpl in Hrel.
    apply along_at in Hrel as (c & Hc & Hadm).
    rewrite He in Hc. injection Hc as <-. simpl in Hadm. congruence. }
  split; [|split; [|split]].
  - intros here parts. rewrite processDefinitionOrUsage_eq.
    unfold getElementName. now destruct (name e) as [[|c r]|].
  - intros m filtered containerPath at_ Hm.
    unfold processLocalScopes, processLocalScopesWith. simpl.
    rewrite Hm. unfold getElementName.
    destruct (name e) as [[|c r]|]; try discriminate;
      destruct (negb filtered || isOwningMembership m);
      destruct (isOwningMembership m); reflexivity.
  - intros d q Hd. apply (Hstop true). now apply computeExports_along.
  - intros entry q Hentry.
    apply computeLocalScopes_along in Hentry as [H1 H2].
    split; now apply (Hstop false).
Qed.

Lemma C9_unnamed_element_stops_traversal_witness :
  computeExports anonymousPackageDocument = []
  /\ computeLocalScopes anonymousPackageDocument = []
  /\ forall d, In d (computeExports anonymousPackageDocument) ->
               path d <> [namespaceElementsAt 0; elementProp;
                          elementsAt 0; elementProp].
Proof.
  split; [reflexivity|]. split; [reflexivity|].
  intros d Hd.
  destruct (C9_unnamed_element_stops_traversal anonymousPackageDocument
              [namespaceElementsAt 0]
              (package None
                 [ owningMembership (Some "public")
                     (partDefinition (Some "A") []) ]))
    as (_ & _ & H & _).
  - reflexivity.
  - reflexivity.
  - exact (H d [elementsAt 0; elementProp] Hd).
Defined.

(** ** Shadowing *)

(** C3 fails on the code: in the document above, where the outer package
    and the inner package both define [X], the reference [X] made inside
    the inner package resolves to the element of the outer package.  The
    local names are collected innermost first, but the entries of the
    index come before them in the scope, and the first entry with the
    name is taken.  The reference [Outer::X] resolves to the outer
    element there; once the two packages lie inside a third package, the
    part [X] of [Outer::X] does not resolve at all, as the nested scope
    looks for index names that start with [Outer::] and the index holds
    [P::Outer::X]. *)
Theorem C3_inner_reference_resolves_to_outer :
  option_map name (getAt (root shadowingDocument) outerX) = Some (Some "X")
  /\ option_map name (getAt (root shadowingDocument) innerX) = Some (Some "X")
  /\ map localPath
         (firstn 1 (getLocalScopeDescriptions shadowingDocument refInner))
     = [innerX]
  /\ option_map path
       (resolveInDocument shadowingDocument
          (mkReferenceInfo ["X"] refInner (Some 0)))
     = Some outerX
  /\ outerX <> innerX
  /\ option_map path
       (resolveInDocument shadowingDocument
          (mkReferenceInfo ["Outer"; "X"] refOuter (Some 1)))
     = Some outerX
  /\ resolveInDocument nestedShadowingDocument
       (mkReferenceInfo ["Outer"; "X"] nestedRefOuter (Some 1))
     = None.
Proof. repeat split; try reflexivity. discriminate. Qed.

(* ===================================================================== *)
(** * Further properties of the validation helpers                        *)
(* ===================================================================== *)

(** ** Decimal lexemes *)

Lemma radixDigits_digit (R : Z) (c : ascii) (s : string) (d : Z) :
  Js.digitValue c = Some d -> (d <? R)%Z = true ->
  Js.radixDigits R (String c s) = d :: Js.radixDigits R s.
Proof.
  intros Hc Hd. cbn [Js.radixDigits]. now rewrite Hc, Hd.
Qed.

Ltac decimal_digit :=
  match goal with
  | |- context [Js.radixDigits 10 (String ?c ?s)] =>
      let v := eval vm_compute in (Js.digitValue c) in
      match v with
      | Some ?d => rewrite (radixDigits_digit 10 c s d eq_refl eq_refl)
      end
  end.

Lemma radixDigits_uint_acc (d : Decimal.uint) :
  forall acc : positive,
    fold_left (fun a k => (a * 10 + k)%Z)
      (Js.radixDigits 10 (NilEmpty.string_of_uint d)) (Zpos acc)
    = Zpos (Pos.of_uint_acc d acc).
Proof.
  induction d; intros acc; cbn [NilEmpty.string_of_uint Pos.of_uint_acc];
    [reflexivity|..];
    decimal_digit; cbn [fold_left]; rewrite <- IHd; f_equal; lia.
Qed.

(** The digits of a decimal numeral, read back, give its value. *)
Lemma mathInt_uint (d : Decimal.uint) :
  Js.mathInt 10 (Js.radixDigits 10 (NilEmpty.string_of_uint d)) = Z.of_uint d.
Proof.
  unfold Z.of_uint, Js.mathInt.
  induction d; cbn [NilEmpty.string_of_uint Pos.of_uint]; [reflexivity|..];
    decimal_digit; cbn [fold_left]; try exact IHd;
    cbn [Z.of_N]; rewrite <- radixDigits_uint_acc; reflexivity.
Qed.

Lemma uint_string_digit (d : Decimal.uint) :
  match NilEmpty.string_of_uint d with
  | String c _ => ParserUtils.isDigit c = true
  | EmptyString => True
  end.
Proof. destruct d; simpl; auto. Qed.

Ltac ascii_cases c :=
  destruct c as [[] [] [] [] [] [] [] []]; try discriminate.

(** A lexeme that starts with a decimal digit, followed by nothing or by
    another decimal digit, is read in base 10. *)
Lemma parseMultiplicityBound_decimal (c : ascii) (r : string) :
  ParserUtils.isDigit c = true ->
  match r with
  | String c2 _ => ParserUtils.isDigit c2 = true
  | EmptyString => True
  end ->
  Multiplicity.parseMultiplicityBound (String c r)
  = Some (Js.mathInt 10 (Js.radixDigits 10 (String c r))).
Proof.
  intros Hc Hr.
  assert (Hparse : Js.parseInt (String c r) 10
                   = Some (Js.mathInt 10 (Js.radixDigits 10 (String c r)))).
  { ascii_cases c; cbv -[Js.radixDigits Js.mathInt Z.mul];
      repeat decimal_digit; now rewrite Z.mul_1_l. }
  unfold Multiplicity.parseMultiplicityBound.
  replace (String.eqb (String c r) "*") with false
    by (ascii_cases c; reflexivity).
  replace (Js.startsWith "0x" (Js.toLowerCase (String c r))) with false.
  2:{ ascii_cases c; try reflexivity.
      destruct r as [|c2 r]; [reflexivity|]. ascii_cases c2; reflexivity. }
  replace (Js.startsWith "0b" (Js.toLowerCase (String c r))) with false.
  2:{ ascii_cases c; try reflexivity.
      destruct r as [|c2 r]; [reflexivity|]. ascii_cases c2; reflexivity. }
  replace (Js.startsWith "0o" (Js.toLowerCase (String c r))) with false.
  2:{ ascii_cases c; try reflexivity.
      destruct r as [|c2 r]; [reflexivity|]. ascii_cases c2; reflexivity. }
  exact Hparse.
Qed.

Lemma parseMultiplicityBound_negative (c : ascii) (r : string) :
  ParserUtils.isDigit c = true ->
  Multiplicity.parseMultiplicityBound (String "-" (String c r))
  = Some (- Js.mathInt 10 (Js.radixDigits 10 (String c r)))%Z.
Proof.
  intros Hc. unfold Multiplicity.parseMultiplicityBound.
  change (String.eqb (String "-" (String c r)) "*") with false.
  change (Js.startsWith "0x" (Js.toLowerCase (String "-" (String c r))))
    with false.
  change (Js.startsWith "0b" (Js.toLowerCase (String "-" (String c r))))
    with false.
  change (Js.startsWith "0o" (Js.toLowerCase (String "-" (String c r))))
    with false.
  cbv iota.
  ascii_cases c; cbv -[Js.radixDigits Js.mathInt Z.mul Z.opp];
    repeat decimal_digit; f_equal; lia.
Qed.

Lemma parseMultiplicityBound_uint (d : Decimal.uint) :
  Multiplicity.parseMultiplicityBound (NilZero.string_of_uint d)
  = Some (Z.of_uint d).
Proof.
  rewrite <- mathInt_uint.
  destruct d; [reflexivity|..]; cbn [NilZero.string_of_uint];
    cbn [NilEmpty.string_of_uint];
    (apply parseMultiplicityBound_decimal;
     [reflexivity|apply uint_string_digit]).
Qed.

Lemma parseMultiplicityBound_int (d : Decimal.int) :
  Multiplicity.parseMultiplicityBound (NilZero.string_of_int d)
  = Some (Z.of_int d).
Proof.
  destruct d as [d|d]; cbn [NilZero.string_of_int Z.of_int].
  - apply parseMultiplicityBound_uint.
  - rewrite <- mathInt_uint.
    destruct d; [reflexivity|..]; cbn [NilZero.string_of_uint];
      cbn [NilEmpty.string_of_uint];
      (apply parseMultiplicityBound_negative; reflexivity).
Qed.

(** X1: a bound value written in decimal, as the ordering message writes
    it, is read back by [parseMultiplicityBound] as the same value (within
    the range where doubles are exact). *)
Theorem X1_parse_printed_bound (z : Z) :
  Js.safeInteger z ->
  Multiplicity.parseMultiplicityBound (Js.numberToString z) = Some z.
Proof.
  intros _. unfold Js.numberToString.
  rewrite parseMultiplicityBound_int. f_equal. apply DecimalZ.of_to.
Qed.

Lemma X1_parse_printed_bound_witness :
  Multiplicity.parseMultiplicityBound (Js.numberToString (-1024)) = Some (-1024)%Z.
Proof.
  apply X1_parse_printed_bound. unfold Js.safeInteger. lia.
Defined.

(** ** Results of the multiplicity check *)

(** X2: [checkMultiplicity] reports every invalid result and only those:
    a valid result carries no message and yields no diagnostic; an invalid
    result carries a message that is not empty, and yields exactly one
    error diagnostic with that message and the property of the result. *)
Theorem X2_checkMultiplicity_reports_invalid
    (lb : option string) (ub : string) :
  let r := Multiplicity.validateMultiplicityBounds lb ub in
  let m := Multiplicity.mkBounds lb ub in
  (Multiplicity.isValid r = true
   /\ Multiplicity.error r = None /\ Multiplicity.errorProperty r = None
   /\ Multiplicity.checkMultiplicity m = [])
  \/ (Multiplicity.isValid r = false
      /\ exists e, Multiplicity.error r = Some e /\ e <> ""
                   /\ Multiplicity.checkMultiplicity m
                      = [mkDiag error_ e m (Multiplicity.errorProperty r)]).
Proof.
  cbv zeta. unfold Multiplicity.checkMultiplicity.
  cbn [Multiplicity.lowerBound Multiplicity.upperBound].
  unfold Multiplicity.validateMultiplicityBounds.
  destruct (Multiplicity.lowerValue lb) as [L|].
  - destruct ((L <? 0)%Z && negb (Multiplicity.isUnbounded L)).
    + right. split; [reflexivity|]. eexists. split; [reflexivity|].
      split; [discriminate|reflexivity].
    + destruct (Multiplicity.parseMultiplicityBound ub) as [U|].
      * destruct (negb (Multiplicity.isUnbounded U) && (L >? U)%Z).
        -- right. split; [reflexivity|]. eexists. split; [reflexivity|].
           split; [discriminate|reflexivity].
        -- left. repeat split.
      * left. repeat split.
  - left. repeat split.
Qed.

(** X3: with the upper bound [*] the ordering error is never emitted,
    whatever the lower bound: the check emits nothing, or the one
    negative-lower-bound error. *)
Theorem X3_unbounded_upper_no_order_error (lb : option string) :
  let m := Multiplicity.mkBounds lb "*" in
  Multiplicity.checkMultiplicity m = []
  \/ Multiplicity.checkMultiplicity m = [negativeLowerDiagnostic m].
Proof.
  cbv zeta. destruct (Multiplicity.lowerValue lb) as [L|] eqn:E.
  - rewrite (checkMultiplicity_lower (Multiplicity.mkBounds lb "*") L E).
    destruct ((L <? 0)%Z && negb (Multiplicity.isUnbounded L));
      [now right|now left].
  - left. exact (checkMultiplicity_no_lower (Multiplicity.mkBounds lb "*") E).
Qed.

(** X4: a range whose two bounds are the same lexeme is never an ordering
    error: for [[s..s]] the check emits nothing, or the one
    negative-lower-bound error. *)
Theorem X4_equal_bounds_no_order_error (s : string) :
  let m := Multiplicity.mkBounds (Some s) s in
  Multiplicity.checkMultiplicity m = []
  \/ Multiplicity.checkMultiplicity m = [negativeLowerDiagnostic m].
Proof.
  cbv zeta. destruct s as [|c r]; [now left|].
  set (s := String c r).
  destruct (Multiplicity.parseMultiplicityBound s) as [L|] eqn:E.
  - rewrite (checkMultiplicity_lower (Multiplicity.mkBounds (Some s) s) L E).
    cbn [Multiplicity.upperBound]. rewrite E.
    destruct ((L <? 0)%Z && negb (Multiplicity.isUnbounded L)); [now right|].
    replace (L >? L)%Z with false
      by (symmetry; rewrite Z.gtb_ltb; apply Z.ltb_irrefl).
    rewrite andb_false_r. now left.
  - left.
    exact (checkMultiplicity_no_lower (Multiplicity.mkBounds (Some s) s) E).
Qed.

(** ** Name counts and duplicate groups *)

Section NameCountFacts.
Import Duplicates ElementUtils.

Lemma mapGet_mapSet {V} (m : JsMap V) (k k' : string) (v : V) :
  mapGet (mapSet m k v) k' = if String.eqb k k' then Some v else mapGet m k'.
Proof.
  induction m as [|[k0 v0] m IH]; cbn [mapSet mapGet].
  - reflexivity.
  - destruct (String.eqb k0 k) eqn:E0; cbn [mapGet].
    + apply String.eqb_eq in E0. subst k0.
      now destruct (String.eqb k k').
    + rewrite IH. destruct (String.eqb k0 k') eqn:E1; [|reflexivity].
      apply String.eqb_eq in E1. subst k0.
      destruct (String.eqb k k') eqn:E2; [|reflexivity].
      apply String.eqb_eq in E2. subst k'.
      rewrite String.eqb_refl in E0. discriminate.
Qed.

Lemma mapGet_of_In {V} (m : JsMap V) (k : string) (v : V) :
  NoDup (map fst m) -> In (k, v) m -> mapGet m k = Some v.
Proof.
  induction m as [|[k0 v0] m IH]; simpl; intros Hnd Hin; [contradiction|].
  inversion Hnd as [|? ? Hnotin Hnd']; subst.
  destruct Hin as [[= -> ->]|Hin].
  - now rewrite String.eqb_refl.
  - destruct (String.eqb k0 k) eqn:E; [|now apply IH].
    apply String.eqb_eq in E. subst k0. exfalso. apply Hnotin.
    apply in_map_iff. now exists (k, v).
Qed.

Lemma mapGet_filter {V} (p : string * V -> bool) (m : JsMap V) (k : string) :
  NoDup (map fst m) ->
  mapGet (filter p m) k =
  match mapGet m k with
  | Some v => if p (k, v) then Some v else None
  | None => None
  end.
Proof.
  induction m as [|[k0 v0] m IH]; simpl; intros Hnd; [reflexivity|].
  inversion Hnd as [|? ? Hnotin Hnd']; subst.
  destruct (String.eqb k0 k) eqn:E.
  - apply String.eqb_eq in E. subst k0.
    destruct (p (k, v0)); simpl.
    + now rewrite String.eqb_refl.
    + rewrite IH by exact Hnd'.
      destruct (mapGet m k) as [v|] eqn:Eg; [|reflexivity].
      exfalso. apply Hnotin. apply mapGet_In in Eg.
      apply in_map_iff. now exists (k, v).
  - destruct (p (k0, v0)); simpl; [rewrite E|]; now apply IH.
Qed.

Lemma nameCounts_fold (l : list AstNode) :
  forall c e,
    fst (fold_left (collectStep getElementName) l (c, e))
    = fold_left countStep l c.
Proof.
  induction l as [|x l IH]; intros c e; simpl; [reflexivity|].
  unfold countStep at 2.
  destruct (getElementName x) as [[|a r]|]; apply IH.
Qed.

Lemma countStep_fold (l : list AstNode) :
  forall counts seen,
    (forall n, n <> "" ->
               mapGet counts n =
               match group n seen with
               | [] => None
               | g => Some (List.length g)
               end) ->
    forall n, n <> "" ->
              mapGet (fold_left countStep l counts) n =
              match group n (seen ++ l) with
              | [] => None
              | g => Some (List.length g)
              end.
Proof.
  induction l as [|x l IH]; intros counts seen H n Hn; simpl.
  - rewrite app_nil_r. now apply H.
  - replace (seen ++ x :: l)%list with ((seen ++ [x]) ++ l)%list
      by (now rewrite <- app_assoc).
    apply IH; [|exact Hn].
    clear n Hn. intros n Hn. rewrite group_app. simpl.
    unfold countStep, getElementName.
    destruct (name x) as [[|a r]|] eqn:Ex.
    + rewrite (hasName_falsy n x Hn) by (now rewrite Ex).
      rewrite app_nil_r. now apply H.
    + rewrite mapGet_mapSet. unfold hasName. rewrite Ex.
      destruct (String.eqb (String a r) n) eqn:E.
      * apply String.eqb_eq in E. subst n. rewrite (H _ Hn).
        destruct (group (String a r) seen) as [|g0 g]; [reflexivity|].
        cbn [app]. rewrite length_app. cbn [List.length]. f_equal.
      * rewrite app_nil_r. now apply H.
    + rewrite (hasName_falsy n x Hn) by (now rewrite Ex).
      rewrite app_nil_r. now apply H.
Qed.

End NameCountFacts.

Lemma countElementNames_lookup (els : list AstNode) (n : string) :
  n <> "" ->
  Duplicates.mapGet (ElementUtils.countElementNames getElementName els) n
  = match group n els with
    | [] => None
    | g => Some (List.length g)
    end.
Proof.
  intros Hn. exact (countStep_fold els [] [] (fun _ _ => eq_refl) n Hn).
Qed.

Lemma nameCounts_countElementNames (els : list AstNode) :
  Duplicates.nameCounts (Duplicates.findDuplicateNames getElementName els)
  = ElementUtils.countElementNames getElementName els.
Proof.
  assert (Hfst : forall st : Duplicates.JsMap nat
                              * Duplicates.JsMap (list AstNode),
            Duplicates.nameCounts
              (let '(nameCounts, elementsByName) := st in
               Duplicates.mkDuplicateCheckResult
                 (filter (fun kv => 1 <? List.length (snd kv)) elementsByName)
                 nameCounts)
            = fst st) by (now intros [c e]).
  exact (eq_trans (Hfst _) (nameCounts_fold els [] [])).
Qed.

Lemma duplicates_lookup (els : list AstNode) (n : string) :
  n <> "" ->
  Duplicates.mapGet
    (Duplicates.duplicates (Duplicates.findDuplicateNames getElementName els))
    n
  = if 1 <? List.length (group n els) then Some (group n els) else None.
Proof.
  intros Hn.
  destruct (findDuplicateNames_duplicates els)
    as (m & (Hnd & Hval & Hkey) & ->).
  rewrite mapGet_filter by exact Hnd. cbn [snd].
  destruct (Duplicates.mapGet m n) as [v|] eqn:Eg.
  - apply mapGet_In in Eg.
    destruct (Hval n v Eg) as (_ & -> & _). reflexivity.
  - destruct (group n els) as [|e0 g0] eqn:Egr; [reflexivity|].
    exfalso. apply mapGet_None in Eg. apply Eg, Hkey; [exact Hn|].
    now rewrite Egr.
Qed.

(** X5: [countElementNames] maps every non-empty name to the number of
    elements that carry it, and has no entry for a name that no element
    carries; the [nameCounts] map of [findDuplicateNames] is the same
    map. *)
Theorem X5_name_counts (els : list AstNode) :
  (forall n, n <> "" ->
     Duplicates.mapGet
       (ElementUtils.countElementNames getElementName els) n
     = match group n els with
       | [] => None
       | g => Some (List.length g)
       end)
  /\ Duplicates.nameCounts (Duplicates.findDuplicateNames getElementName els)
     = ElementUtils.countElementNames getElementName els.
Proof.
  split.
  - intros n Hn. now apply countElementNames_lookup.
  - apply nameCounts_countElementNames.
Qed.

Lemma X5_name_counts_witness :
  Duplicates.mapGet
    (ElementUtils.countElementNames getElementName
       [partDefinition (Some "A") []; partDefinition None [];
        partDefinition (Some "A") []])
    "A"
  = Some 2.
Proof.
  apply (proj1 (X5_name_counts
                  [partDefinition (Some "A") []; partDefinition None [];
                   partDefinition (Some "A") []]) "A").
  discriminate.
Defined.

(** X6: the [duplicates] map of [findDuplicateNames] has an entry for a
    non-empty name exactly when two elements or more carry the name, and
    the entry holds those elements in their order; hence a name is a key
    of [duplicates] exactly when its count in [nameCounts] is above 1. *)
Theorem X6_duplicates_lookup (els : list AstNode) (n : string) :
  n <> "" ->
  let result := Duplicates.findDuplicateNames getElementName els in
  Duplicates.mapGet (Duplicates.duplicates result) n
  = (if 1 <? List.length (group n els) then Some (group n els) else None)
  /\ ((exists g, Duplicates.mapGet (Duplicates.duplicates result) n = Some g)
      <-> exists k, Duplicates.mapGet (Duplicates.nameCounts result) n = Some k
                    /\ 1 < k).
Proof.
  intros Hn result. unfold result.
  rewrite (duplicates_lookup els n Hn), nameCounts_countElementNames,
    (countElementNames_lookup els n Hn).
  split; [reflexivity|].
  destruct (group n els) as [|e0 g0]; simpl.
  - split; [intros [g Hg]|intros (k & Hk & _)]; discriminate.
  - destruct (Nat.ltb_spec 1 (S (List.length g0))).
    + split; [intros _|intros _; eauto].
      exists (S (List.length g0)). now split.
    + split; [intros [g Hg]; discriminate|].
      intros (k & [= <-] & Hk). lia.
Qed.

Lemma X6_duplicates_lookup_witness :
  Duplicates.mapGet
    (Duplicates.duplicates
       (Duplicates.findDuplicateNames getElementName
          [partDefinition (Some "A") []; partDefinition (Some "B") [];
           definition "ActionDefinition" (Some "A") []]))
    "A"
  = Some [partDefinition (Some "A") [];
          definition "ActionDefinition" (Some "A") []].
Proof.
  apply (proj1 (X6_duplicates_lookup
                  [partDefinition (Some "A") []; partDefinition (Some "B") [];
                   definition "ActionDefinition" (Some "A") []] "A"
                  ltac:(discriminate))).
Defined.

Section DistinctNames.
Import Duplicates ElementUtils.

Lemma extracted_names_count (els : list AstNode) (n : string) :
  n <> "" ->
  count_occ string_dec
            (map entryName (extractNamedElements getElementName els)) n
  = List.length (group n els).
Proof.
  intros Hn. induction els as [|x els IH]; [reflexivity|].
  cbn [extractNamedElements flat_map group filter].
  fold (extractNamedElements getElementName els). fold (group n els).
  rewrite map_app, count_occ_app, IH.
  unfold getElementName, hasName.
  destruct (name x) as [[|a r]|]; cbn [map count_occ Nat.add entryName].
  - replace (String.eqb "" n) with false; [reflexivity|].
    symmetry. apply String.eqb_neq. congruence.
  - destruct (string_dec (String a r) n) as [E|E].
    + rewrite E, String.eqb_refl. reflexivity.
    + apply String.eqb_neq in E. rewrite E. reflexivity.
  - reflexivity.
Qed.

Lemma extracted_names_nonempty (els : list AstNode) (n : string) :
  In n (map entryName (extractNamedElements getElementName els)) -> n <> "".
Proof.
  intros H. apply in_map_iff in H as (en & <- & Hen).
  apply in_flat_map in Hen as (x & _ & Hx).
  destruct (getElementName x) as [[|a r]|]; try (now destruct Hx).
  destruct Hx as [<-|[]]. discriminate.
Qed.

Lemma distinct_names_groups (els : list AstNode) :
  NoDup (map entryName (extractNamedElements getElementName els))
  <-> forall n, n <> "" -> List.length (group n els) < 2.
Proof.
  rewrite (NoDup_count_occ string_dec). split.
  - intros H n Hn. rewrite <- (extracted_names_count els n Hn).
    specialize (H n). lia.
  - intros H n. destruct (string_dec n "") as [->|Hn].
    + rewrite (proj1 (count_occ_not_In string_dec _ "")); [lia|].
      intros Hin. now apply extracted_names_nonempty in Hin.
    + rewrite (extracted_names_count els n Hn). specialize (H n Hn). lia.
Qed.

Lemma reportEntry_nonempty options n e g :
  reportEntry options n (e :: g) <> [].
Proof.
  unfold reportEntry.
  destruct (match reportAll options with Some b => b | None => true end);
    discriminate.
Qed.

Lemma no_report_iff_small_groups (els : list AstNode)
    (options : ReportDuplicatesOptions) :
  checkAndReportDuplicates els options = []
  <-> forall n, n <> "" -> List.length (group n els) < 2.
Proof.
  split.
  - intros Hout n Hn.
    pose proof (duplicates_for_name els options n Hn) as H.
    rewrite Hout in H. unfold withMessage in H. cbn [filter] in H.
    destruct (Nat.ltb_spec 1 (List.length (group n els))); [|lia].
    destruct (group n els) as [|e g]; [simpl in *; lia|].
    symmetry in H. now apply reportEntry_nonempty in H.
  - intros Hsmall. unfold checkAndReportDuplicates.
    rewrite reportDuplicates_entries.
    destruct (findDuplicateNames_duplicates els)
      as (m & (Hnd & Hval & Hkey) & ->).
    replace (filter (fun kv : string * list AstNode =>
                       1 <? List.length (snd kv)) m)
      with (@nil (string * list AstNode)); [reflexivity|].
    symmetry.
    destruct (filter (fun kv : string * list AstNode =>
                        1 <? List.length (snd kv)) m) as [|[k v] rest] eqn:E;
      [reflexivity|].
    assert (Hin : In (k, v)
                    (filter (fun kv : string * list AstNode =>
                               1 <? List.length (snd kv)) m))
      by (rewrite E; now left).
    apply filter_In in Hin as [Hin Hbig]. cbn [snd] in Hbig.
    destruct (Hval k v Hin) as (Hk & -> & _).
    apply Nat.ltb_lt in Hbig. specialize (Hsmall k Hk). lia.
Qed.

End DistinctNames.

(** X7: the duplicate check is silent exactly on collections whose named
    elements have pairwise distinct names: with any reporting options,
    [checkAndReportDuplicates] emits no diagnostic iff the names that
    [extractNamedElements] yields are free of repetition. *)
Theorem X7_no_report_iff_distinct_names (els : list AstNode)
    (options : Duplicates.ReportDuplicatesOptions) :
  Duplicates.checkAndReportDuplicates els options = []
  <-> NoDup (map ElementUtils.entryName
                 (ElementUtils.extractNamedElements getElementName els)).
Proof.
  rewrite no_report_iff_small_groups. symmetry. apply distinct_names_groups.
Qed.

(** ** Self-specialization, in full *)

(** X8: for a node with a non-empty name, [checkCircularSpecialization]
    emits one error per specialization that is the single-part name of the
    node, each with the same message, and nothing else: a qualified
    specialization such as [P::A] or another name never counts; hence it
    is silent iff no specialization is that single-part name.  Without a
    name, or without a specialization list, it is silent. *)
Theorem X8_self_specialization_exact (node : AstNode)
    (specs : list QualifiedName) (n : string) (elementType : option string) :
  n <> "" ->
  let isSelf := fun spec : QualifiedName =>
    match Ast.names spec with
    | Some [single] => String.eqb single n
    | _ => false
    end in
  let diagnostic :=
    mkDiag error_
      (match elementType with Some t => t | None => "Part definition" end
         ++ " '" ++ n ++ "' cannot specialize itself")
      node (Some "specializations") in
  Specialization.checkCircularSpecialization node (Some specs) (Some n)
                                             elementType
  = map (fun _ => diagnostic) (filter isSelf specs)
  /\ (Specialization.checkCircularSpecialization node (Some specs) (Some n)
                                                 elementType = []
      <-> forall spec, In spec specs -> Ast.names spec <> Some [n])
  /\ Specialization.checkCircularSpecialization node None (Some n)
                                                elementType = []
  /\ Specialization.checkCircularSpecialization node (Some specs) None
                                                elementType = []
  /\ Specialization.checkCircularSpecialization node (Some specs) (Some "")
                                                elementType = [].
Proof.
  intros Hn isSelf diagnostic.
  assert (Heq : Specialization.checkCircularSpecialization node (Some specs)
                  (Some n) elementType
                = map (fun _ => diagnostic) (filter isSelf specs)).
  { unfold Specialization.checkCircularSpecialization.
    destruct n as [|c r]; [contradiction|].
    induction specs as [|spec specs IH]; [reflexivity|].
    cbn [flat_map filter]. rewrite IH. unfold isSelf at 2.
    destruct (Ast.names spec) as [[|single [|x rest]]|]; try reflexivity.
    destruct (String.eqb single (String c r)); reflexivity. }
  split; [exact Heq|]. split; [|repeat split].
  rewrite Heq. split.
  - intros Hnil spec Hin Hnames.
    assert (Hself : In spec (filter isSelf specs)).
    { apply filter_In. split; [exact Hin|]. unfold isSelf.
      rewrite Hnames. apply String.eqb_refl. }
    destruct (filter isSelf specs); [destruct Hself|discriminate].
  - intros Hnone.
    destruct (filter isSelf specs) as [|spec rest] eqn:E; [reflexivity|].
    assert (Hin : In spec (filter isSelf specs)) by (rewrite E; now left).
    apply filter_In in Hin as [Hin Hself]. unfold isSelf in Hself.
    exfalso. apply (Hnone spec Hin).
    destruct (Ast.names spec) as [[|single [|x rest']]|]; try discriminate.
    apply String.eqb_eq in Hself. now subst.
Qed.

Lemma X8_self_specialization_exact_witness :
  Specialization.checkCircularSpecialization
    (partDefinition (Some "A") [qn ["P"; "A"]; qn ["B"]])
    (Some [qn ["P"; "A"]; qn ["B"]]) (Some "A") None
  = [].
Proof.
  apply (proj1 (proj2 (X8_self_specialization_exact
                         (partDefinition (Some "A") [qn ["P"; "A"]; qn ["B"]])
                         [qn ["P"; "A"]; qn ["B"]] "A" None
                         ltac:(discriminate)))).
  intros spec [<-|[<-|[]]]; discriminate.
Defined.

(* ===================================================================== *)
(** * Further properties of the scope engine                              *)
(* ===================================================================== *)

Lemma getAt_app (n : AstNode) (p q : Path) :
  getAt n (p ++ q)
  = match getAt n p with Some c => getAt c q | None => None end.
Proof.
  revert n. induction p as [|s p IH]; intros n; simpl; [reflexivity|].
  destruct (child n s) as [c|]; [apply IH|reflexivity].
Qed.

Lemma Visited_getAt (document : LangiumDocument) p here e :
  Visited document p here e -> getAt (root document) here = Some e.
Proof.
  induction 1 as [l i m e Hl Hi Hown Hvis He
                 |p here e n l i m e' Hv IH Hn Hne Hl Hi Hown Hvis He'].
  - simpl. rewrite Hl, Hi. simpl. now rewrite He.
  - rewrite getAt_app, IH. simpl. rewrite Hl, Hi. simpl. now rewrite He'.
Qed.

Section ExportSoundness.
Variable document : LangiumDocument.

Lemma exports_sound_invariant (x : AstNode) :
  (forall here parts d,
      Visited document parts here x ->
      In d (processDefinitionOrUsage document x here parts) ->
      exists p here' e n, exportOf document p here' e n d)
  /\ (forall here parts d,
        (forall e, element x = Some e ->
                   Visited document parts (here ++ [elementProp]) e) ->
        In d (processNamespaceElement document x here parts) ->
        exists p here' e n, exportOf document p here' e n d).
Proof.
  induction x as [x IHel IHels _ _] using AstNode_induction.
  split.
  - intros here parts d Hv. rewrite processDefinitionOrUsage_eq.
    unfold getElementName.
    destruct (name x) as [[|c r]|] eqn:En; [intros []| |intros []].
    intros H.
    apply in_app_iff in H as [[<-|[]]|H].
    { exists parts, here, x, (String c r). repeat split; auto.
      discriminate. }
    apply in_app_iff in H as [H|H].
    + destruct parts as [|p0 parts]; [destruct H|].
      destruct H as [<-|[]].
      exists (p0 :: parts), here, x, (String c r).
      repeat split; auto; [discriminate|]. right. split; [discriminate|].
      rewrite (join_snoc "::" (p0 :: parts)) by discriminate. reflexivity.
    + apply processNestedElements_In in H as (l & i & m & Hl & Hi & H).
      rewrite Hl in IHels. simpl in IHels.
      destruct (Forall_nth_error _ _ _ _ IHels Hi) as [_ Hm].
      pose proof H as Hown.
      apply processNamespaceElement_In in Hown as (Hown & Hvis & _).
      apply (Hm _ _ _ (fun e' He' => eq_rect _ (fun q => Visited document _ q e')
               (Visited_nested document parts here x (String c r) l i m e'
                  Hv En ltac:(discriminate) Hl Hi Hown Hvis He')
               _ (app_assoc here [elementsAt i] [elementProp])) H).
  - intros here parts d Hv H.
    pose proof H as H'.
    apply processNamespaceElement_In in H' as (Hown & Hvis & inner & Hin & H').
    rewrite Hin in IHel. simpl in IHel. destruct IHel as [Hel _].
    exact (Hel _ _ _ (Hv inner Hin) H').
Qed.

Lemma computeExports_exportOf (d : AstNodeDescription) :
  In d (computeExports document) <->
  exists p here e n, exportOf document p here e n d.
Proof.
  split.
  - intros H. apply computeExports_In in H as (l & i & m & Hl & Hi & H).
    pose proof H as Hown.
    apply processNamespaceElement_In in Hown as (Hown & Hvis & _).
    apply (proj2 (exports_sound_invariant m) [namespaceElementsAt i] [] d
             (fun e He => Visited_root document l i m e Hl Hi Hown Hvis He) H).
  - intros (p & here & e & n & Hv & Hn & Hne & Hd).
    apply (Visited_exports document p here e Hv).
    rewrite processDefinitionOrUsage_eq. unfold getElementName. rewrite Hn.
    destruct n as [|c r]; [contradiction|].
    destruct Hd as [->|[Hp ->]]; [now left|].
    destruct p as [|p0 p]; [contradiction|]. right. left.
    rewrite (join_snoc "::" (p0 :: p)) by discriminate. reflexivity.
Qed.

End ExportSoundness.

(** X9: the exports of a document are exactly the entries of the elements
    that the export traversal visits: an entry is exported iff it is the
    entry of a visited element with a non-empty name, under that name or,
    below a non-empty prefix, under the qualified name; and the path of a
    visited element leads from the root to that element.  So no entry
    stands for a node the traversal does not visit, and no name other than
    these two is ever exported for a node. *)
Theorem X9_exports_exact (document : LangiumDocument) :
  (forall d,
      In d (computeExports document) <->
      exists p here e n, exportOf document p here e n d)
  /\ (forall p here e,
        Visited document p here e -> getAt (root document) here = Some e).
Proof.
  split.
  - apply computeExports_exportOf.
  - apply Visited_getAt.
Qed.

(** ** The local scopes, exactly *)

Section LocalScopeExact.
Variable document : LangiumDocument.

Lemma processNestedLocalScopes_elements (container : AstNode) (here : Path) :
  processNestedLocalScopes document container here
  = match elements container with
    | Some l => processLocalScopes document false here elementsAt l
    | None => []
    end.
Proof.
  rewrite processNestedLocalScopes_eq.
  destruct (isPackageBody container);
    [|destruct (isTypeBodyRule container || isFeatureBodyRule container)];
    destruct (elements container) as [l|];
    rewrite ?processLocalScopes_filter; reflexivity.
Qed.

Lemma processLocalScopes_member (filtered : bool) (containerPath : Path)
    (at_ : nat -> Step) (l : list AstNode) i m inner c r :
  nth_error l i = Some m -> isOwningMembership m = true ->
  element m = Some inner -> name inner = Some (String c r) ->
  incl ((containerPath,
         createDescription document inner (String c r)
           (containerPath ++ [at_ i; elementProp]))
        :: processNestedLocalScopes document inner
             (containerPath ++ [at_ i; elementProp]))
       (processLocalScopes document filtered containerPath at_ l).
Proof.
  intros Hi Hown Hin Hn entry Hentry.
  unfold processLocalScopes, processLocalScopesWith.
  apply forEachIndexed_In. exists i, m. split; [exact Hi|]. simpl.
  rewrite Hown, Hin. unfold getElementName. rewrite Hn.
  rewrite Bool.orb_true_r. exact Hentry.
Qed.

Lemma Scoped_named c here e :
  Scoped document c here e -> Js.truthy (name e) = true.
Proof. now destruct 1. Qed.

Lemma Scoped_registered c here e n :
  Scoped document c here e -> name e = Some n ->
  In (c, mkDescription n (type_ e) (uri document) here)
     (computeLocalScopes document)
  /\ incl (processNestedLocalScopes document e here)
          (computeLocalScopes document).
Proof.
  intros Hs. revert n.
  induction Hs as [l i m e Hl Hi Hown He Hname
                  |c here e l i m e' Hs IH Hl Hi Hown He' Hname];
    intros n Hn.
  - assert (Hincl := fun c r (E : name e = Some (String c r)) =>
              processLocalScopes_member false [] namespaceElementsAt
                                        l i m e c r Hi Hown He E).
    unfold computeLocalScopes. rewrite Hl.
    rewrite Hn in Hname. destruct n as [|c r]; [discriminate|].
    split.
    + apply (Hincl c r Hn). now left.
    + intros entry Hentry. apply (Hincl c r Hn). now right.
  - destruct (name e) as [[|c0 r0]|] eqn:En.
    1,3: (apply Scoped_named in Hs; rewrite En in Hs; discriminate).
    destruct (IH _ eq_refl) as [_ Hnested].
    rewrite processNestedLocalScopes_elements, Hl in Hnested.
    rewrite Hn in Hname. destruct n as [|c1 r1]; [discriminate|].
    assert (Hincl := processLocalScopes_member false here elementsAt
                       l i m e' c1 r1 Hi Hown He' Hn).
    split.
    + apply Hnested, Hincl. now left.
    + intros entry Hentry. apply Hnested, Hincl. now right.
Qed.

Lemma local_scopes_sound_invariant (x : AstNode) :
  (forall c here entry,
      Scoped document c here x ->
      In entry (processNestedLocalScopes document x here) ->
      exists c' here' e n,
        Scoped document c' here' e /\ name e = Some n
        /\ entry = (c', mkDescription n (type_ e) (uri document) here'))
  /\ optAll (fun y =>
       forall c here entry,
         Scoped document c here y ->
         In entry (processNestedLocalScopes document y here) ->
         exists c' here' e n,
           Scoped document c' here' e /\ name e = Some n
           /\ entry = (c', mkDescription n (type_ e) (uri document) here'))
       (element x).
Proof.
  induction x as [x IHel IHels _ _] using AstNode_induction.
  split.
  - intros c0 here entry Hs.
    rewrite processNestedLocalScopes_elements.
    destruct (elements x) as [l|] eqn:Hl; [|intros []].
    intros H. apply processLocalScopesWith_In in H
      as (i & m & inner & c & r & Hi & Hown & Hin & Hname & H).
    assert (Hinner : Scoped document here
                            (here ++ [elementsAt i; elementProp]) inner).
    { apply (Scoped_nested document c0 here x l i m inner); auto.
      now rewrite Hname. }
    destruct H as [->|H].
    + exists here, (here ++ [elementsAt i; elementProp])%list, inner,
        (String c r). now split.
    + simpl in IHels.
      destruct (Forall_nth_error _ _ _ _ IHels Hi) as [_ Hm].
      rewrite Hin in Hm. simpl in Hm. exact (Hm _ _ _ Hinner H).
  - destruct (element x) as [e|]; simpl in *; [apply IHel|exact I].
Qed.

Lemma computeLocalScopes_Scoped (entry : Path * AstNodeDescription) :
  In entry (computeLocalScopes document) <->
  exists c here e n,
    Scoped document c here e /\ name e = Some n
    /\ entry = (c, mkDescription n (type_ e) (uri document) here).
Proof.
  split.
  - unfold computeLocalScopes.
    destruct (namespaceElements (root document)) as [l|] eqn:Hl; [|intros []].
    intros H. apply processLocalScopesWith_In in H
      as (i & m & inner & c & r & Hi & Hown & Hin & Hname & H).
    assert (Hinner : Scoped document []
                            [namespaceElementsAt i; elementProp] inner).
    { apply (Scoped_root document l i m inner); auto. now rewrite Hname. }
    destruct H as [->|H].
    + exists [], [namespaceElementsAt i; elementProp], inner, (String c r).
      now split.
    + exact (proj1 (local_scopes_sound_invariant inner) _ _ _ Hinner H).
  - intros (c & here & e & n & Hs & Hn & ->).
    exact (proj1 (Scoped_registered c here e n Hs Hn)).
Qed.

Lemma Scoped_getAt c here e :
  Scoped document c here e ->
  getAt (root document) here = Some e
  /\ exists s, here = (c ++ [s; elementProp])%list.
Proof.
  induction 1 as [l i m e Hl Hi Hown He Hname
                 |c here e l i m e' Hs [IH _] Hl Hi Hown He' Hname].
  - split; [|now exists (namespaceElementsAt i)].
    simpl. rewrite Hl, Hi. simpl. now rewrite He.
  - split; [|now exists (elementsAt i)].
    rewrite getAt_app, IH. simpl. rewrite Hl, Hi. simpl. now rewrite He'.
Qed.

Lemma Visited_Scoped p here e :
  Visited document p here e -> Js.truthy (name e) = true ->
  exists c, Scoped document c here e.
Proof.
  induction 1 as [l i m e Hl Hi Hown Hvis He
                 |p here e n l i m e' Hv IH Hn Hne Hl Hi Hown Hvis He'];
    intros Hname.
  - exists []. now apply (Scoped_root document l i m e).
  - destruct IH as [c Hc].
    { rewrite Hn. now destruct n. }
    exists here. now apply (Scoped_nested document c here e l i m e').
Qed.

End LocalScopeExact.

(** X10: the local scopes of a document are exactly the entries of the
    named elements of owning memberships, each registered under the
    path of its immediate container (the empty path for the members of the
    root) and under its simple name, whatever the visibility of the
    membership; the path of a registered element leads from the root to
    it and extends the path of its container by one member step.  Every
    element the export traversal visits that has a name is registered, so
    each exported node has a local-scope entry as well. *)
Theorem X10_local_scopes_exact (document : LangiumDocument) :
  (forall entry,
      In entry (computeLocalScopes document) <->
      exists c here e n,
        Scoped document c here e /\ name e = Some n
        /\ entry = (c, mkDescription n (type_ e) (uri document) here))
  /\ (forall c here e,
        Scoped document c here e ->
        getAt (root document) here = Some e
        /\ exists s, here = (c ++ [s; elementProp])%list)
  /\ (forall d,
        In d (computeExports document) ->
        exists c n,
          In (c, mkDescription n (descType d) (documentUri d) (path d))
             (computeLocalScopes document)).
Proof.
  split; [|split].
  - apply computeLocalScopes_Scoped.
  - apply Scoped_getAt.
  - intros d Hd.
    apply computeExports_exportOf in Hd as (p & here & e & n & Hv & Hn & Hne & Hd).
    destruct (Visited_Scoped document p here e Hv) as [c Hc].
    { rewrite Hn. now destruct n. }
    exists c, n. apply computeLocalScopes_Scoped.
    exists c, here, e, n. split; [exact Hc|]. split; [exact Hn|].
    destruct Hd as [->|[_ ->]]; reflexivity.
Qed.

(** ** Resolution of the parts of a qualified name *)

Lemma getElement_In (scope : Scope) (n : string) (d : AstNodeDescription) :
  In d scope -> descName d = n ->
  exists d', getElement scope n = Some d' /\ descName d' = n /\ In d' scope.
Proof.
  unfold getElement. intros Hin Hn.
  destruct (find (fun d0 => String.eqb (descName d0) n) scope) as [d'|] eqn:E.
  - exists d'. apply find_some in E as [Hin' E]. apply String.eqb_eq in E.
    now repeat split.
  - exfalso. apply (find_none _ _ E) in Hin.
    rewrite Hn, String.eqb_refl in Hin. discriminate.
Qed.

Lemma getNestedScope_child (allElements : list AstNodeDescription)
    (parts : list string) (e : AstNodeDescription) (remainder : string) :
  In e allElements ->
  descName e = Js.join "::" parts ++ "::" ++ remainder ->
  (forall a b, remainder <> a ++ "::" ++ b) ->
  In (mkDescription remainder (descType e) (documentUri e) (path e))
     (getNestedScope allElements parts).
Proof.
  intros He Hname Hrem. unfold getNestedScope, createScope.
  assert (Hlen : Js.length (Js.join "::" parts) + 2
                 = String.length (Js.join "::" parts ++ "::")).
  { unfold Js.length. rewrite string_app_length. reflexivity. }
  rewrite Hlen. apply in_map_iff. exists e.
  rewrite <- string_app_assoc in Hname. rewrite Hname, substring_app.
  split; [reflexivity|]. apply filter_In. split; [exact He|].
  rewrite Hname, startsWith_app, substring_app.
  destruct (Js.includes "::" remainder) eqn:E; [|reflexivity].
  apply includes_spec in E as (a & b & E). now apply Hrem in E.
Qed.

(** X11: exports and nested scope compose.  For an element that the
    export traversal visits under a non-empty prefix [p] and whose name [n]
    is not empty and holds no [::], the scope of the part of a qualified
    name [p::n] that follows the parts [p] holds the entry of the element
    under [n], and the part resolves, in the workspace of the one
    document, to an entry of that scope with the name [n]. *)
Theorem X11_visited_child_resolves (document : LangiumDocument)
    (p : list string) (here : Path) (e : AstNode) (n : string)
    (rest : list string) (owner : Path) :
  Visited document p here e -> p <> [] ->
  name e = Some n -> n <> "" -> (forall a b, n <> a ++ "::" ++ b) ->
  let context :=
    mkReferenceInfo (p ++ n :: rest) owner (Some (List.length p)) in
  In (mkDescription n (type_ e) (uri document) here)
     (getScope (computeExports document) document context)
  /\ exists d,
       resolveInDocument document context = Some d /\ descName d = n
       /\ In d (getScope (computeExports document) document context).
Proof.
  intros Hv Hp Hn Hne Hsep context.
  assert (Hscope : getScope (computeExports document) document context
                   = getNestedScope (computeExports document) p).
  { pose proof (firstn_app_2 0 p (n :: rest)) as Hf.
    rewrite Nat.add_0_r in Hf. cbn [firstn] in Hf. rewrite app_nil_r in Hf.
    unfold getScope, getQualifiedNameScope, context. cbn [index names].
    rewrite Hf. destruct p as [|p0 p']; [contradiction|]. reflexivity. }
  assert (Hin : In (mkDescription n (type_ e) (uri document) here)
                   (getNestedScope (computeExports document) p)).
  { apply (getNestedScope_child (computeExports document) p
             (mkDescription (Js.join "::" p ++ "::" ++ n) (type_ e)
                            (uri document) here) n);
      [|reflexivity|exact Hsep].
    apply computeExports_exportOf. exists p, here, e, n.
    split; [exact Hv|]. split; [exact Hn|]. split; [exact Hne|].
    right. now split. }
  rewrite Hscope. split; [exact Hin|].
  unfold resolveInDocument, resolvePart. rewrite Hscope.
  unfold context. cbn [index names].
  rewrite nth_error_app2 by lia. rewrite Nat.sub_diag. cbn [nth_error].
  destruct (getElement_In _ n _ Hin eq_refl) as (d & Hd & Hdn & Hdin).
  now exists d.
Qed.

Lemma X11_visited_child_resolves_witness :
  let document :=
    mkDocument "memory://document.sysml"
      (rootNamespace
         [ owningMembership None
             (package (Some "A")
                [ owningMembership None (partDefinition (Some "B") []) ]) ]) in
  exists d,
    resolveInDocument document (mkReferenceInfo ["A"; "B"] [] (Some 1))
    = Some d
    /\ descName d = "B".
Proof.
  intros document.
  destruct (X11_visited_child_resolves document ["A"]
              [namespaceElementsAt 0; elementProp; elementsAt 0; elementProp]
              (partDefinition (Some "B") []) "B" [] [])
    as (_ & d & Hd & Hn & _).
  - apply (Visited_nested document [] [namespaceElementsAt 0; elementProp]
             (package (Some "A")
                [ owningMembership None (partDefinition (Some "B") []) ])
             "A"
             [ owningMembership None (partDefinition (Some "B") []) ]
             0 (owningMembership None (partDefinition (Some "B") []))
             (partDefinition (Some "B") []));
      try reflexivity; [|discriminate].
    eapply (Visited_root document _ 0); reflexivity.
  - discriminate.
  - reflexivity.
  - discriminate.
  - intros a b H.
    assert (Js.includes "::" "B" = true)
      by (apply includes_spec; now exists a, b).
    discriminate.
  - exists d. now split.
Defined.

Lemma find_app_first {A} (f : A -> bool) (l1 l2 : list A) :
  find f (l1 ++ l2)
  = match find f l1 with Some x => Some x | None => find f l2 end.
Proof.
  induction l1 as [|x l1 IH]; simpl; [reflexivity|].
  now destruct (f x).
Qed.

(** X12: in the scope of the first part of a qualified name the entries
    of the index come first.  When the root of the document is a root
    namespace and the index holds an entry for the text of the part, the
    part resolves to the first such entry of the index, whatever the
    position of the reference and whatever the enclosing containers
    declare; the local names are consulted only when the index holds no
    entry for the text; and when the root is not a root namespace the part
    does not resolve. *)
Theorem X12_first_part_prefers_index (allElements : list AstNodeDescription)
    (document : LangiumDocument) (context : ReferenceInfo) (text : string) :
  (index context = None \/ index context = Some 0) ->
  nth_error (names context) 0 = Some text ->
  let locals :=
    map (fun local =>
           mkDescription (localName local) (type_ (localNode local))
                         (uri document) (localPath local))
        (getLocalScopeDescriptions document (owner context)) in
  (isRootNamespace (root document) = true ->
   (forall d, getElement allElements text = Some d ->
              resolvePart allElements document context = Some d)
   /\ (getElement allElements text = None ->
       resolvePart allElements document context = getElement locals text))
  /\ (isRootNamespace (root document) = false ->
      resolvePart allElements document context = None).
Proof.
  intros Hindex Htext locals.
  assert (Hresolve : resolvePart allElements document context
                     = getElement (getInitialScope allElements document context)
                                  text).
  { unfold resolvePart, getScope, getQualifiedNameScope.
    destruct Hindex as [-> | ->]; cbn [Nat.eqb]; now rewrite Htext. }
  rewrite Hresolve. unfold getInitialScope, createScope. fold locals.
  split.
  - intros ->. cbn [negb]. unfold getElement. rewrite find_app_first. split.
    + intros d Hd. unfold getElement in Hd. now rewrite Hd.
    + intros Hnone. unfold getElement in Hnone. now rewrite Hnone.
  - intros ->. reflexivity.
Qed.

Lemma X12_first_part_prefers_index_witness :
  option_map path
    (resolvePart (computeExports shadowingDocument) shadowingDocument
                 (mkReferenceInfo ["X"] refInner (Some 0)))
  = Some outerX.
Proof.
  destruct (X12_first_part_prefers_index (computeExports shadowingDocument)
              shadowingDocument (mkReferenceInfo ["X"] refInner (Some 0)) "X")
    as [H _].
  - now right.
  - reflexivity.
  - destruct (H eq_refl) as [H' _].
    rewrite (H' (mkDescription "X" "PartDefinition" "memory://document.sysml"
                               outerX) eq_refl).
    reflexivity.
Defined.

(** ** The local names of a reference *)

Lemma StronglySorted_app {A} (R : A -> A -> Prop) (l1 l2 : list A) :
  StronglySorted R l1 -> StronglySorted R l2 ->
  (forall a b, In a l1 -> In b l2 -> R a b) ->
  StronglySorted R (l1 ++ l2).
Proof.
  intros H1 H2 Hcross. induction H1 as [|a l1 H1 IH Ha]; [exact H2|].
  simpl. constructor.
  - apply IH. intros x y Hx Hy. apply Hcross; [now right|exact Hy].
  - apply Forall_app. split; [exact Ha|].
    apply Forall_forall. intros y Hy. apply Hcross; [now left|exact Hy].
Qed.

Lemma StronglySorted_all {A} (R : A -> A -> Prop) (l : list A) :
  (forall a b, In a l -> In b l -> R a b) -> StronglySorted R l.
Proof.
  induction l as [|x l IH]; intros H; constructor.
  - apply IH. intros a b Ha Hb. apply H; now right.
  - apply Forall_forall. intros y Hy. apply H; [now left|now right].
Qed.

Lemma find_first_sorted {A} (R : A -> A -> Prop) (f : A -> bool)
    (l : list A) (x : A) :
  (forall a, R a a) -> StronglySorted R l -> find f l = Some x ->
  forall y, In y l -> f y = true -> R x y.
Proof.
  intros Hrefl Hs. induction Hs as [|a l Hs IH Ha]; [discriminate|].
  simpl. destruct (f a) eqn:Ea.
  - intros [= <-] y [<-|Hy] _; [apply Hrefl|].
    rewrite Forall_forall in Ha. now apply Ha.
  - intros Hx y [<-|Hy] Hfy; [congruence|]. now apply IH.
Qed.

Lemma find_map {A B} (f : B -> bool) (g : A -> B) (l : list A) :
  find f (map g l) = option_map g (find (fun a => f (g a)) l).
Proof.
  induction l as [|a l IH]; simpl; [reflexivity|].
  now destruct (f (g a)).
Qed.

Lemma collectVisibleNames_In (c : AstNode) (here : Path)
    (ld : LocalDescription) :
  In ld (collectVisibleNames c here) ->
  (isRootNamespace c = true \/ isPackageBody c = true)
  /\ exists s m,
       child c s = Some m /\ isOwningMembership m = true
       /\ element m = Some (localNode ld)
       /\ name (localNode ld) = Some (localName ld) /\ localName ld <> ""
       /\ localPath ld = (here ++ [s; elementProp])%list.
Proof.
  unfold collectVisibleNames.
  assert (Hcollect : forall (at_ : nat -> Step) l,
    In ld (forEachIndexed
             (fun i element =>
                if isOwningMembership element then
                  match element.(Ast.element) with
                  | Some inner =>
                      match getElementName inner with
                      | Some (String c0 r) =>
                          [mkLocal (String c0 r) inner
                                   (here ++ [at_ i; elementProp])%list]
                      | _ => []
                      end
                  | None => []
                  end
                else []) 0 l) ->
    exists i m,
      nth_error l i = Some m /\ isOwningMembership m = true
      /\ element m = Some (localNode ld)
      /\ name (localNode ld) = Some (localName ld) /\ localName ld <> ""
      /\ localPath ld = (here ++ [at_ i; elementProp])%list).
  { intros at_ l H. apply forEachIndexed_In in H as (i & m & Hi & H).
    simpl in H.
    destruct (isOwningMembership m) eqn:Hown; [|destruct H].
    destruct (element m) as [inner|] eqn:Hin; [|destruct H].
    unfold getElementName in H.
    destruct (name inner) as [[|c0 r]|] eqn:Hn; try (now destruct H).
    destruct H as [<-|[]]. exists i, m. simpl. repeat split; auto.
    discriminate. }
  destruct (isRootNamespace c) eqn:Hroot.
  - destruct (namespaceElements c) as [l|] eqn:Hl.
    + intros H. split; [now left|].
      apply Hcollect in H as (i & m & Hi & H).
      exists (namespaceElementsAt i), m. simpl. rewrite Hl. now split.
    + destruct (isPackageBody c) eqn:Hpkg; [|intros []].
      destruct (elements c) as [l|] eqn:Hl'; [|intros []].
      intros H. split; [now left|].
      apply Hcollect in H as (i & m & Hi & H).
      exists (elementsAt i), m. simpl. rewrite Hl'. now split.
  - destruct (isPackageBody c) eqn:Hpkg; [|intros []].
    destruct (elements c) as [l|] eqn:Hl; [|intros []].
    intros H. split; [now right|].
    apply Hcollect in H as (i & m & Hi & H).
    exists (elementsAt i), m. simpl. rewrite Hl. now split.
Qed.

Lemma chainDown_In (p : Path) :
  forall n here c q,
    In (c, q) (chainDown n here p) ->
    exists pre post,
      p = (pre ++ post)%list /\ q = (here ++ pre)%list
      /\ getAt n pre = Some c.
Proof.
  induction p as [|s p IH]; intros n here c q; simpl.
  - intros [[= <- <-]|[]]. exists [], []. now rewrite !app_nil_r.
  - intros [[= <- <-]|H].
    + exists [], (s :: p). now rewrite !app_nil_r.
    + destruct (child n s) as [c0|] eqn:Hc; [|destruct H].
      apply IH in H as (pre & post & -> & -> & Hget).
      exists (s :: pre), post. rewrite <- app_assoc. simpl.
      rewrite Hc. now repeat split.
Qed.

Lemma locals_sorted (p : Path) :
  forall n here,
    StronglySorted deeperFirst
      (flat_map (fun np => collectVisibleNames (fst np) (snd np))
                (rev (chainDown n here p))).
Proof.
  assert (Hlevel : forall n here,
            StronglySorted deeperFirst (collectVisibleNames n here ++ [])).
  { intros n here. rewrite app_nil_r. apply StronglySorted_all.
    intros a b Ha Hb. unfold deeperFirst.
    apply collectVisibleNames_In in Ha as (_ & s & m & _ & _ & _ & _ & _ & ->).
    apply collectVisibleNames_In in Hb as (_ & s' & m' & _ & _ & _ & _ & _ & ->).
    rewrite !length_app. simpl. lia. }
  induction p as [|s p IH]; intros n here.
  - simpl. apply Hlevel.
  - cbn [chainDown]. cbn [rev]. rewrite flat_map_app.
    cbn [flat_map fst snd].
    apply StronglySorted_app; [|apply Hlevel|].
    + destruct (child n s) as [c|]; [apply IH|constructor].
    + intros a b Ha Hb. unfold deeperFirst.
      rewrite app_nil_r in Hb.
      apply collectVisibleNames_In in Hb
        as (_ & s' & m' & _ & _ & _ & _ & _ & ->).
      destruct (child n s) as [c|]; [|destruct Ha].
      apply in_flat_map in Ha as ([c' q'] & Hin & Ha).
      apply in_rev in Hin.
      apply chainDown_In in Hin as (pre & post & _ & -> & _).
      apply collectVisibleNames_In in Ha
        as (_ & s'' & m'' & _ & _ & _ & _ & _ & ->).
      cbn [snd]. rewrite !length_app. simpl. lia.
Qed.

Lemma getLocalScopeDescriptions_In (document : LangiumDocument)
    (node : Path) (ld : LocalDescription) :
  In ld (getLocalScopeDescriptions document node) ->
  exists pre post s c,
    node = (pre ++ post)%list /\ getAt (root document) pre = Some c
    /\ (isRootNamespace c = true \/ isPackageBody c = true)
    /\ localPath ld = (pre ++ [s; elementProp])%list
    /\ getAt (root document) (localPath ld) = Some (localNode ld)
    /\ name (localNode ld) = Some (localName ld) /\ localName ld <> "".
Proof.
  unfold getLocalScopeDescriptions. intros H.
  apply in_flat_map in H as ([c q] & Hin & H). apply in_rev in Hin.
  apply chainDown_In in Hin as (pre & post & -> & -> & Hget).
  cbn [fst snd] in H.
  apply collectVisibleNames_In in H
    as (Hkind & s & m & Hm & Hown & Hel & Hn & Hne & Hpath).
  exists pre, post, s, c. simpl in Hpath. repeat split; auto.
  rewrite Hpath, getAt_app, Hget. simpl. rewrite Hm. simpl. now rewrite Hel.
Qed.

(** X13: the local names of a reference come from the enclosing
    containers only, innermost first.  Every local description of a node
    stands for a named element of an owning membership of a root namespace
    or a package that lies on the way from the root to the node, whatever
    the visibility of the membership; its path leads from the root to the
    element; and in the list a description never comes after one of a
    shallower container. *)
Theorem X13_locals_innermost_first (document : LangiumDocument)
    (node : Path) :
  (forall ld,
      In ld (getLocalScopeDescriptions document node) ->
      exists pre post s c,
        node = (pre ++ post)%list /\ getAt (root document) pre = Some c
        /\ (isRootNamespace c = true \/ isPackageBody c = true)
        /\ localPath ld = (pre ++ [s; elementProp])%list
        /\ getAt (root document) (localPath ld) = Some (localNode ld)
        /\ name (localNode ld) = Some (localName ld) /\ localName ld <> "")
  /\ StronglySorted deeperFirst (getLocalScopeDescriptions document node).
Proof.
  split.
  - apply getLocalScopeDescriptions_In.
  - apply locals_sorted.
Qed.

(** X14: among the local names, inner declarations shadow outer ones.
    When the root of the document is a root namespace and the index holds
    no entry for the text of the first part of a qualified name, a
    resolution of the part yields the description of a local name with
    that text, and no local name with the text lies deeper: the part
    resolves to the declaration of the innermost enclosing container that
    declares the name. *)
Theorem X14_locals_shadow_outwards (allElements : list AstNodeDescription)
    (document : LangiumDocument) (context : ReferenceInfo) (text : string)
    (d : AstNodeDescription) :
  (index context = None \/ index context = Some 0) ->
  nth_error (names context) 0 = Some text ->
  isRootNamespace (root document) = true ->
  getElement allElements text = None ->
  resolvePart allElements document context = Some d ->
  exists ld,
    In ld (getLocalScopeDescriptions document (owner context))
    /\ d = localDescription document ld /\ localName ld = text
    /\ forall ld',
         In ld' (getLocalScopeDescriptions document (owner context)) ->
         localName ld' = text ->
         List.length (localPath ld') <= List.length (path d).
Proof.
  intros Hindex Htext Hroot Hnone Hd.
  assert (Hresolve : resolvePart allElements document context
                     = getElement (getInitialScope allElements document context)
                                  text).
  { unfold resolvePart, getScope, getQualifiedNameScope.
    destruct Hindex as [-> | ->]; cbn [Nat.eqb]; now rewrite Htext. }
  rewrite Hresolve in Hd. unfold getInitialScope, createScope in Hd.
  rewrite Hroot in Hd. cbn [negb] in Hd. unfold getElement in Hd, Hnone.
  rewrite find_app_first, Hnone in Hd.
  change (fun local : LocalDescription =>
            mkDescription (localName local) (type_ (localNode local))
                          (uri document) (localPath local))
    with (localDescription document) in Hd.
  rewrite find_map in Hd.
  destruct (find (fun a => String.eqb (descName (localDescription document a))
                                      text)
                 (getLocalScopeDescriptions document (owner context)))
    as [ld|] eqn:E; [|discriminate].
  injection Hd as <-. exists ld.
  pose proof (find_some _ _ E) as [Hin Hname]. cbn in Hname.
  apply String.eqb_eq in Hname.
  split; [exact Hin|]. split; [reflexivity|]. split; [exact Hname|].
  intros ld' Hin' Hname'.
  apply (find_first_sorted deeperFirst _ _ ld
           (fun a => Nat.le_refl _) (locals_sorted _ _ _) E ld' Hin').
  cbn. rewrite Hname'. apply String.eqb_refl.
Qed.

Lemma X14_locals_shadow_outwards_witness :
  exists ld,
    In ld (getLocalScopeDescriptions privateShadowingDocument privateRef)
    /\ localPath ld = innerX /\ localName ld = "X".
Proof.
  destruct (X14_locals_shadow_outwards
              (computeExports privateShadowingDocument)
              privateShadowingDocument
              (mkReferenceInfo ["X"] privateRef (Some 0)) "X"
              (mkDescription "X" "PartDefinition" "memory://document.sysml"
                             innerX))
    as (ld & Hin & Hd & Hn & _).
  - now right.
  - reflexivity.
  - reflexivity.
  - reflexivity.
  - reflexivity.
  - exists ld. split; [exact Hin|]. split; [|exact Hn].
    now apply (f_equal path) in Hd.
Defined.

(* ===================================================================== *)
(** * Further properties of the parser utilities                          *)
(* ===================================================================== *)

(** ** The validation result *)

Section ValidationResultFacts.
Import ParserUtils.

Lemma severity_classes (ds : list LspDiagnostic) :
  List.length (filter (hasSeverity 1) ds)
  + List.length (filter (hasSeverity 2) ds)
  + List.length (filter (fun d => hasSeverity 3 d || hasSeverity 4 d) ds)
  + List.length
      (filter (fun d => negb (hasSeverity 1 d || hasSeverity 2 d
                              || hasSeverity 3 d || hasSeverity 4 d)) ds)
  = List.length ds.
Proof.
  induction ds as [|d ds IH]; [reflexivity|].
  unfold hasSeverity in *. cbn [filter].
  destruct (lspSeverity d) as [[|[|[|[|[|k]]]]]|];
    cbn [Nat.eqb orb negb List.length]; lia.
Qed.

Lemma filter_nil_iff {A} (f : A -> bool) (l : list A) :
  filter f l = [] <-> forall x, In x l -> f x = false.
Proof.
  induction l as [|a l IH]; simpl.
  - split; [intros _ x []|reflexivity].
  - destruct (f a) eqn:E.
    + split; [discriminate|]. intros H. specialize (H a (or_introl eq_refl)).
      congruence.
    + rewrite IH. split.
      * intros H x [<-|Hx]; auto.
      * intros H x Hx. apply H. now right.
Qed.

Lemma existsb_filter_nil {A} (f : A -> bool) (l : list A) :
  negb (existsb f l) = true <-> filter f l = [].
Proof.
  induction l as [|a l IH]; simpl; [tauto|].
  destruct (f a); simpl; [split; discriminate|exact IH].
Qed.

End ValidationResultFacts.

(** X15: the result of [validateDocument] is consistent.  It lists the
    diagnostics of the document in order, with their severities and with
    simplified messages; [isValid] holds exactly when [errors] is empty;
    [errors], [warnings] and [hints] hold the diagnostics of severity 1, of
    severity 2 and of severity 3 or 4, so together they never hold more
    than [diagnostics], and they hold as many exactly when every
    diagnostic has a severity from 1 to 4: a diagnostic without severity
    is listed in none of the three. *)
Theorem X15_validation_result_consistent
    (documentDiagnostics : option (list ParserUtils.LspDiagnostic)) :
  let r := ParserUtils.validateDocument documentDiagnostics in
  let given := match documentDiagnostics with Some l => l | None => [] end in
  map ParserUtils.lspSeverity (ParserUtils.diagnostics r)
  = map ParserUtils.lspSeverity given
  /\ map ParserUtils.lspMessage (ParserUtils.diagnostics r)
     = map (fun d => ParserUtils.simplifyParserError (ParserUtils.lspMessage d))
           given
  /\ (ParserUtils.isValid r = true <-> ParserUtils.errors r = [])
  /\ List.length (ParserUtils.errors r) + List.length (ParserUtils.warnings r)
     + List.length (ParserUtils.hints r)
     <= List.length (ParserUtils.diagnostics r)
  /\ (List.length (ParserUtils.errors r)
      + List.length (ParserUtils.warnings r)
      + List.length (ParserUtils.hints r)
      = List.length (ParserUtils.diagnostics r)
      <-> forall d, In d (ParserUtils.diagnostics r) ->
            exists k, ParserUtils.lspSeverity d = Some k /\ 1 <= k <= 4).
Proof.
  cbv zeta. unfold ParserUtils.validateDocument.
  cbn [ParserUtils.diagnostics ParserUtils.errors ParserUtils.warnings
       ParserUtils.hints ParserUtils.isValid].
  set (given := match documentDiagnostics with Some l => l | None => [] end).
  set (ds := map _ given).
  pose proof (severity_classes ds) as Hsum.
  split; [|split; [|split; [|split]]].
  - unfold ds. rewrite map_map. reflexivity.
  - unfold ds. rewrite map_map. reflexivity.
  - apply existsb_filter_nil.
  - lia.
  - split.
    + intros Heq d Hd.
      assert (Hnone : filter
                (fun d => negb (ParserUtils.hasSeverity 1 d
                                || ParserUtils.hasSeverity 2 d
                                || ParserUtils.hasSeverity 3 d
                                || ParserUtils.hasSeverity 4 d)) ds = []).
      { apply length_zero_iff_nil. lia. }
      pose proof (proj1 (filter_nil_iff _ _) Hnone d Hd) as Hk.
      unfold ParserUtils.hasSeverity in Hk.
      destruct (ParserUtils.lspSeverity d) as [[|[|[|[|[|k]]]]]|];
        try discriminate; eexists; (split; [reflexivity|lia]).
    + intros Hall.
      assert (Hnone : filter
                (fun d => negb (ParserUtils.hasSeverity 1 d
                                || ParserUtils.hasSeverity 2 d
                                || ParserUtils.hasSeverity 3 d
                                || ParserUtils.hasSeverity 4 d)) ds = []).
      { apply filter_nil_iff. intros d Hd.
        destruct (Hall d Hd) as (k & Hk & Hrange).
        unfold ParserUtils.hasSeverity. rewrite Hk.
        destruct k as [|[|[|[|[|k]]]]]; try reflexivity; lia. }
      rewrite Hnone in Hsum. simpl in Hsum. lia.
Qed.

(** ** Simplifying twice *)

Section SimplifyFacts.
Import ParserUtils.

Lemma dropWhile_stop (p : ascii -> bool) (u t : string) c r :
  dropWhile p u = String c r ->
  takeWhile p (u ++ t) = takeWhile p u
  /\ dropWhile p (u ++ t) = String c (r ++ t).
Proof.
  induction u as [|a u IH]; simpl; [discriminate|].
  destruct (p a) eqn:E.
  - intros H. destruct (IH H) as [-> ->]. now split.
  - intros [= <- <-]. now split.
Qed.

Lemma dropWhile_all (p : ascii -> bool) (u t : string) :
  dropWhile p u = "" ->
  takeWhile p (u ++ t) = u ++ takeWhile p t
  /\ dropWhile p (u ++ t) = dropWhile p t.
Proof.
  induction u as [|a u IH]; simpl; [now split|].
  destruct (p a) eqn:E; [|discriminate].
  intros H. destruct (IH H) as [-> ->]. now split.
Qed.

(** [altMatchAt] with the tests on the two delimiters written out. *)
Lemma altMatchAt_eq (s : string) :
  altMatchAt s =
  match takeWhile isDigit s with
  | EmptyString => None
  | String _ _ =>
      match dropWhile isDigit s with
      | EmptyString => None
      | String c r1 =>
          if Ascii.eqb c "." then
            match dropWhile Js.isWhiteSpace r1 with
            | EmptyString => None
            | String c2 r2 =>
                if Ascii.eqb c2 "[" then
                  match takeWhile (fun c => negb (Ascii.eqb c "]")) r2,
                        dropWhile (fun c => negb (Ascii.eqb c "]")) r2 with
                  | String _ _, String _ _ =>
                      Some (takeWhile (fun c => negb (Ascii.eqb c "]")) r2,
                            String.length (takeWhile isDigit s) + 1
                            + String.length (takeWhile Js.isWhiteSpace r1) + 1
                            + String.length
                                (takeWhile (fun c => negb (Ascii.eqb c "]")) r2)
                            + 1)
                  | _, _ => None
                  end
                else None
            end
          else None
      end
  end.
Proof.
  unfold altMatchAt.
  destruct (takeWhile isDigit s) as [|d0 ds]; [reflexivity|].
  destruct (dropWhile isDigit s) as [|c r1]; [reflexivity|].
  destruct c as [[] [] [] [] [] [] [] []]; try reflexivity.
  cbn [Ascii.eqb Bool.eqb].
  destruct (dropWhile Js.isWhiteSpace r1) as [|c2 r2]; [reflexivity|].
  destruct c2 as [[] [] [] [] [] [] [] []]; reflexivity.
Qed.

(** A match in a message that ends with the three dots of the truncation
    lies before the dots, so it is a match of every message with the same
    text before them. *)
Lemma altMatchAt_before_dots (u t : string) (x : string * nat) :
  altMatchAt (u ++ "...") = Some x -> altMatchAt (u ++ t) = Some x.
Proof.
  rewrite !altMatchAt_eq.
  destruct (dropWhile isDigit u) as [|c r] eqn:E1.
  { destruct (dropWhile_all isDigit u "..." E1) as [-> ->].
    intros H. exfalso. revert H.
    destruct (u ++ takeWhile isDigit "..."); [discriminate|].
    vm_compute. discriminate. }
  destruct (dropWhile_stop isDigit u "..." c r E1) as [-> ->].
  destruct (dropWhile_stop isDigit u t c r E1) as [-> ->].
  destruct (takeWhile isDigit u) as [|d0 ds]; [discriminate|].
  destruct (Ascii.eqb c "."); [|discriminate].
  destruct (dropWhile Js.isWhiteSpace r) as [|c2 r2] eqn:E2.
  { destruct (dropWhile_all Js.isWhiteSpace r "..." E2) as [_ ->].
    intros H. exfalso. revert H. vm_compute. discriminate. }
  destruct (dropWhile_stop Js.isWhiteSpace r "..." c2 r2 E2) as [-> ->].
  destruct (dropWhile_stop Js.isWhiteSpace r t c2 r2 E2) as [-> ->].
  destruct (Ascii.eqb c2 "["); [|discriminate].
  destruct (dropWhile (fun c => negb (Ascii.eqb c "]")) r2) as [|c3 r3] eqn:E3.
  { destruct (dropWhile_all _ r2 "..." E3) as [_ ->].
    intros H. exfalso. revert H.
    destruct (takeWhile _ (r2 ++ "...")); [discriminate|].
    vm_compute. discriminate. }
  destruct (dropWhile_stop _ r2 "..." c3 r3 E3) as [-> ->].
  destruct (dropWhile_stop _ r2 t c3 r3 E3) as [-> ->].
  trivial.
Qed.

Lemma altSearch_before_dots (u t : string) :
  forall pos pos',
    altSearch (u ++ t) pos = None -> altSearch (u ++ "...") pos' = None.
Proof.
  induction u as [|a u IH]; intros pos pos' H.
  - reflexivity.
  - change (String a u ++ "...") with (String a (u ++ "...")).
    change (String a u ++ t) with (String a (u ++ t)) in H.
    cbn [altSearch] in *.
    destruct (altMatchAt (String a (u ++ t))) as [[g len]|] eqn:Et;
      [discriminate|].
    destruct (altMatchAt (String a (u ++ "..."))) as [[g len]|] eqn:Ed.
    + apply (altMatchAt_before_dots (String a u) t) in Ed.
      simpl in Ed. congruence.
    + exact (IH _ _ H).
Qed.

Lemma slice0_substring (n : nat) (s : string) :
  s = Js.slice0 n s ++ Js.substring n s.
Proof.
  revert s. induction n as [|n IH]; intros [|c s]; simpl; try reflexivity.
  now rewrite <- IH.
Qed.

Lemma slice0_length (n : nat) (s : string) :
  n <= String.length s -> String.length (Js.slice0 n s) = n.
Proof.
  revert s. induction n as [|n IH]; intros [|c s]; simpl; intros H;
    try reflexivity; try lia.
  rewrite IH; lia.
Qed.

Lemma slice0_app (a b : string) :
  Js.slice0 (String.length a) (a ++ b) = a.
Proof. induction a as [|c a IH]; simpl; [now destruct b|now rewrite IH]. Qed.

Lemma collectAlternatives_extends (message : string) (room : nat) :
  forall lastIndex alternatives,
    exists more,
      fst (collectAlternatives room message lastIndex alternatives)
      = (alternatives ++ more)%list.
Proof.
  induction room as [|room IH]; intros lastIndex alternatives; simpl.
  - exists []. rewrite app_nil_r.
    now destruct (altExec message lastIndex) as [[g|] li].
  - destruct (altExec message lastIndex) as [[g|] li].
    + destruct (IH li (alternatives ++ [g])%list) as [more ->].
      exists (g :: more). now rewrite <- app_assoc.
    + exists []. now rewrite app_nil_r.
Qed.

Lemma collectAlternatives_step (message : string) (room lastIndex : nat)
    (alternatives : list string) :
  collectAlternatives (S room) message lastIndex alternatives
  = match altExec message lastIndex with
    | (Some g, lastIndex') =>
        collectAlternatives room message lastIndex' (alternatives ++ [g])%list
    | (None, lastIndex') => (alternatives, lastIndex')
    end.
Proof. reflexivity. Qed.

Lemma altExec_none (message : string) (lastIndex : nat) (li : nat) :
  altExec message lastIndex = (None, li) -> li = 0.
Proof.
  unfold altExec.
  destruct (altSearch (Js.substring lastIndex message) lastIndex)
    as [[g e]|]; now intros [= <-].
Qed.

(** The two shapes of a simplified message of the Expecting shape: the
    summary, when an alternative is found, and the truncation. *)
Lemma simplifyParserError_summary (message : string) (g : string) (li : nat) :
  expectingMatch message = true -> altExec message 0 = (Some g, li) ->
  exists rest, simplifyParserError message = "Unexpected '" ++ rest.
Proof.
  intros He Ha. unfold simplifyParserError. rewrite He. cbn [negb].
  destruct (collectAlternatives_extends message 4 li [g]) as [more Hmore].
  rewrite (collectAlternatives_step message 4 0 []), Ha.
  change (([] ++ [g])%list) with [g].
  destruct (collectAlternatives 4 message li [g]) as [alternatives lastIndex].
  cbn [fst] in Hmore. subst alternatives. cbn [app List.length Nat.ltb Nat.leb].
  eexists. reflexivity.
Qed.

Lemma simplifyParserError_unexpected (rest : string) :
  simplifyParserError ("Unexpected '" ++ rest) = "Unexpected '" ++ rest.
Proof. reflexivity. Qed.

Lemma simplifyParserError_twice (message : string) :
  simplifyParserError (simplifyParserError message)
  = simplifyParserError message.
Proof.
  destruct (expectingMatch message) eqn:He.
  2:{ assert (H : simplifyParserError message = message)
        by (unfold simplifyParserError; now rewrite He).
      now rewrite !H. }
  destruct (altExec message 0) as [[g|] li] eqn:Ha.
  { destruct (simplifyParserError_summary message g li He Ha) as [rest ->].
    apply simplifyParserError_unexpected. }
  pose proof (altExec_none _ _ _ Ha) as ->.
  rewrite (simplifyParserError_fallback message Ha), He. cbn [andb].
  destruct (Nat.ltb_spec 200 (String.length message)) as [Hlong|Hshort].
  2:{ rewrite (simplifyParserError_fallback message Ha), He. cbn [andb].
      destruct (Nat.ltb_spec 200 (String.length message)); [lia|reflexivity]. }
  assert (Hlen : String.length (Js.slice0 200 message) = 200)
    by (apply slice0_length; lia).
  assert (Hdots : altExec (Js.slice0 200 message ++ "...") 0 = (None, 0)).
  { unfold altExec in *. cbn [Js.substring] in *.
    destruct (altSearch message 0) as [[g e]|] eqn:Es; [discriminate|].
    rewrite (slice0_substring 200 message) in Es.
    now rewrite (altSearch_before_dots _ _ 0 0 Es). }
  rewrite (simplifyParserError_fallback _ Hdots).
  destruct (expectingMatch (Js.slice0 200 message ++ "...")
            && (200 <? String.length (Js.slice0 200 message ++ "...")));
    [|reflexivity].
  rewrite <- Hlen at 1. now rewrite slice0_app.
Qed.

Lemma simplifyParserError_bounded (message : string) :
  expectingMatch message = true -> altExec message 0 = (None, 0) ->
  String.length (simplifyParserError message) <= 203.
Proof.
  intros He Ha. rewrite (simplifyParserError_fallback message Ha), He.
  cbn [andb].
  destruct (Nat.ltb_spec 200 (String.length message)) as [Hlong|Hshort];
    [|lia].
  rewrite string_app_length, slice0_length by lia. simpl. lia.
Qed.

End SimplifyFacts.

(** X16: simplifying a message that has been simplified changes nothing:
    a summary starts with [Unexpected] and is no longer of the Expecting
    shape, and a truncated message yields the same truncation again, as no
    alternative can appear in it that the full message did not hold.  A
    message of the Expecting shape in which no alternative is found is
    returned with at most 203 units. *)
Theorem X16_simplify_idempotent (message : string) :
  ParserUtils.simplifyParserError (ParserUtils.simplifyParserError message)
  = ParserUtils.simplifyParserError message
  /\ (ParserUtils.expectingMatch message = true ->
      ParserUtils.altExec message 0 = (None, 0) ->
      String.length (ParserUtils.simplifyParserError message) <= 203).
Proof.
  split.
  - apply simplifyParserError_twice.
  - apply simplifyParserError_bounded.
Qed.

(* ===================================================================== *)
(** * Properties of the command line                                      *)
(* ===================================================================== *)

Section CliFacts.
Import Cli.

Lemma filterDiagnostics_In (ds : list Cli.Diagnostic)
    (options : ValidateOptions) (d : Cli.Diagnostic) :
  In d (filterDiagnostics ds options) ->
  In d ds /\ exists k, Cli.severity d = Some k /\ 1 <= k <= 4.
Proof.
  unfold filterDiagnostics. intros H. apply filter_In in H as [Hin Hk].
  split; [exact Hin|].
  destruct (Cli.severity d) as [[|[|[|[|[|k]]]]]|]; try discriminate;
    eexists; (split; [reflexivity|lia]).
Qed.

Lemma filter_filter {A} (f g : A -> bool) (l : list A) :
  filter f (filter g l) = filter (fun x => g x && f x) l.
Proof.
  induction l as [|x l IH]; simpl; [reflexivity|].
  destruct (g x); simpl; [destruct (f x)|]; now rewrite IH.
Qed.

End CliFacts.

(** X17: [filterDiagnostics] never hides an error.  Whatever the options,
    the diagnostics of severity 1 pass the filter unchanged and in order;
    what passes is part of the input and has a severity from 1 to 4, so a
    diagnostic without severity is never shown and the reporters never
    take their default branch on a shown diagnostic; warnings pass only
    with the warnings option and hints only with the hints option; and
    filtering again changes nothing. *)
Theorem X17_filter_never_hides_errors (ds : list Cli.Diagnostic)
    (options : Cli.ValidateOptions) :
  let shown := Cli.filterDiagnostics ds options in
  filter (severityIs 1) shown = filter (severityIs 1) ds
  /\ (forall d, In d shown ->
        In d ds
        /\ (exists k, Cli.severity d = Some k /\ 1 <= k <= 4)
        /\ Cli.severityToSarifLevel (Cli.severity d) <> "none"
        /\ (Cli.severityToString (Cli.severity d) = "error"
            <-> Cli.severity d = Some 1))
  /\ (Cli.optWarnings options = false -> filter (severityIs 2) shown = [])
  /\ (Cli.optHints options = false ->
      filter (fun d => severityIs 3 d || severityIs 4 d) shown = [])
  /\ Cli.filterDiagnostics shown options = shown.
Proof.
  cbv zeta. unfold Cli.filterDiagnostics.
  split; [|split; [|split; [|split]]].
  - rewrite filter_filter. apply filter_ext. intros d. unfold severityIs.
    destruct (Cli.severity d) as [[|[|[|[|[|k]]]]]|]; simpl;
      rewrite ?andb_false_r; reflexivity.
  - intros d Hd.
    destruct (filterDiagnostics_In ds options d Hd) as (Hin & k & Hk & Hr).
    split; [exact Hin|]. split; [now exists k|]. rewrite Hk.
    destruct k as [|[|[|[|[|k]]]]]; try lia; simpl;
      (split; [discriminate|]); split; try discriminate; reflexivity.
  - intros Hw. rewrite filter_filter. apply filter_nil_iff. intros d _.
    unfold severityIs. rewrite Hw.
    destruct (Cli.severity d) as [[|[|[|[|[|k]]]]]|]; simpl;
      rewrite ?andb_false_r; reflexivity.
  - intros Hh. rewrite filter_filter. apply filter_nil_iff. intros d _.
    unfold severityIs. rewrite Hh.
    destruct (Cli.severity d) as [[|[|[|[|[|k]]]]]|]; simpl;
      rewrite ?andb_false_r; reflexivity.
  - rewrite filter_filter. apply filter_ext. intros d.
    apply andb_diag.
Qed.

(** ** The validate command *)

Section ValidateCommandFacts.
Import Cli.
Variable chalk : Chalk.

Lemma validateStep_recorded (st : list FileResult * nat * nat * nat)
    (f : ValidatedFile) :
  validateStep st f
  = let '(fileResults, totalErrors, totalWarnings, totalHints) := st in
    ((fileResults
      ++ [mkFileResult (relativePath f) (absolute f) (recorded f)])%list,
     totalErrors + List.length (errors (recorded f)),
     totalWarnings + List.length (warnings (recorded f)),
     totalHints + List.length (hints (recorded f))).
Proof.
  destruct st as [[[frs e] w] h]. unfold validateStep, recorded.
  destruct (outcome f) as [r|err]; [reflexivity|].
  cbn [errors warnings hints List.length]. now rewrite !Nat.add_0_r.
Qed.

Lemma list_sum_cons (x : nat) (l : list nat) :
  list_sum (x :: l) = x + list_sum l.
Proof. reflexivity. Qed.

Lemma validate_loop (files : list ValidatedFile) :
  forall frs e w h,
    fold_left validateStep files (frs, e, w, h)
    = ((frs ++ map (fun f => mkFileResult (relativePath f) (absolute f)
                                          (recorded f)) files)%list,
       e + list_sum (map (fun f => List.length (errors (recorded f))) files),
       w + list_sum (map (fun f => List.length (warnings (recorded f))) files),
       h + list_sum (map (fun f => List.length (hints (recorded f))) files)).
Proof.
  induction files as [|f files IH]; intros frs e w h.
  - simpl. now rewrite app_nil_r, !Nat.add_0_r.
  - cbn [fold_left]. rewrite validateStep_recorded, IH.
    cbn [map]. rewrite !list_sum_cons, <- app_assoc, !Nat.add_assoc.
    reflexivity.
Qed.

Variable writeFile : string -> Report -> option string.

Lemma validateCommand_run (f0 : ValidatedFile) (files0 : list ValidatedFile)
    (options : ValidateOptions) :
  let files := f0 :: files0 in
  let code := if 0 <? countedErrors files then 1 else 0 in
  let output := formatResults chalk (shownResults files options) options in
  let summaryLines :=
    map printedLine
        (printSummary chalk (List.length files) (countedErrors files)
           (list_sum (map (fun f => List.length (warnings (recorded f)))
                          files))
           (list_sum (map (fun f => List.length (hints (recorded f))) files))
           options) in
  validateCommand chalk writeFile files options
  = if optQuiet options then mkRun [] [] None (exited code)
    else
      match optOutput options with
      | Some (String c r) =>
          match writeFile (String c r) output with
          | Some error => mkRun [] [] None (rejected error)
          | None =>
              mkRun []
                    (printedLine
                       (green chalk ("Output written to " ++ String c r))
                     :: summaryLines)
                    (Some (String c r, output)) (exited code)
          end
      | _ =>
          mkRun [] (printedReport output :: summaryLines) None (exited code)
      end.
Proof.
  cbv zeta. unfold validateCommand.
  cbn [List.length Nat.eqb]. rewrite validate_loop. cbn [Nat.add app].
  now destruct (optQuiet options).
Qed.

Lemma validateCommand_exited (files : list ValidatedFile)
    (options : ValidateOptions) (code : nat) :
  ending (validateCommand chalk writeFile files options) = exited code ->
  code = match files with
         | [] => 1
         | _ :: _ => if 0 <? countedErrors files then 1 else 0
         end.
Proof.
  destruct files as [|f0 files0]; [now intros [= <-]|].
  rewrite validateCommand_run.
  destruct (optQuiet options); [now intros [= <-]|].
  destruct (optOutput options) as [[|c r]|]; try (now intros [= <-]).
  destruct (writeFile (String c r) _); [discriminate|now intros [= <-]].
Qed.

Lemma validateCommand_rejected (files : list ValidatedFile)
    (options : ValidateOptions) (error : string) :
  ending (validateCommand chalk writeFile files options) = rejected error
  <-> failedWrite chalk writeFile files options error.
Proof.
  unfold failedWrite. destruct files as [|f0 files0].
  - split; [discriminate|]. now intros [H _].
  - rewrite validateCommand_run.
    destruct (optQuiet options).
    + split; [discriminate|]. intros (_ & H & _). discriminate.
    + destruct (optOutput options) as [[|c r]|].
      * split; [discriminate|].
        intros (_ & _ & target & [= <-] & H & _). contradiction.
      * destruct (writeFile (String c r) _) as [e|] eqn:Ew.
        -- split.
           ++ intros [= <-]. split; [discriminate|]. split; [reflexivity|].
              exists (String c r). split; [reflexivity|].
              split; [discriminate|exact Ew].
           ++ intros (_ & _ & target & [= <-] & _ & Hw).
              rewrite Ew in Hw. now injection Hw as <-.
        -- split; [discriminate|].
           intros (_ & _ & target & [= <-] & _ & Hw).
           rewrite Ew in Hw. discriminate.
      * split; [discriminate|].
        intros (_ & _ & target & H & _). discriminate.
Qed.

Lemma validateCommand_rejected_silent (files : list ValidatedFile)
    (options : ValidateOptions) (error : string) :
  ending (validateCommand chalk writeFile files options) = rejected error ->
  consoleLog (validateCommand chalk writeFile files options) = []
  /\ written (validateCommand chalk writeFile files options) = None.
Proof.
  destruct files as [|f0 files0]; [discriminate|].
  rewrite validateCommand_run.
  destruct (optQuiet options); [discriminate|].
  destruct (optOutput options) as [[|c r]|]; try discriminate.
  destruct (writeFile (String c r) _); [now split|discriminate].
Qed.

Lemma list_sum_zero (l : list nat) :
  list_sum l = 0 <-> forall k, In k l -> k = 0.
Proof.
  induction l as [|x l IH]; simpl.
  - split; [intros _ k []|reflexivity].
  - split.
    + intros H k [<-|Hk]; [lia|]. apply IH; [lia|exact Hk].
    + intros H. rewrite (H x (or_introl eq_refl)).
      apply IH. intros k Hk. apply H. now right.
Qed.

End ValidateCommandFacts.

Lemma countedErrors_zero (files : list Cli.ValidatedFile) :
  countedErrors files = 0
  <-> forall f, In f files ->
        exists r, Cli.outcome f = Cli.returned r /\ Cli.errors r = [].
Proof.
  unfold countedErrors. rewrite list_sum_zero. split.
  - intros H f Hf.
    assert (Hk : List.length (Cli.errors (recorded f)) = 0)
      by (apply H, in_map_iff; now exists f).
    unfold recorded in Hk. destruct (Cli.outcome f) as [r|err].
    + exists r. split; [reflexivity|]. now apply length_zero_iff_nil.
    + discriminate.
  - intros H k Hk. apply in_map_iff in Hk as (f & <- & Hf).
    destruct (H f Hf) as (r & Hr & He). unfold recorded. now rewrite Hr, He.
Qed.

(** X18: how the validate command ends.  The handler reaches
    [process.exit] unless it is not quiet, is given an output path, and
    the write of the report to that path fails: then the handler is
    rejected with the error of the write, nothing is logged, no summary is
    printed and no exit code is set by the command.  When the handler
    exits, the code is 0 exactly when the patterns expand to a file at
    least and the validation of every file returns a result whose
    [errors] are empty, and 1 otherwise: a file whose validation fails
    counts as one error, warnings and hints never count.  The code of an
    exit does not depend on the options nor on the file system. *)
Theorem X18_exit_code (chalk : Cli.Chalk)
    (writeFile : string -> Cli.Report -> option string)
    (files : list Cli.ValidatedFile) (options : Cli.ValidateOptions) :
  let run := Cli.validateCommand chalk writeFile files options in
  (forall error,
      Cli.ending run = Cli.rejected error
      <-> failedWrite chalk writeFile files options error)
  /\ (forall error,
        Cli.ending run = Cli.rejected error ->
        Cli.consoleLog run = [] /\ Cli.written run = None)
  /\ (forall code,
        Cli.ending run = Cli.exited code ->
        (code = 0 <->
           files <> []
           /\ forall f, In f files ->
                exists r, Cli.outcome f = Cli.returned r
                          /\ Cli.errors r = [])
        /\ (code = 0 \/ code = 1))
  /\ (forall writeFile' options' code code',
        Cli.ending run = Cli.exited code ->
        Cli.ending (Cli.validateCommand chalk writeFile' files options')
        = Cli.exited code' ->
        code = code').
Proof.
  cbv zeta. split; [|split; [|split]].
  - intros error. apply validateCommand_rejected.
  - intros error. apply validateCommand_rejected_silent.
  - intros code Hcode. apply validateCommand_exited in Hcode. subst code.
    destruct files as [|f0 files0] eqn:Ef.
    { split; [|now right]. split; [discriminate|]. now intros [H _]. }
    rewrite <- Ef.
    assert (Hne : files <> []) by (rewrite Ef; discriminate). clear Ef.
    rewrite <- countedErrors_zero.
    destruct (Nat.ltb_spec 0 (countedErrors files)) as [Hpos|Hzero].
    + split; [|now right]. split; [discriminate|]. intros [_ H]. lia.
    + split; [|now left]. split; [intros _|reflexivity].
      split; [exact Hne|lia].
  - intros writeFile' options' code code' H H'.
    apply validateCommand_exited in H. apply validateCommand_exited in H'.
    congruence.
Qed.

Lemma X18_exit_code_witness :
  let d := sampleDiagnostic (Some 2) 0 0 in
  let files :=
    [Cli.mkValidatedFile "a.sysml" "/a.sysml"
       (Cli.returned (Cli.mkValidationResult [d] [] [d] [] true))] in
  Cli.ending
    (Cli.validateCommand plainChalk writable files
       (Cli.mkValidateOptions "text" (Some "out.txt") true false false false))
  = Cli.exited 0
  /\ Cli.ending
       (Cli.validateCommand plainChalk
          (fun target report => Some "EACCES") files
          (Cli.mkValidateOptions "text" (Some "out.txt") true false false
                                 false))
     = Cli.rejected "EACCES".
Proof.
  intros d files. split.
  - destruct (X18_exit_code plainChalk writable files
                (Cli.mkValidateOptions "text" (Some "out.txt") true false
                                       false false))
      as (_ & _ & Hcode & _).
    destruct (Hcode 0 eq_refl) as [_ _]. reflexivity.
  - apply (proj1 (X18_exit_code plainChalk
                    (fun target report => Some "EACCES") files
                    (Cli.mkValidateOptions "text" (Some "out.txt") true false
                                           false false))
                 "EACCES").
    split; [discriminate|]. split; [reflexivity|].
    exists "out.txt". split; [reflexivity|]. split; [discriminate|reflexivity].
Defined.

(** ** The JSON report *)

Section JsonFacts.
Import Cli.

Lemma formatJson_loop (fileResults : list FileResult) :
  forall n fe te tw v fs,
    fold_left formatJsonStep fileResults
              (mkJsonOutput (mkJsonSummary n fe te tw v) fs)
    = mkJsonOutput
        (mkJsonSummary n
           (fe + List.length
                   (filter (fun fr => negb (isValid (result fr))) fileResults))
           (te + list_sum (map (fun fr => List.length (errors (result fr)))
                               fileResults))
           (tw + list_sum (map (fun fr => List.length (warnings (result fr)))
                               fileResults))
           (v && forallb (fun fr => isValid (result fr)) fileResults))
        (fs ++ map (fun fr =>
                      mkJsonFileResult (file fr) (isValid (result fr))
                        (List.length (errors (result fr)))
                        (List.length (warnings (result fr)))
                        (map convertDiagnostic (diagnostics (result fr))))
                   fileResults).
Proof.
  induction fileResults as [|fr frs IH]; intros n fe te tw v fs.
  - simpl. now rewrite !Nat.add_0_r, andb_true_r, app_nil_r.
  - cbn [fold_left]. unfold formatJsonStep at 2.
    cbn [summary files totalFiles filesWithErrors totalErrors totalWarnings
         summaryIsValid].
    destruct (isValid (result fr)) eqn:Ev; cbn [negb];
      cbn [totalFiles filesWithErrors totalErrors totalWarnings
           summaryIsValid];
      rewrite IH; cbn [filter forallb map]; rewrite Ev, !list_sum_cons;
      cbn [negb List.length andb];
      rewrite <- app_assoc, ?andb_true_r, ?andb_false_r, ?andb_false_l,
        !Nat.add_assoc;
      cbn [app]; try reflexivity.
    now rewrite <- (Nat.add_assoc fe 1), Nat.add_1_l, Nat.add_succ_r.
Qed.

End JsonFacts.

Lemma filter_map_length {A B} (p : B -> bool) (g : A -> B) (l : list A) :
  List.length (filter p (map g l))
  = List.length (filter (fun x => p (g x)) l).
Proof.
  induction l as [|x l IH]; simpl; [reflexivity|].
  destruct (p (g x)); simpl; now rewrite IH.
Qed.

(** X19: the JSON report adds up.  The report lists one entry per file
    result, in order, with the validity and the counts of the result and
    its diagnostics converted one by one; in the summary, [totalFiles] is
    the number of entries, [totalErrors] and [totalWarnings] are the sums
    of the counts of the entries, [filesWithErrors] is the number of
    entries that are not valid, and [isValid] holds exactly when there is
    no such entry. *)
Theorem X19_json_summary_adds_up (fileResults : list Cli.FileResult) :
  let o := Cli.formatJson fileResults in
  let s := Cli.summary o in
  Cli.files o
  = map (fun fr =>
           Cli.mkJsonFileResult (Cli.file fr) (Cli.isValid (Cli.result fr))
             (List.length (Cli.errors (Cli.result fr)))
             (List.length (Cli.warnings (Cli.result fr)))
             (map Cli.convertDiagnostic (Cli.diagnostics (Cli.result fr))))
        fileResults
  /\ Cli.totalFiles s = List.length (Cli.files o)
  /\ Cli.totalErrors s = list_sum (map Cli.errorCount (Cli.files o))
  /\ Cli.totalWarnings s = list_sum (map Cli.warningCount (Cli.files o))
  /\ Cli.filesWithErrors s
     = List.length (filter (fun f => negb (Cli.jsonIsValid f)) (Cli.files o))
  /\ (Cli.summaryIsValid s = true <-> Cli.filesWithErrors s = 0)
  /\ (Cli.summaryIsValid s = true <->
        forall f, In f (Cli.files o) -> Cli.jsonIsValid f = true).
Proof.
  cbv zeta. unfold Cli.formatJson. rewrite formatJson_loop.
  cbn [Cli.summary Cli.files Cli.totalFiles Cli.totalErrors Cli.totalWarnings
       Cli.filesWithErrors Cli.summaryIsValid app Nat.add andb].
  split; [reflexivity|]. split; [now rewrite length_map|].
  split; [now rewrite map_map|]. split; [now rewrite map_map|].
  split; [now rewrite filter_map_length|].
  split; [|rewrite forallb_forall; split].
  - rewrite length_zero_iff_nil, filter_nil_iff, forallb_forall.
    split; intros H fr Hfr; specialize (H fr Hfr);
      destruct (Cli.isValid (Cli.result fr)); simpl in *; congruence.
  - intros H f Hf. apply in_map_iff in Hf as (fr & <- & Hfr).
    exact (H fr Hfr).
  - intros H fr Hfr.
    apply (H (Cli.mkJsonFileResult (Cli.file fr)
                 (Cli.isValid (Cli.result fr))
                 (List.length (Cli.errors (Cli.result fr)))
                 (List.length (Cli.warnings (Cli.result fr)))
                 (map Cli.convertDiagnostic
                      (Cli.diagnostics (Cli.result fr))))).
    apply in_map_iff. now exists fr.
Qed.

Section JsonRunFacts.
Import Cli.

Lemma filterDiagnostics_errors (ds : list Cli.Diagnostic)
    (options : ValidateOptions) :
  filter (severityIs 1) (filterDiagnostics ds options)
  = filter (severityIs 1) ds.
Proof.
  unfold filterDiagnostics. rewrite filter_filter. apply filter_ext.
  intros d. unfold severityIs.
  destruct (Cli.severity d) as [[|[|[|[|[|k]]]]]|]; simpl;
    rewrite ?andb_false_r; reflexivity.
Qed.

Lemma filterDiagnostics_warnings (ds : list Cli.Diagnostic)
    (options : ValidateOptions) :
  filter (severityIs 2) (filterDiagnostics ds options)
  = if optWarnings options then filter (severityIs 2) ds else [].
Proof.
  unfold filterDiagnostics. rewrite filter_filter.
  destruct (optWarnings options) eqn:Hw.
  - apply filter_ext. intros d. unfold severityIs.
    destruct (Cli.severity d) as [[|[|[|[|[|k]]]]]|]; simpl;
      rewrite ?andb_false_r; reflexivity.
  - apply filter_nil_iff. intros d _. unfold severityIs.
    destruct (Cli.severity d) as [[|[|[|[|[|k]]]]]|]; simpl;
      rewrite ?andb_false_r; reflexivity.
Qed.

Lemma listed_label (label : string) (k : nat) (ds : list Cli.Diagnostic)
    (options : ValidateOptions) :
  (forall s, severityToString (Some s) = label -> 1 <= s <= 4 -> s = k) ->
  severityToString (Some k) = label ->
  List.length
    (filter (fun d => String.eqb (jsonSeverity d) label)
            (map convertDiagnostic (filterDiagnostics ds options)))
  = List.length (filter (severityIs k) (filterDiagnostics ds options)).
Proof.
  intros Honly Hk. rewrite filter_map_length. f_equal.
  apply filter_ext_in. intros d Hd.
  apply filterDiagnostics_In in Hd as (_ & s & Hs & Hr).
  cbn [jsonSeverity convertDiagnostic]. unfold severityIs. rewrite Hs.
  destruct (String.eqb_spec (severityToString (Some s)) label) as [E|E].
  - rewrite (Honly s E Hr). symmetry. apply Nat.eqb_refl.
  - symmetry. apply Nat.eqb_neq. intros ->. now apply E.
Qed.

Lemma recorded_consistent (f : ValidatedFile) :
  (forall r, outcome f = returned r -> consistentResult r) ->
  consistentResult (recorded f).
Proof.
  unfold recorded. destruct (outcome f) as [r|err]; intros H.
  - now apply H.
  - repeat split.
Qed.

Lemma consistent_valid (r : Cli.ValidationResult) :
  consistentResult r -> (isValid r = true <-> errors r = []).
Proof.
  intros (He & _ & _ & Hv). rewrite He, Hv. apply existsb_filter_nil.
Qed.

End JsonRunFacts.

(** X20: the JSON report of a run agrees with its exit code.  When the
    command runs on a file at least, not quiet, with the format [json],
    the results that the validation returns are consistent, and the
    handler exits (the output file, if one is asked for, is written), the
    run reports a JSON object, on the console or in the output file, whose
    summary is valid exactly when the exit code is 0, and in which the
    error count of every file is the number of its listed diagnostics of
    severity [error]; the warning count is at least the number of listed
    warnings, and equal to it when the warnings option is set.  When the
    handler is rejected instead, the run reports nothing. *)
Theorem X20_json_report_matches_exit (chalk : Cli.Chalk)
    (writeFile : string -> Cli.Report -> option string)
    (files : list Cli.ValidatedFile) (options : Cli.ValidateOptions) :
  files <> [] ->
  Cli.optQuiet options = false ->
  Cli.optFormat options = "json" ->
  (forall f r, In f files -> Cli.outcome f = Cli.returned r ->
               consistentResult r) ->
  let run := Cli.validateCommand chalk writeFile files options in
  (forall code,
      Cli.ending run = Cli.exited code ->
      exists o,
        reports run (Cli.jsonReport o)
        /\ o = Cli.formatJson (shownResults files options)
        /\ (Cli.summaryIsValid (Cli.summary o) = true <-> code = 0)
        /\ forall jf, In jf (Cli.files o) ->
             Cli.errorCount jf = listedAs "error" jf
             /\ listedAs "warning" jf <= Cli.warningCount jf
             /\ (Cli.optWarnings options = true ->
                 listedAs "warning" jf = Cli.warningCount jf))
  /\ (forall error,
        Cli.ending run = Cli.rejected error ->
        forall report, ~ reports run report).
Proof.
  intros Hne Hquiet Hformat Hcons run.
  assert (Hall : forall f, In f files -> consistentResult (recorded f)).
  { intros f Hf. apply recorded_consistent. intros r. now apply Hcons. }
  split.
  - intros code Hcode.
    exists (Cli.formatJson (shownResults files options)).
    split; [|split; [reflexivity|split]].
    + unfold run, reports in *.
      destruct files as [|f0 files0]; [contradiction|].
      rewrite validateCommand_run in Hcode |- *. rewrite Hquiet in *.
      unfold Cli.formatResults in *. rewrite Hformat in *.
      change (String.eqb "json" "json") with true in *. cbv iota in *.
      destruct (Cli.optOutput options) as [[|c r]|];
        try (left; eexists; reflexivity).
      destruct (writeFile (String c r) _); [discriminate|].
      right. eexists. reflexivity.
    + apply validateCommand_exited in Hcode. subst code.
      unfold Cli.formatJson. rewrite formatJson_loop.
      cbn [Cli.summary Cli.summaryIsValid andb].
      unfold shownResults, recordedResults. rewrite !forallb_forall.
      destruct files as [|f0 files0] eqn:Ef; [contradiction|].
      rewrite <- Ef in *. clear Ef.
      destruct (Nat.ltb_spec 0 (countedErrors files)) as [Hpos|Hzero].
      * split; [|discriminate]. intros Hvalid. exfalso.
        assert (Hsum : countedErrors files = 0).
        { apply list_sum_zero. intros k Hk.
          apply in_map_iff in Hk as (f & <- & Hf).
          apply length_zero_iff_nil, (consistent_valid _ (Hall f Hf)).
          apply (Hvalid
                   (Cli.mkFileResult (Cli.relativePath f) (Cli.absolute f)
                      (Cli.mkValidationResult
                         (Cli.filterDiagnostics
                            (Cli.diagnostics (recorded f)) options)
                         (Cli.errors (recorded f))
                         (Cli.warnings (recorded f))
                         (Cli.hints (recorded f))
                         (Cli.isValid (recorded f))))).
          rewrite map_map. apply in_map_iff. now exists f. }
        lia.
      * split; [reflexivity|]. intros _ fr Hfr.
        rewrite map_map in Hfr. apply in_map_iff in Hfr as (f & <- & Hf).
        cbn [Cli.result Cli.isValid].
        apply (consistent_valid _ (Hall f Hf)), length_zero_iff_nil.
        assert (Hsum : countedErrors files = 0) by lia.
        apply (proj1 (list_sum_zero _) Hsum).
        apply in_map_iff. now exists f.
    + intros jf Hjf. unfold Cli.formatJson in Hjf.
      rewrite formatJson_loop in Hjf. cbn [Cli.files app] in Hjf.
      unfold shownResults, recordedResults in Hjf. rewrite !map_map in Hjf.
      apply in_map_iff in Hjf as (f & <- & Hf).
      cbn [Cli.result Cli.diagnostics Cli.errors Cli.warnings Cli.errorCount
           Cli.warningCount].
      unfold listedAs. cbn [Cli.jsonDiagnostics].
      destruct (Hall f Hf) as (He & Hw & _ & _).
      rewrite (listed_label "error" 1 (Cli.diagnostics (recorded f)) options),
        (listed_label "warning" 2 (Cli.diagnostics (recorded f)) options);
        try reflexivity;
        try (intros [|[|[|[|[|s]]]]]; simpl; intros; try lia; discriminate).
      rewrite filterDiagnostics_errors, filterDiagnostics_warnings, He, Hw.
      split; [reflexivity|].
      destruct (Cli.optWarnings options); simpl; split; auto; try lia.
  - intros error Herror report Hreport.
    destruct (validateCommand_rejected_silent chalk writeFile files options
                error Herror) as [Hlog Hwritten].
    unfold reports in Hreport. fold run in Hlog, Hwritten.
    rewrite Hlog, Hwritten in Hreport.
    destruct Hreport as [[rest H]|[target H]]; discriminate.
Qed.

Lemma X20_json_report_matches_exit_witness :
  let d := sampleDiagnostic (Some 2) 0 0 in
  let run :=
    Cli.validateCommand plainChalk writable
      [Cli.mkValidatedFile "a.sysml" "/a.sysml"
         (Cli.returned (Cli.mkValidationResult [d] [] [d] [] true))]
      (Cli.mkValidateOptions "json" (Some "out.json") true false false
                             false) in
  exists o,
    reports run (Cli.jsonReport o)
    /\ Cli.summaryIsValid (Cli.summary o) = true.
Proof.
  intros d run.
  destruct (X20_json_report_matches_exit plainChalk writable
              [Cli.mkValidatedFile "a.sysml" "/a.sysml"
                 (Cli.returned (Cli.mkValidationResult [d] [] [d] [] true))]
              (Cli.mkValidateOptions "json" (Some "out.json") true false
                                     false false))
    as [Hexit _].
  - discriminate.
  - reflexivity.
  - reflexivity.
  - intros f r [<-|[]] [= <-]. repeat split.
  - destruct (Hexit 0 eq_refl) as (o & Hr & _ & Hv & _).
    exists o. split; [exact Hr|]. now apply Hv.
Defined.

(** ** The SARIF report *)

Section SarifFacts.
Import Cli.

Lemma existsb_eqb_In (x : string) (l : list string) :
  existsb (String.eqb x) l = true <-> In x l.
Proof.
  rewrite existsb_exists. split.
  - intros (y & Hy & E). apply String.eqb_eq in E. now subst.
  - intros H. exists x. split; [exact H|apply String.eqb_refl].
Qed.

Lemma formatSarif_loop (fileResults : list FileResult) :
  forall results artifacts,
    NoDup (map locationUri artifacts) ->
    exists artifacts',
      fold_left formatSarifStep fileResults
                (results, artifacts, map locationUri artifacts)
      = ((results
          ++ flat_map
               (fun fr =>
                  map (fun d => convertToSarifResult d (file fr))
                      (diagnostics (result fr)))
               fileResults)%list,
         artifacts', map locationUri artifacts')
      /\ NoDup (map locationUri artifacts')
      /\ forall u, In u (map locationUri artifacts')
                   <-> In u (map locationUri artifacts)
                       \/ In u (map file fileResults).
Proof.
  induction fileResults as [|fr frs IH]; intros results artifacts Hnd.
  - exists artifacts. simpl. rewrite app_nil_r. repeat split; tauto.
  - cbn [fold_left]. unfold formatSarifStep at 2.
    destruct (existsb (String.eqb (file fr)) (map locationUri artifacts))
      eqn:Eseen; cbn [negb].
    + apply existsb_eqb_In in Eseen.
      destruct (IH (results
                    ++ map (fun d => convertToSarifResult d (file fr))
                           (diagnostics (result fr)))%list
                   artifacts Hnd) as (artifacts' & -> & Hnd' & Hin).
      exists artifacts'. cbn [flat_map]. rewrite <- app_assoc.
      split; [reflexivity|]. split; [exact Hnd'|].
      intros u. rewrite Hin. cbn [map In]. split; [tauto|].
      intros [H|[<-|H]]; tauto.
    + assert (Hfresh : ~ In (file fr) (map locationUri artifacts)).
      { intros H. apply existsb_eqb_In in H. congruence. }
      assert (Hmap : (map locationUri artifacts ++ [file fr])%list
                     = map locationUri
                           (artifacts ++ [mkSarifArtifact (file fr)])).
      { now rewrite map_app. }
      rewrite Hmap.
      destruct (IH (results
                    ++ map (fun d => convertToSarifResult d (file fr))
                           (diagnostics (result fr)))%list
                   (artifacts ++ [mkSarifArtifact (file fr)])%list)
        as (artifacts' & -> & Hnd' & Hin).
      { rewrite <- Hmap. apply NoDup_app; [exact Hnd|repeat constructor; tauto|].
        intros u Hu [<-|[]]. contradiction. }
      exists artifacts'. cbn [flat_map]. rewrite <- app_assoc.
      split; [reflexivity|]. split; [exact Hnd'|].
      intros u. rewrite Hin, <- Hmap, in_app_iff. cbn [map In]. tauto.
Qed.

End SarifFacts.

(** X21: the SARIF log is well formed.  It holds one run; the results of
    the run are the diagnostics of the file results, converted one by one
    in order; the artifacts are the files of the file results, each listed
    once; every result has one location, whose file is among the
    artifacts; and the rule of a result is one of the rules the run
    declares whenever the diagnostic carries no code. *)
Theorem X21_sarif_log_well_formed (fileResults : list Cli.FileResult) :
  exists run,
    Cli.runs (Cli.formatSarif fileResults) = [run]
    /\ Cli.results run
       = flat_map
           (fun fr =>
              map (fun d => Cli.convertToSarifResult d (Cli.file fr))
                  (Cli.diagnostics (Cli.result fr)))
           fileResults
    /\ NoDup (map Cli.locationUri (Cli.artifacts run))
    /\ (forall u, In u (map Cli.locationUri (Cli.artifacts run))
                  <-> In u (map Cli.file fileResults))
    /\ (forall r, In r (Cli.results run) ->
          exists loc,
            Cli.locations r = [loc]
            /\ In (Cli.artifactLocationUri loc)
                  (map Cli.locationUri (Cli.artifacts run)))
    /\ (forall fr d,
          In fr fileResults -> In d (Cli.diagnostics (Cli.result fr)) ->
          Cli.code d = None ->
          In (Cli.ruleId (Cli.convertToSarifResult d (Cli.file fr)))
             (map Cli.ruleIdent (Cli.rules run))).
Proof.
  unfold Cli.formatSarif.
  destruct (formatSarif_loop fileResults [] [] (NoDup_nil _))
    as (artifacts' & Hloop & Hnd & Hin).
  cbn [map] in Hloop. rewrite Hloop. cbn [app].
  eexists. split; [reflexivity|].
  cbn [Cli.results Cli.artifacts Cli.rules].
  split; [reflexivity|]. split; [exact Hnd|].
  assert (Hfiles : forall u, In u (map Cli.locationUri artifacts')
                             <-> In u (map Cli.file fileResults)).
  { intros u. rewrite Hin. cbn [map In]. tauto. }
  split; [exact Hfiles|]. split.
  - intros r Hr. apply in_flat_map in Hr as (fr & Hfr & Hr).
    apply in_map_iff in Hr as (d & <- & _).
    eexists. split; [reflexivity|]. cbn [Cli.artifactLocationUri].
    apply Hfiles, in_map_iff. now exists fr.
  - intros fr d _ _ Hcode. cbn [Cli.ruleId Cli.convertToSarifResult].
    unfold Cli.getRuleId. rewrite Hcode.
    destruct (Cli.severity d) as [[|[|[|k]]]|]; simpl; tauto.
Qed.

Lemma flat_map_nil_all {A B} (f : A -> list B) (l : list A) :
  (forall x, In x l -> f x = []) -> flat_map f l = [].
Proof.
  induction l as [|x l IH]; intros H; simpl; [reflexivity|].
  rewrite (H x (or_introl eq_refl)), IH; [reflexivity|].
  intros y Hy. apply H. now right.
Qed.

(** ** The text report *)

Section TextFacts.
Import Cli.

Lemma positionLe_iff (a b : Cli.Diagnostic) :
  positionLe a b <->
  (line (start (range a)) < line (start (range b))
   \/ (line (start (range a)) = line (start (range b))
       /\ character (start (range a)) <= character (start (range b))))%Z.
Proof.
  unfold positionLe, comparePosition.
  destruct (Z.eqb_spec (line (start (range a)) - line (start (range b))) 0);
    cbn [negb]; lia.
Qed.

Lemma positionLe_after (x y : Cli.Diagnostic) :
  (0 <? comparePosition y x)%Z = true -> positionLe x y.
Proof.
  intros H. apply Z.ltb_lt in H. apply positionLe_iff.
  unfold comparePosition in H.
  destruct (Z.eqb_spec (line (start (range y)) - line (start (range x))) 0);
    cbn [negb] in H; lia.
Qed.

Lemma positionLe_trans (a b c : Cli.Diagnostic) :
  positionLe a b -> positionLe b c -> positionLe a c.
Proof. rewrite !positionLe_iff. lia. Qed.

Lemma insertSorted_perm (x : Cli.Diagnostic) (l : list Cli.Diagnostic) :
  Permutation (x :: l) (insertSorted x l).
Proof.
  induction l as [|y l IH]; simpl; [reflexivity|].
  destruct (0 <? comparePosition y x)%Z; [reflexivity|].
  rewrite perm_swap. now apply perm_skip.
Qed.

Lemma insertSorted_sorted (x : Cli.Diagnostic) (l : list Cli.Diagnostic) :
  StronglySorted positionLe l -> StronglySorted positionLe (insertSorted x l).
Proof.
  induction 1 as [|y l Hs IH Hy]; simpl; [repeat constructor|].
  destruct (0 <? comparePosition y x)%Z eqn:E.
  - apply positionLe_after in E. constructor; [now constructor|].
    constructor; [exact E|].
    rewrite Forall_forall in Hy |- *. intros z Hz.
    exact (positionLe_trans x y z E (Hy z Hz)).
  - constructor; [exact IH|].
    rewrite Forall_forall in Hy |- *. intros z Hz.
    apply (Permutation_in _ (Permutation_sym (insertSorted_perm x l))) in Hz.
    destruct Hz as [<-|Hz]; [|now apply Hy].
    unfold positionLe. apply Z.ltb_ge in E. exact E.
Qed.

Lemma sort_loop (ds : list Cli.Diagnostic) :
  forall sorted,
    StronglySorted positionLe sorted ->
    Permutation (sorted ++ ds)
                (fold_left (fun sorted x => insertSorted x sorted) ds sorted)
    /\ StronglySorted positionLe
         (fold_left (fun sorted x => insertSorted x sorted) ds sorted).
Proof.
  induction ds as [|x ds IH]; intros sorted Hs; simpl.
  - now rewrite app_nil_r.
  - destruct (IH (insertSorted x sorted) (insertSorted_sorted x sorted Hs))
      as [Hp Hs'].
    split; [|exact Hs'].
    rewrite <- Hp, <- (insertSorted_perm x sorted).
    now rewrite <- Permutation_middle.
Qed.

Lemma sortByPosition_sorts (ds : list Cli.Diagnostic) :
  Permutation ds (sortByPosition ds)
  /\ StronglySorted positionLe (sortByPosition ds).
Proof. exact (sort_loop ds [] (SSorted_nil _)). Qed.

End TextFacts.

Lemma sortByPosition_nil_iff (ds : list Cli.Diagnostic) :
  Cli.sortByPosition ds = [] <-> ds = [].
Proof.
  pose proof (proj1 (sortByPosition_sorts ds)) as Hp. split.
  - intros E. rewrite E in Hp. now apply Permutation_nil, Permutation_sym.
  - intros ->. reflexivity.
Qed.

Lemma formatTextLines_sorted (c : Cli.Chalk)
    (fileResults : list Cli.FileResult) :
  Cli.formatTextLines c fileResults
  = flat_map (fun fr =>
                fileLines c (Cli.file fr)
                  (Cli.sortByPosition (Cli.diagnostics (Cli.result fr))))
             fileResults.
Proof.
  unfold Cli.formatTextLines. apply flat_map_ext. intros fr.
  destruct (Cli.diagnostics (Cli.result fr)) as [|d ds] eqn:E;
    [reflexivity|].
  cbn [List.length Nat.eqb]. unfold fileLines.
  destruct (Cli.sortByPosition (d :: ds)) as [|x l] eqn:Es; [|reflexivity].
  apply (proj1 (sortByPosition_nil_iff _)) in Es. discriminate.
Qed.

(** X22: the text report lists the diagnostics of each file by position.
    The lines of the report are, file after file, the lines of the file:
    nothing for a file without diagnostics, else an empty line, the file
    underlined, and one line per diagnostic, in the order that the sort
    gives them; that order holds the same diagnostics and is ascending
    by line, then by column.  The report is these lines joined by line
    feeds, or, when there is no line, the text [No issues found.] in the
    style of the options. *)
Theorem X22_text_report_by_position (chalk : Cli.Chalk)
    (fileResults : list Cli.FileResult) (useColors : option bool) :
  let c :=
    Cli.styles chalk (match useColors with Some b => b | None => true end) in
  let lines :=
    flat_map (fun fr =>
                fileLines c (Cli.file fr)
                  (Cli.sortByPosition (Cli.diagnostics (Cli.result fr))))
             fileResults in
  (forall ds,
      Permutation ds (Cli.sortByPosition ds)
      /\ StronglySorted positionLe (Cli.sortByPosition ds))
  /\ Cli.formatTextLines c fileResults = lines
  /\ Cli.formatText chalk fileResults useColors
     = match lines with
       | [] => Cli.green c "No issues found."
       | _ :: _ => Js.join (String (ascii_of_nat 10) "") lines
       end
  /\ (lines = [] <->
      forall fr, In fr fileResults -> Cli.diagnostics (Cli.result fr) = []).
Proof.
  intros c lines. split; [apply sortByPosition_sorts|].
  assert (Hlines : Cli.formatTextLines c fileResults = lines)
    by apply formatTextLines_sorted.
  split; [exact Hlines|]. split.
  - unfold Cli.formatText. fold c. rewrite Hlines. now destruct lines.
  - unfold lines. split.
    + intros Hnil fr Hfr.
      destruct (Cli.diagnostics (Cli.result fr)) as [|d ds] eqn:E;
        [reflexivity|].
      exfalso.
      assert (Hin : In "" (flat_map
                (fun fr =>
                   fileLines c (Cli.file fr)
                     (Cli.sortByPosition (Cli.diagnostics (Cli.result fr))))
                fileResults)).
      { apply in_flat_map. exists fr. split; [exact Hfr|]. rewrite E.
        unfold fileLines.
        destruct (Cli.sortByPosition (d :: ds)) as [|x l] eqn:Es;
          [|now left].
        apply (proj1 (sortByPosition_nil_iff _)) in Es. discriminate. }
      rewrite Hnil in Hin. destruct Hin.
    + intros Hempty. apply flat_map_nil_all. intros fr Hfr.
      now rewrite (Hempty fr Hfr).
Qed.

Lemma X22_text_report_by_position_witness :
  Cli.formatTextLines (Cli.styles plainChalk false)
    [Cli.mkFileResult "a.sysml" "/a.sysml"
       (Cli.mkValidationResult
          [sampleDiagnostic (Some 1) 2 1; sampleDiagnostic (Some 2) 0 0;
           sampleDiagnostic (Some 4) 2 0]
          [] [] [] false)]
  = [ ""; "a.sysml"; "  1:1  warning  m"; "  3:1  hint  m";
      "  3:2  error  m" ].
Proof.
  rewrite (proj1 (proj2 (X22_text_report_by_position plainChalk
             [Cli.mkFileResult "a.sysml" "/a.sysml"
                (Cli.mkValidationResult
                   [sampleDiagnostic (Some 1) 2 1;
                    sampleDiagnostic (Some 2) 0 0;
                    sampleDiagnostic (Some 4) 2 0]
                   [] [] [] false)]
             (Some false)))).
  reflexivity.
Defined.

(* ===================================================================== *)
(** * Properties of the serializer                                        *)
(* ===================================================================== *)

Section SerializerFacts.
Import Duplicates AstSerializer.

Lemma serializeNode_object (obj : list (string * JsValue))
    (options : SerializeOptions) :
  serializeNode (jsObject obj) options
  = jsObject (fold_left (serializeStep options) obj (typeEntry options obj)).
Proof. reflexivity. Qed.

Lemma mapSet_absent {V} (m : JsMap V) (k : string) (v : V) :
  ~ In k (map fst m) -> mapSet m k v = (m ++ [(k, v)])%list.
Proof.
  induction m as [|[k0 v0] m IH]; simpl; [reflexivity|].
  intros H. destruct (String.eqb k0 k) eqn:E.
  - apply String.eqb_eq in E. tauto.
  - rewrite IH; tauto.
Qed.

Lemma mapSet_app_absent {V} (m1 m2 : JsMap V) (k : string) (v : V) :
  ~ In k (map fst m1) ->
  mapSet (m1 ++ m2)%list k v = (m1 ++ mapSet m2 k v)%list.
Proof.
  induction m1 as [|[k0 v0] m1 IH]; simpl; [reflexivity|].
  intros H. destruct (String.eqb k0 k) eqn:E.
  - apply String.eqb_eq in E. tauto.
  - rewrite IH; tauto.
Qed.

Lemma mapSet_Forall {V} (P : string * V -> Prop) (m : JsMap V) k v :
  Forall P m -> P (k, v) -> Forall P (mapSet m k v).
Proof.
  intros Hm Hkv. induction Hm as [|[k0 v0] m H0 Hm IH]; simpl.
  - now repeat constructor.
  - destruct (String.eqb k0 k) eqn:E.
    + apply String.eqb_eq in E. subst k0. now constructor.
    + now constructor.
Qed.

Lemma typeEntry_keys (options : SerializeOptions)
    (obj : list (string * JsValue)) (k : string) :
  In k (map fst (typeEntry options obj)) ->
  k = "$type" /\ includeTypes options = true.
Proof.
  unfold typeEntry.
  destruct (includeTypes options); [|intros []].
  destruct (truthy (getProperty obj "$type")); [|intros []].
  intros [<-|[]]. now split.
Qed.

Lemma serializeStep_written (options : SerializeOptions)
    (Q : JsValue -> Prop) (obj result : list (string * JsValue))
    (kv : string * JsValue) :
  Q (serializeNode (snd kv) options) ->
  (forall b, Q (jsBoolean b)) -> (forall z, Q (jsNumber z)) ->
  (forall s, Q (jsString s)) ->
  writtenBelowType options Q obj result ->
  writtenBelowType options Q obj (serializeStep options result kv).
Proof.
  intros Hkv Hb Hz Hs (rest & -> & Hnd & Hall).
  destruct kv as [key value]. unfold serializeStep. cbn [snd] in Hkv.
  destruct (Js.startsWith "$" key) eqn:Ekey; [now exists rest|].
  destruct (match propertyFilter options with
            | Some keep => negb (keep key value)
            | None => false
            end); [now exists rest|].
  assert (Hfresh : ~ In key (map fst (typeEntry options obj))).
  { intros H. apply typeEntry_keys in H as [-> _]. discriminate. }
  assert (Hset : forall w,
            w <> jsUndefined -> w <> jsNull -> Q w ->
            writtenBelowType options Q obj
                    (mapSet (typeEntry options obj ++ rest)%list key w)).
  { intros w Hu Hn Hq. exists (mapSet rest key w).
    split; [now apply mapSet_app_absent|].
    split; [now apply mapSet_NoDup|].
    apply mapSet_Forall; [exact Hall|]. now repeat split. }
  destruct value; cbn [isObject];
    try (now exists rest); apply Hset; try discriminate; auto;
    rewrite ?serializeNode_object; discriminate.
Qed.

Lemma serialize_loop_written (options : SerializeOptions)
    (Q : JsValue -> Prop) (obj : list (string * JsValue)) :
  (forall b, Q (jsBoolean b)) -> (forall z, Q (jsNumber z)) ->
  (forall s, Q (jsString s)) ->
  forall l result,
    Forall (fun kv => Q (serializeNode (snd kv) options)) l ->
    writtenBelowType options Q obj result ->
    writtenBelowType options Q obj (fold_left (serializeStep options) l result).
Proof.
  intros Hb Hz Hs l. induction l as [|kv l IH]; intros result Hl Hw.
  - exact Hw.
  - inversion Hl as [|? ? Hkv Hl']; subst. cbn [fold_left].
    apply IH; [exact Hl'|]. now apply serializeStep_written.
Qed.

Lemma written_no_type (Q : JsValue -> Prop) (rest : list (string * JsValue)) :
  Forall (writtenProperty Q) rest -> mapGet rest "$type" = None.
Proof.
  intros H. destruct (mapGet rest "$type") as [v|] eqn:E; [|reflexivity].
  apply mapGet_In in E. rewrite Forall_forall in H.
  destruct (H _ E) as [Hkey _]. discriminate.
Qed.

Lemma typeEntry_again (options : SerializeOptions) (Q : JsValue -> Prop)
    (obj rest : list (string * JsValue)) :
  Forall (writtenProperty Q) rest ->
  typeEntry options (typeEntry options obj ++ rest)%list
  = typeEntry options obj.
Proof.
  intros Hrest. unfold typeEntry at 1 3. unfold getProperty at 1 2.
  unfold typeEntry.
  destruct (includeTypes options) eqn:Et; [|reflexivity].
  cbn [andb].
  destruct (truthy (getProperty obj "$type")) eqn:Ev.
  - cbn [app mapGet]. change (String.eqb "$type" "$type") with true.
    cbv iota. now rewrite Ev.
  - cbn [app]. now rewrite (written_no_type Q rest Hrest).
Qed.

Lemma serialize_loop_rebuild (options : SerializeOptions)
    (rest : list (string * JsValue)) :
  propertyFilter options = None ->
  NoDup (map fst rest) ->
  Forall (writtenProperty (fun w => serializeNode w options = w)) rest ->
  forall result,
    (forall k, In k (map fst result) -> ~ In k (map fst rest)) ->
    fold_left (serializeStep options) rest result = (result ++ rest)%list.
Proof.
  intros Hfilter. induction rest as [|[k w] rest IH];
    intros Hnd Hall result Hdisj.
  - simpl. now rewrite app_nil_r.
  - inversion Hnd as [|? ? Hk Hnd']; subst.
    inversion Hall as [|? ? (Hkey & Hu & Hn & Hw) Hall']; subst.
    cbn [fst snd] in *. cbn [fold_left].
    assert (Hstep : serializeStep options result (k, w)
                    = (result ++ [(k, w)])%list).
    { unfold serializeStep. rewrite Hkey, Hfilter.
      assert (Hfresh : ~ In k (map fst result)).
      { intros H. apply (Hdisj k H). now left. }
      destruct w; try contradiction; cbn [isObject];
        rewrite ?Hw; now apply mapSet_absent. }
    rewrite Hstep, IH; [now rewrite <- app_assoc|exact Hnd'|exact Hall'|].
    intros k' Hk' Hin. rewrite map_app in Hk'.
    apply in_app_iff in Hk' as [Hk'|[<-|[]]].
    + apply (Hdisj k' Hk'). now right.
    + contradiction.
Qed.

Lemma typeEntry_skipped (options : SerializeOptions)
    (obj result : list (string * JsValue)) :
  fold_left (serializeStep options) (typeEntry options obj) result = result.
Proof.
  unfold typeEntry.
  destruct (includeTypes options && truthy (getProperty obj "$type"));
    reflexivity.
Qed.

Lemma serializeNode_normal (options : SerializeOptions) (v : JsValue) :
  Serialized (includeTypes options) (serializeNode v options)
  /\ (propertyFilter options = None ->
      serializeNode (serializeNode v options) options
      = serializeNode v options).
Proof.
  induction v as [| |b|z|s|items IH|obj IH] using JsValue_induction;
    try (split; [constructor|reflexivity]).
  - (* arrays *)
    cbn [serializeNode]. split.
    + constructor. rewrite Forall_map.
      rewrite Forall_forall in IH |- *. intros x Hx. now apply IH.
    + intros Hfilter. f_equal. rewrite map_map. apply map_ext_in.
      intros x Hx. rewrite Forall_forall in IH. now apply (IH x Hx).
  - (* objects *)
    rewrite serializeNode_object.
    set (Q := fun w => Serialized (includeTypes options) w
                       /\ (propertyFilter options = None ->
                           serializeNode w options = w)).
    assert (Hloop : writtenBelowType options Q obj
                      (fold_left (serializeStep options) obj
                                 (typeEntry options obj))).
    { apply serialize_loop_written.
      - intros b. split; [constructor|reflexivity].
      - intros z. split; [constructor|reflexivity].
      - intros s. split; [constructor|reflexivity].
      - exact IH.
      - exists []. rewrite app_nil_r. repeat split; constructor. }
    destruct Hloop as (rest & -> & Hnd & Hall).
    assert (Hdisj : forall k, In k (map fst (typeEntry options obj)) ->
                              ~ In k (map fst rest)).
    { intros k Hk Hin. apply typeEntry_keys in Hk as [-> _].
      apply in_map_iff in Hin as ([k v] & Hkv & Hin). cbn [fst] in Hkv.
      subst k. rewrite Forall_forall in Hall.
      destruct (Hall _ Hin) as [Hkey _]. discriminate. }
    split.
    + constructor.
      * rewrite map_app. apply NoDup_app; [|exact Hnd|exact Hdisj].
        unfold typeEntry.
        destruct (includeTypes options && truthy (getProperty obj "$type"));
          repeat constructor; simpl; tauto.
      * apply Forall_app. split.
        -- apply Forall_forall. intros kv Hkv. left.
           apply (typeEntry_keys options obj). apply in_map_iff.
           now exists kv.
        -- apply Forall_forall. intros kv Hkv. right.
           rewrite Forall_forall in Hall.
           destruct (Hall kv Hkv) as (H1 & H2 & H3 & H4 & _).
           now repeat split.
    + intros Hfilter. rewrite serializeNode_object. f_equal.
      rewrite (typeEntry_again options Q obj rest Hall).
      rewrite fold_left_app, typeEntry_skipped.
      apply serialize_loop_rebuild; [exact Hfilter|exact Hnd| |exact Hdisj].
      apply Forall_forall. intros kv Hkv. rewrite Forall_forall in Hall.
      destruct (Hall kv Hkv) as (H1 & H2 & H3 & _ & H5).
      repeat split; auto.
Qed.

End SerializerFacts.

(** X23: the serializer writes no internal property.  Whatever the
    options, in the value that [serializeNode] returns every object,
    reached through arrays and properties, has distinct keys, holds no
    key that starts with [$] other than [$type], holds [$type] only when
    types are included, and holds no other property that is [undefined]
    or [null]. *)
Theorem X23_serialized_without_internal (v : AstSerializer.JsValue)
    (options : AstSerializer.SerializeOptions) :
  Serialized (AstSerializer.includeTypes options)
             (AstSerializer.serializeNode v options).
Proof. apply serializeNode_normal. Qed.

(** X24: serializing a serialized value changes nothing, with or without
    types, as long as no property filter is given. *)
Theorem X24_serialize_idempotent (v : AstSerializer.JsValue)
    (options : AstSerializer.SerializeOptions) :
  AstSerializer.propertyFilter options = None ->
  AstSerializer.serializeNode (AstSerializer.serializeNode v options) options
  = AstSerializer.serializeNode v options.
Proof. apply serializeNode_normal. Qed.

Lemma X24_serialize_idempotent_witness :
  let options := AstSerializer.mkSerializeOptions true None in
  AstSerializer.serializeNode
    (AstSerializer.serializeNode sampleNode options) options
  = AstSerializer.jsObject
      [ ("$type", AstSerializer.jsString "PartDefinition");
        ("name", AstSerializer.jsString "A");
        ("specializations",
         AstSerializer.jsArray
           [ AstSerializer.jsObject
               [ ("$type", AstSerializer.jsString "QualifiedName");
                 ("names",
                  AstSerializer.jsArray [AstSerializer.jsString "B"]) ] ]) ].
Proof.
  intros options.
  rewrite (X24_serialize_idempotent sampleNode options eq_refl).
  reflexivity.
Defined.

(* ===================================================================== *)
(** * Properties of the validator                                         *)
(* ===================================================================== *)

Section ValidatorFacts.
Import Duplicates Validator.

Lemma extractInnerElements_In (l : list AstNode) (inner : AstNode) :
  In inner (extractInnerElements l) <->
  exists m, In m l /\ isOwningMembership m = true /\ element m = Some inner.
Proof.
  unfold extractInnerElements. rewrite in_flat_map. split.
  - intros (m & Hm & H). exists m. split; [exact Hm|].
    destruct (isOwningMembership m); [|destruct H].
    destruct (element m) as [e|]; [|destruct H].
    destruct H as [<-|[]]. now split.
  - intros (m & Hm & Hown & He). exists m. split; [exact Hm|].
    rewrite Hown, He. now left.
Qed.

Lemma duplicates_property (els : list AstNode)
    (options : ReportDuplicatesOptions) (d : Diagnostic AstNode) :
  In d (checkAndReportDuplicates els options) ->
  property d
  = Some (match propertyOpt options with Some p => p | None => "name" end).
Proof.
  unfold checkAndReportDuplicates. rewrite reportDuplicates_entries.
  intros H. apply in_flat_map in H as ([k v] & _ & Hd).
  apply reportEntry_message in Hd as [Hd _]. now rewrite Hd.
Qed.

Lemma checkCircularSpecialization_In (n : AstNode)
    (specs : option (list QualifiedName)) (selfName elementType : option string)
    (d : Diagnostic AstNode) :
  In d (Specialization.checkCircularSpecialization n specs selfName
                                                   elementType) ->
  severity d = error_ /\ node d = n /\ property d = Some "specializations".
Proof.
  unfold Specialization.checkCircularSpecialization.
  destruct specs as [l|]; [|intros []].
  destruct selfName as [[|c r]|]; try (intros []).
  intros H. apply in_flat_map in H as (spec & _ & H).
  destruct (Ast.names spec) as [[|single [|x rest]]|]; try destruct H.
  destruct (String.eqb single (String c r)); [|destruct H].
  destruct H as [<-|[]]. now repeat split.
Qed.

Lemma checkMultiplicity_In (m : Multiplicity.MultiplicityBounds)
    (d : Diagnostic Multiplicity.MultiplicityBounds) :
  In d (Multiplicity.checkMultiplicity m) -> reportedOnMultiplicity m d.
Proof.
  unfold reportedOnMultiplicity.
  destruct (Multiplicity.lowerValue (Multiplicity.lowerBound m))
    as [L|] eqn:E.
  - rewrite (checkMultiplicity_lower m L E).
    destruct ((L <? 0)%Z && negb (Multiplicity.isUnbounded L)).
    + intros [<-|[]]. repeat split. now left.
    + destruct (Multiplicity.parseMultiplicityBound
                  (Multiplicity.upperBound m)) as [U|]; [|intros []].
      destruct (negb (Multiplicity.isUnbounded U) && (L >? U)%Z);
        [|intros []].
      intros [<-|[]]. repeat split. now right.
  - rewrite (checkMultiplicity_no_lower m E). intros [].
Qed.

Lemma checkQualifiedName_In (q : QualifiedName) (d : Diagnostic QualifiedName) :
  In d (checkQualifiedName q) -> reportedOnQualifiedName q d.
Proof.
  unfold checkQualifiedName, reportedOnQualifiedName.
  destruct (Ast.names q) as [[|x l]|];
    [intros [<-|[]]; now repeat split
    |intros []
    |intros [<-|[]]; now repeat split].
Qed.

Lemma checks_report_locally (tag : string) (c : Check) :
  In (tag, c) checks -> reportsLocally c.
Proof.
  unfold checks. intros Hc.
  repeat (destruct Hc as [[= _ <-]|Hc]); [..|destruct Hc];
    cbn [reportsLocally]; try (intros n d Hd); unfold reportedOnNode.
  - (* the root namespace *)
    right. right. unfold checkRootNamespace in Hd.
    pose proof (duplicates_property _ _ _ Hd) as Hp.
    apply duplicates_named in Hd as (Hs & Hn & Hin).
    apply extractInnerElements_In in Hin as (m & Hm & Hown & He).
    repeat split; auto. exists m. now repeat split; auto.
  - (* a package body *)
    right. right. unfold checkPackageBody in Hd.
    pose proof (duplicates_property _ _ _ Hd) as Hp.
    apply duplicates_named in Hd as (Hs & Hn & Hin).
    apply extractInnerElements_In in Hin as (m & Hm & Hown & He).
    repeat split; auto. exists m. now repeat split; auto.
  - (* a part definition *)
    unfold checkPartDefinition in Hd.
    destruct (negb (String.eqb (type_ n) "PartDefinition")); [destruct Hd|].
    apply in_app_iff in Hd as [Hd|Hd].
    + left. destruct (isAbstract n); [|destruct Hd].
      destruct (_ && _); [|destruct Hd]. destruct Hd as [<-|[]].
      now repeat split.
    + right. left.
      apply checkCircularSpecialization_In in Hd as (Hs & Hn & Hp).
      repeat split; auto.
  - (* a type body *)
    unfold checkTypeBodyRule in Hd.
    apply in_app_iff in Hd as [Hd|Hd].
    + left. destruct (_ && _); [|destruct Hd]. destruct Hd as [<-|[]].
      now repeat split.
    + right. left.
      apply checkCircularSpecialization_In in Hd as (Hs & Hn & Hp).
      repeat split; auto.
  - (* a part usage *)
    left. unfold checkPartUsage in Hd.
    destruct (negb (String.eqb (type_ n) "PartUsage")); [destruct Hd|].
    destruct (featureTypes n) as [[|t ts]|]; try destruct Hd;
      (destruct (Js.truthy (name n)); [|destruct Hd]);
      destruct Hd as [<-|[]]; now repeat split.
  - destruct Hd.
  - destruct Hd.
  - (* an attribute usage *)
    right. left. unfold checkAttributeUsage in Hd.
    destruct (_ && _); [|destruct Hd]. destruct Hd as [<-|[]].
    repeat split; auto.
  - (* multiplicity bounds *)
    now apply checkMultiplicity_In.
  - (* a qualified name *)
    now apply checkQualifiedName_In.
Qed.

Lemma dispatch_In {N} (run : Check -> list (Diagnostic N)) (nodeType : string)
    (d : Diagnostic N) :
  In d (dispatch run nodeType) ->
  exists c, In (nodeType, c) checks /\ In d (run c).
Proof.
  unfold dispatch. intros H.
  apply in_flat_map in H as ([tag c] & Hin & H). cbn [fst snd] in H.
  destruct (String.eqb_spec tag nodeType) as [->|_]; [|destruct H].
  now exists c.
Qed.

End ValidatorFacts.

(** X25: what the validator reports, and where.  Each of the ten checks
    that [registerValidationChecks] registers, on whatever node it is
    run, emits only: a hint on the node itself at its name; or an error
    on the node itself, at its specializations, at its computed-value
    flag, at its lower bound, or without property; or an error, at the
    name, on a named element of one of the owning memberships of the node
    (a duplicate name).  Hence the same holds of the diagnostics that the
    registry yields for a node of any of the three kinds. *)
Theorem X25_validator_reports_locally :
  map fst Validator.checks
  = [ "RootNamespace"; "PackageBody"; "PartDefinition"; "TypeBodyRule";
      "PartUsage"; "FeatureBodyRule"; "AttributeDefinition";
      "AttributeUsage"; "MultiplicityBounds"; "QualifiedName" ]
  /\ (forall tag c, In (tag, c) Validator.checks -> reportsLocally c)
  /\ (forall n d, In d (Validator.validateNode n) -> reportedOnNode n d)
  /\ (forall m d,
        In d (Validator.validateMultiplicityNode m) ->
        reportedOnMultiplicity m d)
  /\ (forall q d,
        In d (Validator.validateQualifiedNameNode q) ->
        reportedOnQualifiedName q d).
Proof.
  split; [reflexivity|]. split; [exact checks_report_locally|].
  split; [|split].
  - intros n d Hd. apply dispatch_In in Hd as (c & Hc & Hd).
    pose proof (checks_report_locally _ _ Hc) as Hlocal.
    destruct c; try destruct Hd. now apply Hlocal.
  - intros m d Hd. apply dispatch_In in Hd as (c & Hc & Hd).
    pose proof (checks_report_locally _ _ Hc) as Hlocal.
    destruct c; try destruct Hd. now apply Hlocal.
  - intros q d Hd. apply dispatch_In in Hd as (c & Hc & Hd).
    pose proof (checks_report_locally _ _ Hc) as Hlocal.
    destruct c; try destruct Hd. now apply Hlocal.
Qed.

(** ** Duplicate names and local scopes *)

Section ScopeAgreement.
Import Duplicates Validator ElementUtils.
Variable document : LangiumDocument.

Lemma samePath_refl (p : Path) : samePath p p = true.
Proof. unfold samePath. now destruct (list_eq_dec Step_eq_dec p p). Qed.

Lemma samePath_longer (p q : Path) : q <> [] -> samePath (p ++ q) p = false.
Proof.
  intros Hq. unfold samePath.
  destruct (list_eq_dec Step_eq_dec (p ++ q) p) as [E|_]; [|reflexivity].
  apply (f_equal (@List.length Step)) in E. rewrite length_app in E.
  destruct q; [contradiction|simpl in E; lia].
Qed.

Lemma nested_scopes_below (inner : AstNode) (s : Step) (container : Path) :
  filter (fun entry => samePath (fst entry) container)
         (processNestedLocalScopes document inner
            (container ++ [s; elementProp]))
  = [].
Proof.
  apply filter_nil_iff. intros entry Hentry.
  destruct (proj1 (locals_invariant document inner) _ _ Hentry)
    as (rel1 & _ & -> & _).
  rewrite <- app_assoc. apply samePath_longer. discriminate.
Qed.

Lemma namesUnder_members (filtered : bool) (container : Path)
    (at_ : nat -> Step) (l : list AstNode) :
  namesUnder container
             (processLocalScopes document filtered container at_ l)
  = map entryName
        (extractNamedElements getElementName (extractInnerElements l)).
Proof.
  unfold namesUnder, processLocalScopes, processLocalScopesWith.
  unfold extractNamedElements, extractInnerElements.
  generalize 0. induction l as [|m l IH]; intros i; [reflexivity|].
  cbn [forEachIndexed flat_map].
  rewrite filter_app, map_app, flat_map_app, map_app, IH. f_equal.
  destruct (isOwningMembership m); cbn [negb orb];
    [|now destruct filtered].
  rewrite Bool.orb_true_r.
  destruct (element m) as [inner|]; [|reflexivity].
  cbn [flat_map app]. unfold getElementName.
  destruct (name inner) as [[|c r]|]; try reflexivity.
  cbn [filter fst]. rewrite samePath_refl.
  rewrite (nested_scopes_below inner (at_ i) container).
  reflexivity.
Qed.

End ScopeAgreement.

(** X26: the duplicate-name checks and the local scopes agree.  The check
    of the root namespace is silent exactly when the names registered in
    the local scope under the root are pairwise distinct; and the check of
    a package body is silent exactly when the names that the local-scope
    traversal registers under the package are pairwise distinct.  So two
    entries of one container with the same name are always reported. *)
Theorem X26_duplicates_iff_ambiguous_scope (document : LangiumDocument) :
  (Validator.checkRootNamespace (root document) = []
   <-> NoDup (namesUnder [] (computeLocalScopes document)))
  /\ (forall pkg here,
        Validator.checkPackageBody pkg = []
        <-> NoDup (namesUnder here
                     (processNestedLocalScopes document pkg here))).
Proof.
  split.
  - unfold Validator.checkRootNamespace, computeLocalScopes.
    rewrite no_report_iff_small_groups, <- distinct_names_groups.
    destruct (namespaceElements (root document)) as [l|]; cbn [Validator.orEmpty].
    + now rewrite namesUnder_members.
    + reflexivity.
  - intros pkg here. unfold Validator.checkPackageBody.
    rewrite no_report_iff_small_groups, <- distinct_names_groups.
    rewrite processNestedLocalScopes_elements.
    destruct (elements pkg) as [l|]; cbn [Validator.orEmpty].
    + now rewrite namesUnder_members.
    + reflexivity.
Qed.
